(** * ETL engine: the mapping DSL, its compiler and the pipeline executor

    A shallow embedding of [src/app/utils.py] and [src/app/transformer.py].

    Conventions of the embedding.
    - Python [str] values are [string]s.  Characters are 7-bit ASCII: a
      character with code 128 or more is neither white space nor a word
      character and has no case.
    - A Python function that may raise returns a [result]: [Ok v], or
      [Raise e] with the class of the exception.  [Beyond] marks behaviour
      of the columnar backend that the embedding does not cover, [NoFuel]
      the exhaustion of the recursion budget of the recursive-descent
      parser (shown unreachable for the entry points, see
      [parse_total]).
    - The columnar backend (polars) is not part of the repository.  The
      expression objects the code builds are recorded as a syntax tree
      ([expr]); the frame operations the executor calls ([filter], [head],
      [slice], [select]) follow the documented behaviour of the backend on
      the fragment described at [Polars]. *)

From Stdlib Require Import ZArith NArith Ascii String List Bool Lia.
From stdpp Require Import base option list gmap strings pretty.

Local Open Scope Z_scope.


(* ===================================================================== *)
(** * Python primitives *)
(* ===================================================================== *)

Module Py.

(** Exception classes met in the two modules. *)
Inductive exn : Type :=
| ValueError | IndexError | TypeError | AttributeError | OverflowError
| MappingError | TransformError
| ColumnNotFoundError | DuplicateError | ShapeError | InvalidOperationError.

Inductive result (A : Type) : Type :=
| Ok (a : A)
| Raise (e : exn)
| Beyond
| NoFuel.
Arguments Ok {A} a.
Arguments Raise {A} e.
Arguments Beyond {A}.
Arguments NoFuel {A}.

Definition bind {A B} (r : result A) (k : A -> result B) : result B :=
  match r with
  | Ok a => k a
  | Raise e => Raise e
  | Beyond => Beyond
  | NoFuel => NoFuel
  end.

Fixpoint mapM {A B} (f : A -> result B) (l : list A) : result (list B) :=
  match l with
  | [] => Ok []
  | x :: r => bind (f x) (fun y => bind (mapM f r) (fun ys => Ok (y :: ys)))
  end.

(** [try: ... except Exception as e: raise E(...)]: every exception of the
    body is replaced by [e']. *)
Definition reraise {A} (e' : exn) (r : result A) : result A :=
  match r with
  | Raise _ => Raise e'
  | _ => r
  end.

(** ** Characters *)

Definition code (c : ascii) : N := N_of_ascii c.

Definition in_range (lo hi : N) (c : ascii) : bool :=
  ((lo <=? code c) && (code c <=? hi))%N.

(** [str.isspace] on ASCII; the same set is what [\s] matches. *)
Definition is_space (c : ascii) : bool :=
  in_range 9 13 c || in_range 28 32 c.

Definition is_digit (c : ascii) : bool := in_range 48 57 c.
Definition is_upper (c : ascii) : bool := in_range 65 90 c.
Definition is_lower (c : ascii) : bool := in_range 97 122 c.

(** What [\w] matches. *)
Definition is_word (c : ascii) : bool :=
  is_digit c || is_upper c || is_lower c || Ascii.eqb c "_".

Definition lower_char (c : ascii) : ascii :=
  if is_upper c then ascii_of_N (code c + 32) else c.
Definition upper_char (c : ascii) : ascii :=
  if is_lower c then ascii_of_N (code c - 32) else c.

Definition is_quote (c : ascii) : bool :=
  Ascii.eqb c "'" || Ascii.eqb c "034".

(** ** Strings *)

Fixpoint smap (f : ascii -> ascii) (s : string) : string :=
  match s with
  | EmptyString => EmptyString
  | String c r => String (f c) (smap f r)
  end.

Definition lower : string -> string := smap lower_char.
Definition upper : string -> string := smap upper_char.

Fixpoint lstrip (s : string) : string :=
  match s with
  | String c r => if is_space c then lstrip r else s
  | EmptyString => EmptyString
  end.

Fixpoint rstrip (s : string) : string :=
  match s with
  | EmptyString => EmptyString
  | String c r =>
      match rstrip r with
      | EmptyString => if is_space c then EmptyString else String c EmptyString
      | r' => String c r'
      end
  end.

Definition strip (s : string) : string := lstrip (rstrip s).

(** [s.startswith(p)] *)
Definition startswith (p s : string) : bool := String.prefix p s.

(** [s[len(p):]] *)
Fixpoint drop (n : nat) (s : string) : string :=
  match n, s with
  | O, _ => s
  | S n, String _ r => drop n r
  | S _, EmptyString => EmptyString
  end.

(** Split off the last character: [(s[:-1], s[-1])]. *)
Fixpoint unsnoc (s : string) : option (string * ascii) :=
  match s with
  | EmptyString => None
  | String c r =>
      match unsnoc r with
      | None => Some (EmptyString, c)
      | Some (r', l) => Some (String c r', l)
      end
  end.

(** [s.endswith(c)] for a one-character suffix. *)
Definition endswith_char (c : ascii) (s : string) : bool :=
  match unsnoc s with
  | Some (_, l) => Ascii.eqb l c
  | None => false
  end.

(** [s[:-1]] *)
Definition drop_last (s : string) : string :=
  match unsnoc s with
  | Some (r, _) => r
  | None => EmptyString
  end.

(** [c in s] for a character. *)
Fixpoint has_char (c : ascii) (s : string) : bool :=
  match s with
  | EmptyString => false
  | String d r => Ascii.eqb d c || has_char c r
  end.

(** [s.split(op, 1)] when [op in s]: the text before and after the first
    occurrence of [op]; [None] when [op] does not occur. *)
Fixpoint split_first (op s : string) : option (string * string) :=
  if startswith op s then Some (EmptyString, drop (String.length op) s)
  else match s with
       | EmptyString => None
       | String c r =>
           match split_first op r with
           | Some (l, r') => Some (String c l, r')
           | None => None
           end
       end.

(** [s.split(',')] *)
Fixpoint split_comma (s : string) : list string :=
  match s with
  | EmptyString => [EmptyString]
  | String c r =>
      if Ascii.eqb c ","
      then EmptyString :: split_comma r
      else match split_comma r with
           | x :: xs => String c x :: xs
           | [] => [String c EmptyString]
           end
  end.

(** [sep.join(l)] *)
Definition join (sep : string) (l : list string) : string :=
  String.concat sep l.

(** [s.strip(q)] where [q] holds the two quote characters. *)
Fixpoint lstrip_quotes (s : string) : string :=
  match s with
  | String c r => if is_quote c then lstrip_quotes r else s
  | EmptyString => EmptyString
  end.

Fixpoint rstrip_quotes (s : string) : string :=
  match s with
  | EmptyString => EmptyString
  | String c r =>
      match rstrip_quotes r with
      | EmptyString => if is_quote c then EmptyString else String c EmptyString
      | r' => String c r'
      end
  end.

Definition strip_quotes (s : string) : string :=
  lstrip_quotes (rstrip_quotes s).

(** ** Numbers: [float(s)] and [int(x)] *)

(** A binary64 value: not-a-number, an infinity, or [m * 2^e] with a sign. *)
Inductive float64 : Type :=
| FNan
| FInf (neg : bool)
| FFin (neg : bool) (m : N) (e : Z).

(** [p / q] rounded to the nearest integer, ties to even. *)
Definition div_half_even (p q : N) : N :=
  let d := (p / q)%N in
  let r := (p mod q)%N in
  match (2 * r ?= q)%N with
  | Lt => d
  | Gt => (d + 1)%N
  | Eq => if N.even d then d else (d + 1)%N
  end.

(** The binary64 nearest to [p / q] ([q > 0]), as [(m, e)]; [None] when the
    quotient rounds to infinity. *)
Definition round_f64 (p q : N) : option (N * Z) :=
  if (p =? 0)%N then Some (0%N, 0) else
  let l := Z.of_N (N.log2 p) - Z.of_N (N.log2 q) in
  let ge_pow :=
    if 0 <=? l then (q * 2 ^ Z.to_N l <=? p)%N
    else (q <=? p * 2 ^ Z.to_N (- l))%N in
  let fl := if ge_pow then l else l - 1 in
  let e := Z.max (fl - 52) (-1074) in
  let m :=
    if 0 <=? e then div_half_even p (q * 2 ^ Z.to_N e)
    else div_half_even (p * 2 ^ Z.to_N (- e)) q in
  let '(m, e) := if (m =? 2 ^ 53)%N then ((2 ^ 52)%N, e + 1) else (m, e) in
  if 971 <? e then None else Some (m, e).

Definition float_of_decimal (neg : bool) (d : N) (k : Z) : float64 :=
  let r := if 0 <=? k then round_f64 (d * 10 ^ Z.to_N k) 1
           else round_f64 d (10 ^ Z.to_N (- k)) in
  match r with
  | Some (m, e) => FFin neg m e
  | None => FInf neg
  end.

(** [digit (["_"] digit)*] after its first digit. *)
Fixpoint digitpart_go (acc cnt : N) (s : string) : N * N * string :=
  match s with
  | String c r =>
      if is_digit c then digitpart_go (acc * 10 + (code c - 48)) (cnt + 1) r
      else if Ascii.eqb c "_" then
        match r with
        | String d r' =>
            if is_digit d
            then digitpart_go (acc * 10 + (code d - 48)) (cnt + 1) r'
            else (acc, cnt, s)
        | EmptyString => (acc, cnt, s)
        end
      else (acc, cnt, s)
  | EmptyString => (acc, cnt, s)
  end%N.

(** A [digitpart] at the head of [s]: its value, its number of digits and
    the text after it. *)
Definition digitpart (s : string) : option (N * N * string) :=
  match s with
  | String c r =>
      if is_digit c then Some (digitpart_go (code c - 48) 1 r) else None
  | EmptyString => None
  end%N.

(** [exponent ::= ("e" | "E") [sign] digitpart], up to the end of the text. *)
Definition exponent_part (s : string) : option Z :=
  match s with
  | EmptyString => Some 0
  | String c r =>
      if Ascii.eqb (lower_char c) "e" then
        let '(neg, r1) :=
          match r with
          | String sg r' =>
              if Ascii.eqb sg "-" then (true, r')
              else if Ascii.eqb sg "+" then (false, r')
              else (false, r)
          | EmptyString => (false, r)
          end in
        match digitpart r1 with
        | Some (v, _, EmptyString) =>
            Some (if neg then - Z.of_N v else Z.of_N v)
        | _ => None
        end
      else None
  end.

(** [floatnumber]: the digits [d] and the power of ten [k] of [d * 10^k]. *)
Definition floatnumber (s : string) : option (N * Z) :=
  let '(ip, rest) :=
    match digitpart s with
    | Some (v, _, r) => (Some v, r)
    | None => (None, s)
    end in
  let finish (d : N) (k : Z) (r : string) :=
    match exponent_part r with
    | Some x => Some (d, k + x)
    | None => None
    end in
  match rest with
  | String c r1 =>
      if Ascii.eqb c "." then
        match digitpart r1, ip with
        | Some (fv, fc, r2), _ =>
            finish (default 0%N ip * 10 ^ fc + fv)%N (- Z.of_N fc) r2
        | None, Some v => finish v 0 r1
        | None, None => None
        end
      else match ip with
           | Some v => finish v 0 rest
           | None => None
           end
  | EmptyString =>
      match ip with
      | Some v => Some (v, 0)
      | None => None
      end
  end.

(** [float(s)]; [None] stands for the [ValueError]. *)
Definition parse_float (s : string) : option float64 :=
  let t := strip s in
  let '(neg, body) :=
    match t with
    | String sg r =>
        if Ascii.eqb sg "-" then (true, r)
        else if Ascii.eqb sg "+" then (false, r)
        else (false, t)
    | EmptyString => (false, t)
    end in
  let lb := lower body in
  if String.eqb lb "inf" || String.eqb lb "infinity" then Some (FInf neg)
  else if String.eqb lb "nan" then Some FNan
  else match floatnumber body with
       | Some (d, k) => Some (float_of_decimal neg d k)
       | None => None
       end.

Definition float_of_str (s : string) : result float64 :=
  match parse_float s with
  | Some f => Ok f
  | None => Raise ValueError
  end.

(** [int(x)] for a float: truncation towards zero. *)
Definition int_of_float (f : float64) : result Z :=
  match f with
  | FNan => Raise ValueError
  | FInf _ => Raise OverflowError
  | FFin neg m e =>
      let a := if 0 <=? e then Z.of_N m * 2 ^ e else Z.of_N m / 2 ^ (- e) in
      Ok (if neg then - a else a)
  end.

(** [int(float(s))] *)
Definition int_of_float_str (s : string) : result Z :=
  bind (float_of_str s) int_of_float.

(** ** Values met in a mapping document and in literals *)

Inductive pyval : Type :=
| PyNone
| PyBool (b : bool)
| PyInt (z : Z)
| PyFloat (f : float64)
| PyStr (s : string)
| PyObj (nonempty : bool).   (* a JSON array or object; only its truth is seen *)

Definition truthy (v : pyval) : bool :=
  match v with
  | PyNone => false
  | PyBool b => b
  | PyInt z => negb (z =? 0)
  | PyFloat (FFin _ m _) => negb (m =? 0)%N
  | PyFloat _ => true
  | PyStr s => negb (String.eqb s EmptyString)
  | PyObj b => b
  end.

(** [a or b] *)
Definition py_or (a b : pyval) : pyval := if truthy a then a else b.

End Py.

Import Py.

(* ===================================================================== *)
(** * The regular expressions of [utils.py] *)
(* ===================================================================== *)

(** Each pattern of the source is a matcher that returns the groups the
    code reads.  Greedy and lazy quantifiers are resolved as the backtracking
    matcher of [re] resolves them. *)

Module Re.

(** A greedy word group: the longest run of word characters and what
    follows it. *)
Fixpoint span_word (s : string) : string * string :=
  match s with
  | String c r =>
      if is_word c
      then let '(w, t) := span_word r in (String c w, t)
      else (EmptyString, s)
  | EmptyString => (EmptyString, EmptyString)
  end.

(** The rest of the [OP[...]] patterns after the opening bracket (any text,
    a closing bracket, white space, end; DOTALL): the greedy group runs to
    the last closing bracket, which only white space may follow. *)
Definition bracket_body (body : string) : option string :=
  let t := rstrip body in
  if endswith_char "]" t then Some (drop_last t) else None.

(** The unprefixed pattern of [parse_transform_expression]: a word, white
    space, a bracketed group, white space, end; matched at the start. *)
Definition op_bracket (s : string) : option (string * string) :=
  let '(w, r1) := span_word s in
  match w with
  | EmptyString => None
  | _ =>
      match lstrip r1 with
      | String c body =>
          if Ascii.eqb c "["
          then match bracket_body body with
               | Some g => Some (w, g)
               | None => None
               end
          else None
      | EmptyString => None
      end
  end.

(** The prefixed pattern: [trns:] in any case, white space, then as
    [op_bracket]. *)
Definition trns_op_bracket (s : string) : option (string * string) :=
  if startswith "trns:" (lower s)
  then op_bracket (lstrip (drop 5 s))
  else None.

(** The rest of the method pattern after the opening parenthesis (any text,
    a closing parenthesis, end; DOTALL): the end anchor is the end of the
    text or the place before a final newline. *)
Definition paren_body (body : string) : option string :=
  match unsnoc body with
  | Some (b1, l1) =>
      if Ascii.eqb l1 ")" then Some b1
      else if Ascii.eqb l1 "010" then
        match unsnoc b1 with
        | Some (b2, l2) => if Ascii.eqb l2 ")" then Some b2 else None
        | None => None
        end
      else None
  | None => None
  end.

(** The method pattern of [parse_method_call] and [parse_boolean_expr]: a
    word, white space, a parenthesised group, end; matched at the start. *)
Definition method_call (s : string) : option (string * string) :=
  let '(w, r1) := span_word s in
  match w with
  | EmptyString => None
  | _ =>
      match lstrip r1 with
      | String c body =>
          if Ascii.eqb c "("
          then match paren_body body with
               | Some g => Some (w, g)
               | None => None
               end
          else None
      | EmptyString => None
      end
  end.

(** The tail that closes a quoted argument: a quote character, white space,
    a closing parenthesis; [full] asks that nothing follows it (as
    [fullmatch] does). *)
Definition quote_close (full : bool) (s : string) : bool :=
  match s with
  | String q t =>
      is_quote q &&
      (if full then String.eqb (lstrip t) ")" else startswith ")" (lstrip t))
  | EmptyString => false
  end.

(** The lazy group followed by [quote_close]: the shortest non-empty group,
    which holds no newline. *)
Fixpoint lazy_group (full : bool) (s : string) : option string :=
  match s with
  | EmptyString => None
  | String c t =>
      if Ascii.eqb c "010" then None
      else if quote_close full t then Some (String c EmptyString)
      else match lazy_group full t with
           | Some g => Some (String c g)
           | None => None
           end
  end.

(** After a keyword: an opening parenthesis, white space, a quote character,
    the lazy group and its closing tail. *)
Definition quoted_call (full : bool) (s : string) : option string :=
  match s with
  | String c r =>
      if Ascii.eqb c "(" then
        match lstrip r with
        | String q t => if is_quote q then lazy_group full t else None
        | EmptyString => None
        end
      else None
  | EmptyString => None
  end.

(** The first pattern of [parse_attr] ([fullmatch], IGNORECASE): [attr],
    then a quoted call. *)
Definition attr_quoted (s : string) : option string :=
  if startswith "attr" (lower s) then quoted_call true (drop 4 s) else None.

(** The second pattern of [parse_attr] ([fullmatch], case-sensitive):
    [ATTR], an opening parenthesis, white space, a non-empty greedy group
    without closing parenthesis, white space, a closing parenthesis. *)
Definition attr_bare (s : string) : option string :=
  if startswith "ATTR(" s then
    match unsnoc (drop 5 s) with
    | Some (body, l) =>
        if Ascii.eqb l ")" && negb (has_char ")" body) then
          match lstrip body with
          | EmptyString =>
              match unsnoc body with
              | Some (_, w) => Some (String w EmptyString)
              | None => None
              end
          | g => Some g
          end
        else None
    | None => None
    end
  else None.

(** The patterns of [coerce_simple_transform] ([match], IGNORECASE): the
    keyword ([date_format] or [to_date]), white space, a quoted call. *)
Definition keyword_quoted (kw : string) (s : string) : option string :=
  if startswith kw (lower s)
  then quoted_call false (lstrip (drop (String.length kw) s))
  else None.

End Re.

(* ===================================================================== *)
(** * Backend expressions *)
(* ===================================================================== *)

Module Polars.

Local Set Warnings "-register-all".

Inductive binop : Type := Add | Sub | Mul | Div | Mod.
Inductive cmpop : Type := CEq | CNe | CGt | CLt | CGe | CLe.

(** The expression objects the code asks the backend to build.  [Method]
    records a request [self.name(args)] that the embedding does not
    interpret.  [ReprIsCol e a b] stands for the source's
    [a if str(e).startswith('col(') else b]: the test belongs to the backend
    and is left unresolved. *)
Inductive expr : Type :=
| Col (name : string)
| Lit (v : pyval)
| Today
| Arith (op : binop) (a b : expr)
| Cmp (op : cmpop) (a b : expr)
| EAnd (a b : expr)
| EOr (a b : expr)
| ENot (a : expr)
| When (c t f : expr)
| ConcatStr (parts : list expr)
| Method (name : string) (self : expr) (args : list expr)
| ReprIsCol (e a b : expr)
| Alias (e : expr) (name : string).

(** The integers the backend holds in a literal: those of 128 bits. *)
Definition fits_int128 (z : Z) : bool := (- 2 ^ 127 <=? z) && (z <? 2 ^ 127).

(** [e.dtype]: an expression of the backend has no such attribute (its type
    is known only once it is evaluated on a frame). *)
Definition dtype (e : expr) : result string := Raise AttributeError.

(** [pl.lit(v)]: the null, a boolean, a float and a text are held as they
    are; an integer is refused when it does not fit 128 bits; what the
    backend makes of a list or a dictionary is not covered. *)
Definition lit (v : pyval) : result expr :=
  match v with
  | PyInt z => if fits_int128 z then Ok (Lit v) else Raise InvalidOperationError
  | PyObj _ => Beyond
  | _ => Ok (Lit v)
  end.

End Polars.
Import Polars.

(* ===================================================================== *)
(** * [utils.py]: lexer, value parser, expression parser *)
(* ===================================================================== *)

Module Utils.

Notation "x <- e ;; k" := (bind e (fun x => k))
  (at level 100, e at next level, right associativity, only parsing).

Definition _DEFAULT_DATE_FMT : string := "%m%d%Y".

(** [is_number] *)
Definition is_number (s : string) : bool :=
  match parse_float s with Some _ => true | None => false end.

(** [token[1:-1]] when [token] has two characters or more and its first
    and last characters are the same quote character. *)
Definition quoted_inner (token : string) : option string :=
  match unsnoc token with
  | Some (String q inner, l) =>
      if Ascii.eqb q l && is_quote q then Some inner else None
  | _ => None
  end.

(** [try_parse_literal]: [Ok None] is the source's [return None]. *)
Definition try_parse_literal (token0 : string) : result (option expr) :=
  let token := strip token0 in
  match quoted_inner token with
  | Some inner => Ok (Some (Lit (PyStr inner)))
  | None =>
      if is_number token then
        if has_char "." token
        then f <- float_of_str token ;; Ok (Some (Lit (PyFloat f)))
        else z <- int_of_float_str token ;; l <- lit (PyInt z) ;; Ok (Some l)
      else if String.eqb (lower token) "true" then Ok (Some (Lit (PyBool true)))
      else if String.eqb (lower token) "false" then Ok (Some (Lit (PyBool false)))
      else Ok None
  end.

(** The conditional cast to text,
    [if not e.dtype == pl.Utf8: e = e.cast(pl.Utf8)]. *)
Definition as_text (e : expr) : result expr :=
  d <- dtype e ;;
  Ok (if String.eqb d "Utf8" then e else Method "cast(Utf8)" e []).

(** ** [split_args] *)

(** The state of the scan: the arguments produced so far (latest first),
    the characters of the current argument (latest first), the two depths,
    the open quote and the previous character of the input. *)
Record lexer : Type := Lexer {
  args : list string;
  cur : string;
  depth_paren : Z;
  depth_brack : Z;
  in_quote : option ascii;
  prev : option ascii
}.

Definition lexer_init : lexer :=
  Lexer [] EmptyString 0 0 None None.

(** [cur] is kept reversed; [flush] is the source's [join(cur).strip()]. *)
Definition flush (cur : string) : string := strip (String.rev cur).

(** One turn of the [while] loop on character [ch]. *)
Definition lex_step (st : lexer) (ch : ascii) : lexer :=
  let push := String ch (cur st) in
  match in_quote st with
  | Some q =>
      let closes :=
        Ascii.eqb ch q &&
        match prev st with
        | None => true
        | Some p => negb (Ascii.eqb p "\")
        end in
      Lexer (args st) push (depth_paren st) (depth_brack st)
            (if closes then None else Some q) (Some ch)
  | None =>
      if is_quote ch then
        Lexer (args st) push (depth_paren st) (depth_brack st) (Some ch) (Some ch)
      else if Ascii.eqb ch "(" then
        Lexer (args st) push (depth_paren st + 1) (depth_brack st) None (Some ch)
      else if Ascii.eqb ch ")" then
        Lexer (args st) push (depth_paren st - 1) (depth_brack st) None (Some ch)
      else if Ascii.eqb ch "[" then
        Lexer (args st) push (depth_paren st) (depth_brack st + 1) None (Some ch)
      else if Ascii.eqb ch "]" then
        Lexer (args st) push (depth_paren st) (depth_brack st - 1) None (Some ch)
      else if Ascii.eqb ch "," && (depth_paren st =? 0) && (depth_brack st =? 0) then
        Lexer (flush (cur st) :: args st) EmptyString
              (depth_paren st) (depth_brack st) None (Some ch)
      else
        Lexer (args st) push (depth_paren st) (depth_brack st) None (Some ch)
  end.

Fixpoint lex_run (st : lexer) (s : string) : lexer :=
  match s with
  | EmptyString => st
  | String ch r => lex_run (lex_step st ch) r
  end.

Definition split_args (arg_str : string) : list string :=
  let st := lex_run lexer_init arg_str in
  match cur st with
  | EmptyString => List.rev (args st)
  | c => List.rev (flush c :: args st)
  end.

(** ** [parse_attr] *)

Definition parse_attr (token : string) : option expr :=
  let t := strip token in
  match Re.attr_quoted t with
  | Some g => Some (Col (strip g))
  | None =>
      match Re.attr_bare t with
      | Some g => Some (Col (strip g))
      | None => None
      end
  end.

Definition parse_date_format (fmt : option string) : string :=
  match fmt with
  | Some (String c r) => String c r
  | _ => _DEFAULT_DATE_FMT
  end.

(** [parse_method_call]; the method name is upper-cased. *)
Definition parse_method_call (content : string) : result (string * list string) :=
  match Re.method_call (strip content) with
  | Some (m, args_str) => Ok (upper m, split_args args_str)
  | None => Raise ValueError
  end.

(** ** What the parsers return *)

(** [parse_transform_expression] returns a backend expression or, for the
    FILTER and FILTERS families, the tuple [(op, method, args)]. *)
Inductive parsed : Type :=
| PExpr (e : expr)
| PFilter (op method : string) (args : list string).

(** A parsed value on which the source calls a method: a tuple has none. *)
Definition receiver (p : parsed) : result expr :=
  match p with
  | PExpr e => Ok e
  | PFilter _ _ _ => Raise AttributeError
  end.

(** A parsed value handed to the backend as an operand or an argument: what
    the backend makes of a tuple is not covered. *)
Definition operand (p : parsed) : result expr :=
  match p with
  | PExpr e => Ok e
  | PFilter _ _ _ => Beyond
  end.

(** [l[i]] *)
Definition index {A} (l : list A) (i : nat) : result A :=
  match nth_error l i with
  | Some x => Ok x
  | None => Raise IndexError
  end.

(** [a, b = l] *)
Definition unpack2 {A} (l : list A) : result (A * A) :=
  match l with
  | [a; b] => Ok (a, b)
  | _ => Raise ValueError
  end.

(** ** The three mutually recursive parsers

    Each body takes the parsers it calls as arguments; the recursion is tied
    below with a budget that decreases at every call. *)

Section Bodies.

Variable parse_value : string -> result parsed.
Variable parse_transform_expression : string -> result parsed.
Variable parse_boolean_expr : string -> result expr.

(** [parse_value(a).m(parse_value(b))]: the receiver is checked before the
    argument is parsed. *)
Definition method_cmp (op : cmpop) (args : list string) : result expr :=
  ab <- unpack2 args ;;
  pa <- parse_value (fst ab) ;;
  l <- receiver pa ;;
  pb <- parse_value (snd ab) ;;
  r <- operand pb ;;
  Ok (Cmp op l r).

(** [parse_value(a) OP parse_value(b)] *)
Definition infix_cmp (op : cmpop) (args : list string) : result expr :=
  ab <- unpack2 args ;;
  pa <- parse_value (fst ab) ;;
  pb <- parse_value (snd ab) ;;
  l <- operand pa ;;
  r <- operand pb ;;
  Ok (Cmp op l r).

(** [pl.when(cond).then(tv).otherwise(fv)] from the first three arguments. *)
Definition when_of (args : list string) : result expr :=
  a0 <- index args 0 ;;
  cond <- parse_boolean_expr a0 ;;
  a1 <- index args 1 ;;
  pt <- parse_value a1 ;;
  a2 <- index args 2 ;;
  pf <- parse_value a2 ;;
  tv <- operand pt ;;
  fv <- operand pf ;;
  Ok (When cond tv fv).

(** The operators of the infix form, in the order the source scans them. *)
Definition infix_ops : list (string * cmpop) :=
  [("==", CEq); ("!=", CNe); (">=", CGe); ("<=", CLe); (">", CGt); ("<", CLt)].

Fixpoint infix_scan (ops : list (string * cmpop)) (e : string) : result expr :=
  match ops with
  | [] => Raise ValueError
  | (op, c) :: rest =>
      match split_first op e with
      | Some (lhs, rhs) =>
          pl <- parse_value (strip lhs) ;;
          pr <- parse_value (strip rhs) ;;
          match c with
          | CEq | CNe =>
              l <- receiver pl ;; r <- operand pr ;; Ok (Cmp c l r)
          | _ =>
              l <- operand pl ;; r <- operand pr ;; Ok (Cmp c l r)
          end
      | None => infix_scan rest e
      end
  end.

Definition parse_boolean_expr_body (expr0 : string) : result expr :=
  let e := strip expr0 in
  if startswith "BOOLEAN[" e && endswith_char "]" e then
    let inner := strip (drop_last (drop 8 e)) in
    match Re.method_call inner with
    | None => Raise ValueError
    | Some (m, args_str) =>
        let method := upper m in
        let args := split_args args_str in
        if String.eqb method "EQUALS" then method_cmp CEq args
        else if String.eqb method "EQ" then method_cmp CEq args
        else if String.eqb method "NOT_EQUALS" then method_cmp CNe args
        else if String.eqb method "GREATER_THAN" then infix_cmp CGt args
        else if String.eqb method "GT" then infix_cmp CGt args
        else if String.eqb method "LESS_THAN" then infix_cmp CLt args
        else if String.eqb method "GREATER_OR_EQUAL" then infix_cmp CGe args
        else if String.eqb method "LESS_OR_EQUAL" then infix_cmp CLe args
        else Raise ValueError
    end
  else if startswith "IF(" e && endswith_char ")" e then
    let args := split_args (strip (drop_last (drop 3 e))) in
    if (3 <=? List.length args)%nat then when_of args else Raise ValueError
  else if startswith "EQ(" e || startswith "GT(" e || startswith "LT(" e
          || startswith "GTE(" e || startswith "LTE(" e || startswith "NE(" e then
    match Re.method_call (strip e) with
    | Some (m, args_str) =>
        let method := upper m in
        let args := split_args args_str in
        if String.eqb method "EQ" then method_cmp CEq args
        else if String.eqb method "GT" then infix_cmp CGt args
        else if String.eqb method "LT" then infix_cmp CLt args
        else if String.eqb method "GTE" then infix_cmp CGe args
        else if String.eqb method "LTE" then infix_cmp CLe args
        else if String.eqb method "NE" then method_cmp CNe args
        else Raise ValueError
    | None => Raise ValueError
    end
  else infix_scan infix_ops e.

Definition parse_value_body (token0 : string) : result parsed :=
  let token := strip token0 in
  if startswith "trns:" token then parse_transform_expression token
  else
    match parse_attr token with
    | Some c => Ok (PExpr c)
    | None =>
        if String.eqb (lower token) "true" then Ok (PExpr (Lit (PyBool true)))
        else if String.eqb (lower token) "false" then Ok (PExpr (Lit (PyBool false)))
        else
          lit <- try_parse_literal token ;;
          match lit with
          | Some l => Ok (PExpr l)
          | None => Ok (PExpr (Col token))
          end
    end.

(** [parse_value(args[i])] *)
Definition value_at (args : list string) (i : nat) : result parsed :=
  a <- index args i ;; parse_value a.

(** [args[i].strip().strip(q)] for the two quote characters. *)
Definition unquoted_at (args : list string) (i : nat) : result string :=
  a <- index args i ;; Ok (strip_quotes (strip a)).

Definition math (method : string) (args : list string) : result parsed :=
  a <- value_at args 0 ;;
  let arith (op : binop) :=
    b <- value_at args 1 ;;
    x <- operand a ;; y <- operand b ;; Ok (PExpr (Arith op x y)) in
  if String.eqb method "ADD" then arith Add
  else if String.eqb method "SUB" then arith Sub
  else if String.eqb method "MUL" then arith Mul
  else if String.eqb method "DIV" then arith Div
  else if String.eqb method "MOD" then arith Mod
  else if String.eqb method "ROUND" then
    a1 <- index args 1 ;;
    prec <- int_of_float_str (strip a1) ;;
    x <- receiver a ;;
    (* the number of decimals is an unsigned integer of 32 bits for the
       backend; what it does with another one is not covered *)
    if (0 <=? prec) && (prec <? 2 ^ 32)
    then Ok (PExpr (Method "round" x [Lit (PyInt prec)]))
    else Beyond
  else if String.eqb method "ABS" then
    x <- receiver a ;; Ok (PExpr (Method "abs" x []))
  else Raise ValueError.

(** [base = parse_value(args[0])] followed by the conditional cast to text. *)
Definition text_base (args : list string) : result expr :=
  a <- value_at args 0 ;;
  x <- receiver a ;;
  as_text x.

Definition str_method (name : string) (args : list string) : result parsed :=
  b <- text_base args ;; Ok (PExpr (Method name b [])).

Definition string_family (method : string) (args : list string) : result parsed :=
  if String.eqb method "CONCAT" then
    ps <- mapM parse_value args ;;
    parts <- mapM operand ps ;;
    Ok (PExpr (ConcatStr parts))
  else if String.eqb method "SUBSTR" then
    b <- text_base args ;;
    ps <- value_at args 1 ;;
    if (2 <? List.length args)%nat then
      pl <- value_at args 2 ;;
      start <- operand ps ;; len <- operand pl ;;
      Ok (PExpr (Method "str.slice" b [start; len]))
    else
      start <- operand ps ;;
      Ok (PExpr (Method "str.slice" b [start]))
  else if String.eqb method "REPLACE" then
    b <- text_base args ;;
    pf <- value_at args 1 ;;
    pr <- value_at args 2 ;;
    find <- operand pf ;; repl <- operand pr ;;
    Ok (PExpr (Method "str.replace_all" b [find; repl]))
  else if String.eqb method "UPPER" then str_method "str.to_uppercase" args
  else if String.eqb method "LOWER" then str_method "str.to_lowercase" args
  else if String.eqb method "TRIM" then str_method "str.strip_chars" args
  else if String.eqb method "LENGTH" then str_method "str.len_chars" args
  else Raise ValueError.

(** [out = exps[0]; for e in exps[1:]: out = out OP e] *)
Definition fold_bool (op : expr -> expr -> expr) (args : list string) : result parsed :=
  exps <- mapM parse_boolean_expr args ;;
  match exps with
  | [] => Raise IndexError
  | e0 :: rest => Ok (PExpr (fold_left op rest e0))
  end.

Definition logical (method : string) (args : list string) : result parsed :=
  if String.eqb method "IF" then
    w <- when_of args ;; Ok (PExpr w)
  else if String.eqb method "AND" then fold_bool EAnd args
  else if String.eqb method "OR" then fold_bool EOr args
  else if String.eqb method "NOT" then
    a0 <- index args 0 ;;
    c <- parse_boolean_expr a0 ;;
    Ok (PExpr (ENot c))
  else Raise ValueError.

(** [int(float(str(args[i])))] *)
Definition int_at (args : list string) (i : nat) : result Z :=
  a <- index args i ;; int_of_float_str a.

Definition strptime (ty : string) (e : expr) (fmt : string) : expr :=
  Method ("str.strptime(" +:+ ty +:+ ",strict=False)") e [Lit (PyStr fmt)].

Definition strftime (e : expr) (fmt : string) : expr :=
  Method "dt.strftime" e [Lit (PyStr fmt)].

Definition total_days (e : expr) : expr := Method "dt.total_days" e [].

Definition date (method : string) (args : list string) : result parsed :=
  if String.eqb method "FORMAT" then
    base <- value_at args 0 ;;
    fmt <- unquoted_at args 1 ;;
    match base with
    | PExpr e =>
        Ok (PExpr (ReprIsCol e (strftime (strptime "Datetime" e fmt) fmt)
                             (strftime e fmt)))
    | PFilter _ _ _ => Ok base
    end
  else if String.eqb method "PARSE" then
    a <- value_at args 0 ;;
    x <- receiver a ;;
    f <- (if (1 <? List.length args)%nat
          then u <- unquoted_at args 1 ;; Ok (Some u) else Ok None) ;;
    Ok (PExpr (strptime "Date" (Method "cast(Utf8)" x []) (parse_date_format f)))
  else if String.eqb method "ADD_DAYS" then
    base <- value_at args 0 ;;
    n <- int_at args 1 ;;
    x <- receiver base ;;
    Ok (PExpr (Method "dt.offset_by" x [Lit (PyStr (pretty n +:+ "d"))]))
  else if String.eqb method "SUB_DAYS" then
    base <- value_at args 0 ;;
    n <- int_at args 1 ;;
    x <- receiver base ;;
    Ok (PExpr (Method "dt.offset_by" x [Lit (PyStr ("-" +:+ pretty n +:+ "d"))]))
  else if String.eqb method "DIFF_DAYS" then
    d1 <- value_at args 0 ;;
    d2 <- value_at args 1 ;;
    x <- operand d1 ;; y <- operand d2 ;;
    Ok (PExpr (total_days (Arith Sub x y)))
  else if String.eqb method "DIFF" then
    d1 <- value_at args 0 ;;
    d2 <- value_at args 1 ;;
    unit <- (if (2 <? List.length args)%nat
             then unquoted_at args 2 else Ok "days") ;;
    if String.eqb (lower unit) "days" then
      x <- operand d1 ;; y <- operand d2 ;;
      let parsed_diff :=
        total_days (Arith Sub (strptime "Datetime" x "%Y-%m-%d")
                              (strptime "Datetime" y "%Y-%m-%d")) in
      let plain_diff := total_days (Arith Sub x y) in
      Ok (PExpr (ReprIsCol x (ReprIsCol y parsed_diff plain_diff) plain_diff))
    else Raise ValueError
  else if String.eqb method "CURRENT_DATE" then Ok (PExpr Today)
  else if String.eqb method "EXTRACT" then
    base <- value_at args 0 ;;
    u <- unquoted_at args 1 ;;
    let part := lower u in
    if String.eqb part "year" then
      x <- receiver base ;; Ok (PExpr (Method "dt.year" x []))
    else if String.eqb part "month" then
      x <- receiver base ;; Ok (PExpr (Method "dt.month" x []))
    else if String.eqb part "day" then
      x <- receiver base ;; Ok (PExpr (Method "dt.day" x []))
    else Raise ValueError
  else Raise ValueError.

Definition arr_method (name : string) (args : list string) : result parsed :=
  a <- value_at args 0 ;;
  x <- receiver a ;;
  Ok (PExpr (Method name x [])).

(** [parse_value(args[0]).arr.lengths()]: whether the [arr] namespace has a
    method [lengths] depends on the version of the backend. *)
Definition arr_lengths (args : list string) : result parsed :=
  a <- value_at args 0 ;;
  _ <- receiver a ;;
  Beyond.

Definition array (method : string) (args : list string) : result parsed :=
  if String.eqb method "JOIN" then
    base <- value_at args 0 ;;
    _ <- unquoted_at args 1 ;;
    Ok base
  else if String.eqb method "SPLIT" then
    a <- value_at args 0 ;;
    x <- receiver a ;;
    delim <- unquoted_at args 1 ;;
    Ok (PExpr (Method "str.split" (Method "cast(Utf8)" x []) [Lit (PyStr delim)]))
  else if String.eqb method "LENGTH" then arr_lengths args
  else if String.eqb method "GET" then
    a <- value_at args 0 ;;
    x <- receiver a ;;
    b <- value_at args 1 ;;
    i <- operand b ;;
    Ok (PExpr (Method "arr.get" x [i]))
  else Raise ValueError.

Definition aggregation (method : string) (args : list string) : result parsed :=
  if String.eqb method "SUM" then arr_method "arr.sum" args
  else if String.eqb method "AVG" then arr_method "arr.mean" args
  else if String.eqb method "MIN" then arr_method "arr.min" args
  else if String.eqb method "MAX" then arr_method "arr.max" args
  else if String.eqb method "COUNT" then arr_lengths args
  else Raise ValueError.

(** The dispatch on the operation family, after [op], [method] and [args]
    have been read. *)
Definition dispatch (op method : string) (args : list string) : result parsed :=
  if String.eqb op "MATH" then math method args
  else if String.eqb op "STRING" then string_family method args
  else if String.eqb op "LOGICAL" then logical method args
  else if String.eqb op "BOOLEAN" then
    e <- parse_boolean_expr
           ("BOOLEAN[" +:+ method +:+ "(" +:+ join ", " args +:+ ")]") ;;
    Ok (PExpr e)
  else if String.eqb op "FILTERS" then Ok (PFilter "FILTERS" method args)
  else if String.eqb op "FILTER" then Ok (PFilter "FILTER" method args)
  else if String.eqb op "DIRECT" then
    if String.eqb method "ATTR" then value_at args 0 else Raise ValueError
  else if String.eqb op "DATE" then date method args
  else if String.eqb op "ARRAY" then array method args
  else if String.eqb op "AGGREGATION" then aggregation method args
  else Raise ValueError.

(** The two patterns of [parse_transform_expression]: [(op, inner)] as the
    groups are read, before [upper] and [strip]. *)
Definition match_transform (e : string) : option (string * string) :=
  if startswith "trns:" (lower e) then Re.trns_op_bracket e else Re.op_bracket e.

Definition parse_transform_expression_body (expr0 : string) : result parsed :=
  let e := strip expr0 in
  match match_transform e with
  | None => Raise ValueError
  | Some (op, inner) =>
      ma <- parse_method_call (strip inner) ;;
      dispatch (upper op) (fst ma) (snd ma)
  end.

End Bodies.

(** The recursion, with its budget. *)
Fixpoint parse_value_fuel (n : nat) (token : string) : result parsed :=
  match n with
  | O => NoFuel
  | S n => parse_value_body (parse_transform_expression_fuel n) token
  end
with parse_transform_expression_fuel (n : nat) (e : string) : result parsed :=
  match n with
  | O => NoFuel
  | S n =>
      parse_transform_expression_body
        (parse_value_fuel n) (parse_boolean_expr_fuel n) e
  end
with parse_boolean_expr_fuel (n : nat) (e : string) : result expr :=
  match n with
  | O => NoFuel
  | S n => parse_boolean_expr_body (parse_value_fuel n) (parse_boolean_expr_fuel n) e
  end.

(** The entry points.  The budget is more than the depth the text can
    need ([parse_total] below). *)
Definition budget (s : string) : nat := 3 * String.length s.

Definition parse_value (token : string) : result parsed :=
  parse_value_fuel (budget token + 3) token.

Definition parse_transform_expression (e : string) : result parsed :=
  parse_transform_expression_fuel (budget e + 2) e.

Definition parse_boolean_expr (e : string) : result expr :=
  parse_boolean_expr_fuel (budget e + 1) e.

End Utils.
Import Utils.

(* ===================================================================== *)
(** * The columnar backend: frames and the evaluation of expressions *)
(* ===================================================================== *)

(** The fragment of the backend the executor is checked against.  A frame
    is a list of named columns of equal length.  Cells are null, booleans,
    integers, floats, text, or values of another type that the embedding
    only moves around ([COther]).  Evaluation covers column references,
    literals, comparisons of cells of one type, the Kleene connectives and
    aliases; every other expression is [Beyond].

    Backend behaviour relied on: a comparison with a null operand is null;
    [~], [&] and [|] follow Kleene logic; [filter] keeps the rows on which
    the predicate is true and drops those on which it is false or null;
    [head(n)] keeps the first [n] rows and, for a negative [n], all but the
    last [-n], and refuses an [n] of [2^64] or more; [slice(n)] drops the
    first [n] rows and, for a negative [n], keeps the last [-n], and refuses
    an [n] outside 64 signed bits; [pl.lit] refuses an integer outside 128
    signed bits; an expression has no attribute [dtype]; [select] names
    each column by its alias, rejects duplicate names, and broadcasts
    literals to the height of the other columns (a selection of literals
    only has one row). *)

Module Frame.

Inductive cell : Type :=
| CNull
| CBool (b : bool)
| CInt (z : Z)
| CFloat (f : float64)
| CStr (s : string)
| COther (tag : N).

Definition DataFrame : Type := list (string * list cell).

Definition columns (df : DataFrame) : list string := map fst df.

Definition height (df : DataFrame) : nat :=
  match df with
  | [] => O
  | (_, c) :: _ => List.length c
  end.

Definition get_column (df : DataFrame) (name : string) : option (list cell) :=
  match List.find (fun nc => String.eqb (fst nc) name) df with
  | Some (_, c) => Some c
  | None => None
  end.

(** The value of an expression: a scalar (from a literal) or a series. *)
Inductive column : Type :=
| Scalar (c : cell)
| Series (cs : list cell).

Definition cell_of_lit (v : pyval) : result cell :=
  match v with
  | PyNone => Ok CNull
  | PyBool b => Ok (CBool b)
  | PyInt z => Ok (CInt z)
  | PyFloat f => Ok (CFloat f)
  | PyStr s => Ok (CStr s)
  | PyObj _ => Beyond
  end.

Definition decide_cmp (op : cmpop) (c : comparison) : bool :=
  match op, c with
  | CEq, Eq => true
  | CNe, (Lt | Gt) => true
  | CGt, Gt => true
  | CLt, Lt => true
  | CGe, (Gt | Eq) => true
  | CLe, (Lt | Eq) => true
  | _, _ => false
  end.

Definition cmp_cell (op : cmpop) (x y : cell) : result cell :=
  match x, y with
  | CNull, _ | _, CNull => Ok CNull
  | CInt a, CInt b => Ok (CBool (decide_cmp op (a ?= b)))
  | CStr a, CStr b => Ok (CBool (decide_cmp op (String.compare a b)))
  | CBool a, CBool b => Ok (CBool (decide_cmp op (Bool.compare a b)))
  | _, _ => Beyond
  end.

Definition not_cell (x : cell) : result cell :=
  match x with
  | CNull => Ok CNull
  | CBool b => Ok (CBool (negb b))
  | _ => Beyond
  end.

Definition and_cell (x y : cell) : result cell :=
  match x, y with
  | CBool false, (CBool _ | CNull) | CNull, CBool false => Ok (CBool false)
  | CBool true, CBool b => Ok (CBool b)
  | CBool true, CNull | CNull, (CBool true | CNull) => Ok CNull
  | _, _ => Beyond
  end.

Definition or_cell (x y : cell) : result cell :=
  match x, y with
  | CBool true, (CBool _ | CNull) | CNull, CBool true => Ok (CBool true)
  | CBool false, CBool b => Ok (CBool b)
  | CBool false, CNull | CNull, (CBool false | CNull) => Ok CNull
  | _, _ => Beyond
  end.

Fixpoint zipM (f : cell -> cell -> result cell) (xs ys : list cell)
  : result (list cell) :=
  match xs, ys with
  | [], [] => Ok []
  | x :: xs, y :: ys =>
      bind (f x y) (fun z => bind (zipM f xs ys) (fun zs => Ok (z :: zs)))
  | _, _ => Raise ShapeError
  end.

(** An elementwise binary operation, a scalar being broadcast. *)
Definition lift2 (f : cell -> cell -> result cell) (a b : column) : result column :=
  match a, b with
  | Scalar x, Scalar y => bind (f x y) (fun z => Ok (Scalar z))
  | Scalar x, Series ys => bind (mapM (f x) ys) (fun zs => Ok (Series zs))
  | Series xs, Scalar y => bind (mapM (fun x => f x y) xs) (fun zs => Ok (Series zs))
  | Series xs, Series ys => bind (zipM f xs ys) (fun zs => Ok (Series zs))
  end.

Definition lift1 (f : cell -> result cell) (a : column) : result column :=
  match a with
  | Scalar x => bind (f x) (fun z => Ok (Scalar z))
  | Series xs => bind (mapM f xs) (fun zs => Ok (Series zs))
  end.

Fixpoint eval (df : DataFrame) (e : expr) : result column :=
  match e with
  | Col name =>
      match get_column df name with
      | Some cs => Ok (Series cs)
      | None => Raise ColumnNotFoundError
      end
  | Lit v => bind (cell_of_lit v) (fun c => Ok (Scalar c))
  | Cmp op a b =>
      bind (eval df a) (fun x => bind (eval df b) (fun y => lift2 (cmp_cell op) x y))
  | EAnd a b =>
      bind (eval df a) (fun x => bind (eval df b) (fun y => lift2 and_cell x y))
  | EOr a b =>
      bind (eval df a) (fun x => bind (eval df b) (fun y => lift2 or_cell x y))
  | ENot a => bind (eval df a) (lift1 not_cell)
  | Alias a _ => eval df a
  | _ => Beyond
  end.

(** The rows a predicate keeps: one flag per row of the frame. *)
Definition is_true (c : cell) : result bool :=
  match c with
  | CBool b => Ok b
  | CNull => Ok false
  | _ => Beyond
  end.

Definition mask (df : DataFrame) (pred : expr) : result (list bool) :=
  bind (eval df pred) (fun c =>
    match c with
    | Scalar x => bind (is_true x) (fun b => Ok (repeat b (height df)))
    | Series xs =>
        if (List.length xs =? height df)%nat then mapM is_true xs
        else Raise ShapeError
    end).

Fixpoint keep {A} (m : list bool) (l : list A) : list A :=
  match m, l with
  | b :: m, x :: l => if b then x :: keep m l else keep m l
  | _, _ => []
  end.

Definition map_rows (f : list cell -> list cell) (df : DataFrame) : DataFrame :=
  map (fun nc => (fst nc, f (snd nc))) df.

(** [df.filter(pred)] *)
Definition filter (df : DataFrame) (pred : expr) : result DataFrame :=
  bind (mask df pred) (fun m => Ok (map_rows (keep m) df)).

(** [df.head(n)]: the number of rows is handed to the backend as an
    unsigned integer of 64 bits, a negative [n] being resolved before. *)
Definition head (df : DataFrame) (n : Z) : result DataFrame :=
  if 2 ^ 64 <=? n then Raise OverflowError
  else
    let k := if 0 <=? n then Z.to_nat n else (height df - Z.to_nat (- n))%nat in
    Ok (map_rows (firstn k) df).

(** [df.slice(n)]: the offset is handed to the backend as a signed integer
    of 64 bits. *)
Definition slice (df : DataFrame) (n : Z) : result DataFrame :=
  if (n <? - 2 ^ 63) || (2 ^ 63 <=? n) then Raise OverflowError
  else
    let k := if 0 <=? n then Z.to_nat n else (height df - Z.to_nat (- n))%nat in
    Ok (map_rows (skipn k) df).

(** The name of an output column. *)
Definition output_name (e : expr) : result string :=
  match e with
  | Alias _ n => Ok n
  | Col n => Ok n
  | Lit _ => Ok "literal"
  | _ => Beyond
  end.

Definition series_length (c : column) : option nat :=
  match c with
  | Scalar _ => None
  | Series cs => Some (List.length cs)
  end.

(** The height of a selection: one row when every column is a scalar,
    otherwise the common length of the series. *)
Fixpoint common_height (cs : list column) : result (option nat) :=
  match cs with
  | [] => Ok None
  | c :: rest =>
      bind (common_height rest) (fun h =>
        match series_length c, h with
        | None, _ => Ok h
        | Some n, None => Ok (Some n)
        | Some n, Some m => if (n =? m)%nat then Ok h else Raise ShapeError
        end)
  end.

Definition broadcast (h : nat) (c : column) : list cell :=
  match c with
  | Scalar x => repeat x h
  | Series cs => cs
  end.

Fixpoint has_dup (l : list string) : bool :=
  match l with
  | [] => false
  | x :: r => existsb (String.eqb x) r || has_dup r
  end.

(** [df.select(exprs)] *)
Definition select (df : DataFrame) (exprs : list expr) : result DataFrame :=
  bind (mapM output_name exprs) (fun names =>
  bind (mapM (eval df) exprs) (fun cols =>
  if has_dup names then Raise DuplicateError else
  bind (common_height cols) (fun h =>
  Ok (combine names (map (broadcast (default 1%nat h)) cols))))).

End Frame.
Import Frame.

(* ===================================================================== *)
(** * [utils.py]: the simple-transform vocabulary *)
(* ===================================================================== *)

Module Simple.

(** The families [coerce_simple_transform] recognises without the prefix. *)
Definition unprefixed_families : list string :=
  ["MATH["; "STRING["; "LOGICAL["; "BOOLEAN["; "FILTER["; "DATE["; "ARRAY[";
   "DIRECT["].

Definition cast (ty : string) (e : expr) : expr :=
  Method ("cast(" +:+ ty +:+ ",strict=False)") e [].


Definition coerce_simple_transform (transform : string) (source_expr : expr)
  : result parsed :=
  let t := strip transform in
  if startswith "trns:" (lower t) then parse_transform_expression t
  else if existsb (fun p => startswith p t) unprefixed_families
  then parse_transform_expression t
  else if String.eqb t "to_int" then Ok (PExpr (cast "Int64" source_expr))
  else if String.eqb t "to_float" then Ok (PExpr (cast "Float64" source_expr))
  else if String.eqb t "to_str" then
    d <- dtype source_expr ;;
    Ok (PExpr (if String.eqb d "Utf8" then source_expr else cast "Utf8" source_expr))
  else if String.eqb t "to_bool" then
    s <- as_text source_expr ;;
    Ok (PExpr (Method "cast(Boolean)"
                 (Method "is_in" (Method "str.to_lowercase" s [])
                    [Lit (PyStr "1"); Lit (PyStr "true"); Lit (PyStr "y");
                     Lit (PyStr "yes")]) []))
  else if String.eqb t "trim" then
    s <- as_text source_expr ;; Ok (PExpr (Method "str.strip_chars" s []))
  else if String.eqb t "upper" then
    s <- as_text source_expr ;; Ok (PExpr (Method "str.to_uppercase" s []))
  else if String.eqb t "lower" then
    s <- as_text source_expr ;; Ok (PExpr (Method "str.to_lowercase" s []))
  else
    match Re.keyword_quoted "date_format" t with
    | Some fmt => Ok (PExpr (strftime source_expr fmt))
    | None =>
        match Re.keyword_quoted "to_date" t with
        | Some fmt =>
            Ok (PExpr (strptime "Date" (Method "cast(Utf8)" source_expr []) fmt))
        | None => Raise ValueError
        end
    end.

End Simple.
Import Simple.

(* ===================================================================== *)
(** * [transformer.py]: mapping compiler and pipeline executor *)
(* ===================================================================== *)

Module Transformer.

(** A mapping record is the dictionary read from the mapping document. *)
Abbreviation mapping := (gmap string pyval).

(** [m.get(k)] and [m.get(k, d)] *)
Definition get (m : mapping) (k : string) : pyval := default PyNone (m !! k).
Definition get_or (m : mapping) (k : string) (d : pyval) : pyval := default d (m !! k).

Definition is_none (v : pyval) : bool :=
  match v with PyNone => true | _ => false end.

(** The source expression, or the early [return pl.lit(default)]. *)
Inductive bound : Type :=
| Return (e : expr)
| Source (e : expr).

Definition bind_source (df : DataFrame) (source transform dflt : pyval)
  : result bound :=
  match source with
  | PyNone =>
      if negb (is_none dflt) && is_none transform
      then bind (lit dflt) (fun e => Ok (Return e))
      else bind (lit PyNone) (fun e => Ok (Source e))
  | PyStr s =>
      let source_columns := map strip (split_comma s) in
      let missing_columns :=
        List.filter (fun c => negb (existsb (String.eqb c) (columns df)))
                    source_columns in
      match missing_columns with
      | _ :: _ =>
          if negb (is_none dflt) then bind (lit dflt) (fun e => Ok (Source e))
          else Raise MappingError
      | [] => Ok (Source (Col (List.hd EmptyString source_columns)))
      end
  | _ => Raise AttributeError
  end.

(** A FILTER or FILTERS tuple is the source's [return None]. *)
Definition drop_filter (p : parsed) : option expr :=
  match p with
  | PExpr e => Some e
  | PFilter _ _ _ => None
  end.

Definition apply_transform (transform : pyval) (src_expr : expr)
  : result (option expr) :=
  reraise TransformError
    match transform with
    | PyStr t =>
        if startswith "trns:" (lower (strip t))
        then bind (parse_transform_expression t) (fun p => Ok (drop_filter p))
        else bind (coerce_simple_transform t src_expr) (fun p => Ok (drop_filter p))
    | _ => Raise AttributeError
    end.

Definition _build_expr_for_mapping (df : DataFrame) (m : mapping)
  : result (option expr) :=
  let source := py_or (get m "source") (get m "affected_source") in
  let transform := py_or (get m "transform") (get m "trns") in
  let dflt := get m "default" in
  bind (bind_source df source transform dflt) (fun b =>
    match b with
    | Return e => Ok (Some e)
    | Source src_expr =>
        if truthy transform then apply_transform transform src_expr
        else if is_none source && is_none dflt then Raise MappingError
        else Ok (Some src_expr)
    end).

(** [str(v)] *)
Definition py_str (v : pyval) : result string :=
  match v with
  | PyStr s => Ok s
  | PyNone => Ok "None"
  | PyBool true => Ok "True"
  | PyBool false => Ok "False"
  | PyInt z => Ok (pretty z)
  | PyFloat _ | PyObj _ => Beyond
  end.

Definition filter_action (df : DataFrame) (method : string) (args : list string)
  : result DataFrame :=
  if String.eqb method "INCLUDE_IF" then
    bind (index args 0) (fun a => bind (parse_boolean_expr a) (fun cond =>
      Frame.filter df cond))
  else if String.eqb method "EXCLUDE_IF" then
    bind (index args 0) (fun a => bind (parse_boolean_expr a) (fun cond =>
      Frame.filter df (ENot cond)))
  else if String.eqb method "LIMIT" then
    bind (index args 0) (fun a => bind (int_of_float_str a) (fun n =>
      Frame.head df n))
  else if String.eqb method "OFFSET" then
    bind (index args 0) (fun a => bind (int_of_float_str a) (fun n =>
      Frame.slice df n))
  else if String.eqb method "INCLUDE" then
    bind (index args 0) (fun a => bind (parse_boolean_expr a) (fun cond =>
      Frame.filter df cond))
  else Raise TransformError.

Definition _apply_filter (df : DataFrame) (m : mapping) : result DataFrame :=
  bind (py_str (get_or m "trns" (get_or m "transform" (PyStr EmptyString))))
    (fun text =>
  let transform := strip text in
  reraise TransformError
    (bind (parse_transform_expression transform) (fun p =>
       match p with
       | PFilter _ method args => filter_action df (upper method) args
       | PExpr _ => Ok df
       end))).

(** The test of the executor's filter loop on one mapping. *)
Definition filter_gate (m : mapping) : result bool :=
  match get_or m "trns" (PyStr EmptyString) with
  | PyStr t => Ok (startswith "FILTER[" t || startswith "FILTERS[" t)
  | _ => Raise AttributeError
  end.

(** The loop [for mp in mappings: if ...: df2 = _apply_filter(df2, mp)]. *)
Fixpoint filter_phase (df2 : DataFrame) (mappings : list mapping)
  : result DataFrame :=
  match mappings with
  | [] => Ok df2
  | mp :: rest =>
      bind (filter_gate mp) (fun g =>
      bind (if g then _apply_filter df2 mp else Ok df2) (fun df3 =>
      filter_phase df3 rest))
  end.

(** [expr.alias(mp.get('affected_target', mp.get('target', 'no_target')))] *)
Definition alias_name (m : mapping) : pyval :=
  get_or m "affected_target" (get_or m "target" (PyStr "no_target")).

Definition aliased (e : expr) (m : mapping) : result expr :=
  match alias_name m with
  | PyStr n => Ok (Alias e n)
  | _ => Raise TypeError
  end.

(** The loop that builds [select_exprs]. *)
Fixpoint build_select (df : DataFrame) (mappings : list mapping)
  : result (list expr) :=
  match mappings with
  | [] => Ok []
  | mp :: rest =>
      bind (_build_expr_for_mapping df mp) (fun oe =>
      match oe with
      | None => build_select df rest
      | Some e =>
          bind (aliased e mp) (fun a =>
          bind (build_select df rest) (fun es => Ok (a :: es)))
      end)
  end.

Definition apply_transformations (df : DataFrame) (mappings : list mapping)
  : result DataFrame :=
  match mappings with
  | [] => Raise TransformError
  | _ =>
      bind (build_select df mappings) (fun select_exprs =>
      reraise TransformError
        (bind (filter_phase df mappings) (fun df2 =>
           Frame.select df2 select_exprs)))
  end.

End Transformer.
Import Transformer.

(* ===================================================================== *)
(** * The specification's reading of the lexer, the value parser and the
      filter phase *)
(* ===================================================================== *)

(** The definitions of this module follow the words of the specification;
    they are what the code is compared with. *)

Module Spec.

(** ** The lexer of section 4.1

    The argument string is read from left to right with three counters: the
    depth of parentheses, the depth of brackets, and the quote character
    that is open, if any. *)
Record counters : Type := Counters {
  parens : Z;
  brackets : Z;
  quote : option ascii
}.

(** The counters before the first character. *)
Definition outside : counters := Counters 0 0 None.

(** Both depths are zero and no quote is open. *)
Definition top_level (k : counters) : bool :=
  match quote k with
  | None => (parens k =? 0) && (brackets k =? 0)
  | Some _ => false
  end.

(** A backslash stands before the character. *)
Definition escaped (before : option ascii) : bool :=
  match before with
  | Some p => Ascii.eqb p "\"
  | None => false
  end.

(** The counters after the character [ch], which [before] precedes.  Inside
    a quote only the character that opened it closes it, and not when it is
    escaped; outside, a quote character opens a quote, and parentheses and
    brackets move their depth. *)
Definition after (k : counters) (before : option ascii) (ch : ascii) : counters :=
  match quote k with
  | Some q =>
      if Ascii.eqb ch q && negb (escaped before)
      then Counters (parens k) (brackets k) None
      else k
  | None =>
      if is_quote ch then Counters (parens k) (brackets k) (Some ch)
      else if Ascii.eqb ch "(" then Counters (parens k + 1) (brackets k) None
      else if Ascii.eqb ch ")" then Counters (parens k - 1) (brackets k) None
      else if Ascii.eqb ch "[" then Counters (parens k) (brackets k + 1) None
      else if Ascii.eqb ch "]" then Counters (parens k) (brackets k - 1) None
      else k
  end.

(** The counters after the text [s]. *)
Fixpoint after_text (k : counters) (before : option ascii) (s : string)
  : counters * option ascii :=
  match s with
  | EmptyString => (k, before)
  | String ch r => after_text (after k before ch) (Some ch) r
  end.

(** The number of commas of [s] that stand at top level. *)
Fixpoint top_level_commas_from (k : counters) (before : option ascii) (s : string)
  : nat :=
  match s with
  | EmptyString => O
  | String ch r =>
      ((if top_level k && Ascii.eqb ch "," then 1 else 0)
       + top_level_commas_from (after k before ch) (Some ch) r)%nat
  end.

Definition top_level_commas (s : string) : nat :=
  top_level_commas_from outside None s.

(** The texts between the commas of [s] that stand at top level: what
    section 4.1 splits [s] into, before trimming. *)
Fixpoint pieces_from (k : counters) (before : option ascii) (s : string)
  : list string :=
  match s with
  | EmptyString => [EmptyString]
  | String ch r =>
      let rest := pieces_from (after k before ch) (Some ch) r in
      if top_level k && Ascii.eqb ch "," then EmptyString :: rest
      else match rest with
           | p :: ps => String ch p :: ps
           | [] => [String ch EmptyString]
           end
  end.

Definition pieces (s : string) : list string := pieces_from outside None s.

(** The text after the last top-level comma (all of [s] when it has none). *)
Definition last_argument (s : string) : string :=
  List.last (pieces s) EmptyString.

(** A well-balanced argument string: no depth falls below zero, and at the
    end both depths are zero and no quote is open. *)
Fixpoint well_balanced_from (k : counters) (before : option ascii) (s : string)
  : bool :=
  (0 <=? parens k) && (0 <=? brackets k)
  && match s with
     | EmptyString => top_level k
     | String ch r => well_balanced_from (after k before ch) (Some ch) r
     end.

Definition well_balanced (s : string) : bool :=
  well_balanced_from outside None s.

Definition trimmed (a : string) : Prop := strip a = a.

(** The operation families of section 4.3. *)
Definition families : list string :=
  ["MATH"; "STRING"; "LOGICAL"; "BOOLEAN"; "DATE"; "ARRAY"; "AGGREGATION";
   "FILTER"; "FILTERS"; "DIRECT"].

(** Rule 1 of the value parser: the token begins with [trns:] in any case,
    or has the form [OP[...]] for a recognised family. *)
Definition is_nested_dsl (token : string) : bool :=
  startswith "trns:" (lower token)
  || match Re.op_bracket token with
     | Some (op, _) => existsb (String.eqb (upper op)) families
     | None => false
     end.

Definition is_true_cell (c : cell) : bool :=
  match c with CBool true => true | _ => false end.

Definition is_false_cell (c : cell) : bool :=
  match c with CBool false => true | _ => false end.

(** The rows of [df] whose flag is set. *)
Definition rows_where (flags : list bool) (df : DataFrame) : DataFrame :=
  map_rows (keep flags) df.

(** The value of a predicate on every row of [df]. *)
Definition predicate_cells (df : DataFrame) (pred : expr) : result (list cell) :=
  bind (eval df pred) (fun c => Ok (broadcast (height df) c)).

(** A filter action as section 4.5 words it: [INCLUDE_IF] and [INCLUDE]
    retain the rows where the condition is true, [EXCLUDE_IF] those where it
    is not true, [LIMIT(n)] takes the first [n] rows and [OFFSET(n)] drops
    the first [n] rows. *)
Definition action (df : DataFrame) (method : string) (args : list string)
  : result DataFrame :=
  if String.eqb method "INCLUDE_IF" || String.eqb method "INCLUDE" then
    bind (index args 0) (fun a => bind (parse_boolean_expr a) (fun cond =>
    bind (predicate_cells df cond) (fun cs =>
      Ok (rows_where (map is_true_cell cs) df))))
  else if String.eqb method "EXCLUDE_IF" then
    bind (index args 0) (fun a => bind (parse_boolean_expr a) (fun cond =>
    bind (predicate_cells df cond) (fun cs =>
      Ok (rows_where (map (fun c => negb (is_true_cell c)) cs) df))))
  else if String.eqb method "LIMIT" then
    bind (index args 0) (fun a => bind (int_of_float_str a) (fun n =>
      Ok (map_rows (firstn (Z.to_nat n)) df)))
  else if String.eqb method "OFFSET" then
    bind (index args 0) (fun a => bind (int_of_float_str a) (fun n =>
      Ok (map_rows (skipn (Z.to_nat n)) df)))
  else Raise TransformError.

(** The transform of a mapping, under either of its two names. *)
Definition transform_of (m : mapping) : pyval :=
  py_or (get m "transform") (get m "trns").

(** A filter mapping: its transform parses to a FILTER or FILTERS action. *)
Definition is_filter_mapping (m : mapping) : bool :=
  match transform_of m with
  | PyStr t =>
      match parse_transform_expression t with
      | Ok (PFilter _ _ _) => true
      | _ => false
      end
  | _ => false
  end.

(** The target of a mapping: the canonical key [target] governs, its alias
    [affected_target] stands in for it when it is absent. *)
Definition target_of (m : mapping) : pyval :=
  match m !! "target" with
  | Some v => v
  | None => get m "affected_target"
  end.

(** The mapping carries one of the two keys of the target and not the
    other. *)
Definition has_one_target (m : mapping) : Prop :=
  (m !! "target" <> None /\ m !! "affected_target" = None)
  \/ (m !! "target" = None /\ m !! "affected_target" <> None).

(** The non-filter mappings of a list, in the order of their declaration. *)
Definition projections (ms : list mapping) : list mapping :=
  List.filter (fun m => negb (is_filter_mapping m)) ms.

(** The filter phase: every mapping whose transform parses to a FILTER or
    FILTERS action is applied, in the order of the list. *)
Fixpoint filter_phase (df : DataFrame) (mappings : list mapping)
  : result DataFrame :=
  match mappings with
  | [] => Ok df
  | mp :: rest =>
      bind (match transform_of mp with
            | PyStr t =>
                match parse_transform_expression t with
                | Ok (PFilter _ method args) => action df method args
                | _ => Ok df
                end
            | _ => Ok df
            end) (fun df' => filter_phase df' rest)
  end.

Definition boolean_cell (c : cell) : bool :=
  match c with CNull | CBool _ => true | _ => false end.

(** The cells of a predicate column over the rows of [df], when the column
    is boolean: a scalar is repeated, a series has one cell per row. *)
Definition predicate_on (df : DataFrame) (c : column) : option (list cell) :=
  match c with
  | Scalar x => if boolean_cell x then Some (repeat x (height df)) else None
  | Series xs =>
      if forallb boolean_cell xs && (List.length xs =? height df)%nat
      then Some xs else None
  end.

End Spec.

(* ===================================================================== *)
(** * Notions derived from the code *)
(* ===================================================================== *)

Module Derived.

(** A FILTER or FILTERS text, once the family name and the opening bracket
    are read: what remains to be parsed is the same for both names. *)
Definition filter_rest (rest : string) : result (string * list string) :=
  match Re.bracket_body (rstrip rest) with
  | Some g => parse_method_call (strip g)
  | None => Raise ValueError
  end.

End Derived.
Import Derived.

(* ===================================================================== *)
(** * Sample frames and mappings *)
(* ===================================================================== *)

Module Examples.

Definition demo5 : DataFrame :=
  [("a", [CInt 0; CInt 1; CInt 2; CInt 3; CInt 4]);
   ("c", [CStr "x"; CNull; CStr "z"; CStr "w"; CStr "v"])].

Definition offset_one : mapping := {[ "trns" := PyStr "FILTER[OFFSET(1)]" ]}.
Definition limit_two : mapping := {[ "trns" := PyStr "FILTER[LIMIT(2)]" ]}.

Definition exclude_x : mapping :=
  {[ "trns" := PyStr "FILTER[EXCLUDE_IF(ATTR('c') == 'x')]" ]}.

Definition canonical_limit : mapping :=
  {[ "transform" := PyStr "FILTER[LIMIT(2)]" ]}.

Definition country_default : mapping :=
  <["target" := PyStr "country"]>
    (<["source" := PyStr "country"]> {[ "default" := PyStr "US" ]}).

Definition country_no_default : mapping :=
  <["target" := PyStr "country"]> {[ "source" := PyStr "country" ]}.

Definition country_transformed : mapping :=
  <["trns" := PyStr "DIRECT[ATTR(a)]"]> country_default.

Definition id_of_a : mapping :=
  <["target" := PyStr "id"]> {[ "source" := PyStr "a" ]}.

Definition four_mappings : list mapping :=
  [ <["target" := PyStr "C"]> {[ "source" := PyStr "c" ]};
    {[ "trns" := PyStr "FILTER[OFFSET(2)]" ]};
    <["affected_target" := PyStr "A"]> {[ "affected_source" := PyStr "a" ]};
    limit_two ].

End Examples.
Import Examples.

(* ===================================================================== *)
(** * Measures used in the proofs *)
(* ===================================================================== *)

Module Measure.

(** The characters that count towards the weight of a text: all but white
    space and commas.  Every recursive call of the parsers is on a text that
    weighs less, or on one that weighs no more and is one step nearer to
    such a call. *)
Definition heavy (c : ascii) : bool := negb (is_space c) && negb (Ascii.eqb c ",").

Fixpoint weight (s : string) : nat :=
  match s with
  | EmptyString => O
  | String c r => ((if heavy c then 1 else 0) + weight r)%nat
  end.

Definition sum_weight (l : list string) : nat :=
  fold_right (fun a n => (weight a + n)%nat) O l.

(** [agree r r']: the two results are the same and the budget was enough. *)
Definition agree {A} (r r' : result A) : Prop := r = r' /\ r <> NoFuel.

(** [tracks st k before]: the state of the lexer holds the counters [k] of
    section 4.1 and the character [before]. *)
Definition tracks (st : lexer) (k : Spec.counters) (before : option ascii) : Prop :=
  depth_paren st = Spec.parens k /\ depth_brack st = Spec.brackets k
  /\ in_quote st = Spec.quote k /\ prev st = before.

(** The counters [k] seen from inside [dp] more parentheses and [db] more
    brackets. *)
Definition deeper (dp db : Z) (k : Spec.counters) : Spec.counters :=
  Spec.Counters (Spec.parens k + dp) (Spec.brackets k + db) (Spec.quote k).

(** The pieces [ps] of a text read after the text [pending]: [pending]
    belongs to the first piece. *)
Definition resume (pending : string) (ps : list string) : list string :=
  match ps with
  | p :: rest => (pending +:+ p) :: rest
  | [] => []
  end.

End Measure.
Import Measure.

(* ===================================================================== *)
(** * Classes of tokens *)
(* ===================================================================== *)

Module Token.

(** [all p s]: every character of [s] satisfies [p]. *)
Fixpoint all (p : ascii -> bool) (s : string) : bool :=
  match s with
  | EmptyString => true
  | String c r => p c && all p r
  end.

(** A non-empty run of word characters. *)
Definition is_word_run (s : string) : bool :=
  negb (String.eqb s EmptyString) && all is_word s.

(** A word that does not begin with a digit. *)
Definition is_identifier (s : string) : bool :=
  match s with
  | String c r => is_word c && negb (is_digit c) && all is_word r
  | EmptyString => false
  end.

(** The words the value parser reads as literals: the two booleans and the
    names [float] accepts. *)
Definition reserved : list string := ["true"; "false"; "nan"; "inf"; "infinity"].

(** The value of a non-empty run of decimal digits. *)
Fixpoint decimal_from (acc : N) (s : string) : option N :=
  match s with
  | EmptyString => Some acc
  | String c r =>
      if is_digit c then decimal_from (acc * 10 + (code c - 48))%N r else None
  end.

Definition decimal_value (s : string) : option N :=
  match s with
  | EmptyString => None
  | _ => decimal_from 0 s
  end.

(** The characters a column name may hold between the parentheses of an
    [ATTR] call: no quote character, no closing parenthesis, no newline. *)
Definition is_name_char (c : ascii) : bool :=
  negb (is_quote c) && negb (Ascii.eqb c ")") && negb (Ascii.eqb c "010").

(** Characters with a role in [split_args]. *)
Definition is_grouping (c : ascii) : bool :=
  is_quote c || Ascii.eqb c "(" || Ascii.eqb c ")" || Ascii.eqb c "["
  || Ascii.eqb c "]".

(** Characters of the six comparison operators. *)
Definition is_operator_char (c : ascii) : bool :=
  Ascii.eqb c "=" || Ascii.eqb c "!" || Ascii.eqb c "<" || Ascii.eqb c ">".

(** The text before the first comma (all of it when there is none). *)
Fixpoint before_comma (s : string) : string :=
  match s with
  | EmptyString => EmptyString
  | String c r => if Ascii.eqb c "," then EmptyString else String c (before_comma r)
  end.

(** The openings of the call forms of a condition. *)
Definition call_prefixes : list string :=
  ["BOOLEAN["; "IF("; "EQ("; "GT("; "LT("; "GTE("; "LTE("; "NE("].

End Token.

(* ===================================================================== *)
(** * Frames made of rows of another frame *)
(* ===================================================================== *)

Module Rows.

(** [rows_of df df']: [df'] has the columns of [df], in the same order, and
    each is a subsequence of the original column. *)
Definition rows_of (df df' : DataFrame) : Prop :=
  Forall2 (fun c c' => fst c' = fst c /\ sublist (snd c') (snd c)) df df'.

(** The filter mapping [FILTER[method(a)]], written under [trns]. *)
Definition window (method a : string) : mapping :=
  {[ "trns" := PyStr ("FILTER[" +:+ method +:+ "(" +:+ a +:+ ")]") ]}.

End Rows.

(* ===================================================================== *)
(** * [transformer.py]: the batch filter function *)
(* ===================================================================== *)

Module Batch.

(** [p in s] *)
Definition contains (p s : string) : bool :=
  match split_first p s with
  | Some _ => true
  | None => false
  end.

(** One turn of the loop of [_apply_filters] on the mapping [mp]. *)
Definition apply_filters_step (out : DataFrame) (mp : mapping) : result DataFrame :=
  bind (py_str (get_or mp "transform" (get_or mp "trns" (PyStr EmptyString))))
    (fun text =>
  let transform := strip text in
  let is_filter_op :=
    contains "FILTERS[" (upper transform) || contains "FILTER[" (upper transform) in
  if (startswith "trns:" (lower transform) && is_filter_op)
     || (negb (startswith "trns:" (lower transform)) && is_filter_op)
  then
    reraise TransformError
      (bind (parse_transform_expression transform) (fun p =>
         match p with
         | PFilter _ method args => filter_action out (upper method) args
         | PExpr _ => Ok out
         end))
  else Ok out).

Fixpoint _apply_filters (out : DataFrame) (mappings : list mapping)
  : result DataFrame :=
  match mappings with
  | [] => Ok out
  | mp :: rest =>
      bind (apply_filters_step out mp) (fun out' => _apply_filters out' rest)
  end.

(** A filter mapping as the executor's loop looks for it: no [transform]
    key, and a text under [trns] that begins with the family name. *)
Definition gated (m : mapping) : Prop :=
  m !! "transform" = None
  /\ exists t, m !! "trns" = Some (PyStr t)
              /\ startswith "FILTER[" t || startswith "FILTERS[" t = true.

End Batch.

Import Token Rows Batch.

(* ===================================================================== *)
(** * Values of the mapping document *)
(* ===================================================================== *)

(** What [json.load] returns.  An object is a dictionary with text keys;
    the order of its keys plays no role in what follows. *)

Module Json.

Local Set Warnings "-register-all".

Inductive json : Type :=
| JNull
| JBool (b : bool)
| JInt (z : Z)
| JFloat (f : float64)
| JStr (s : string)
| JArr (items : list json)
| JObj (items : gmap string json).

(** The value as the mapping compiler sees it. *)
Definition to_pyval (v : json) : pyval :=
  match v with
  | JNull => PyNone
  | JBool b => PyBool b
  | JInt z => PyInt z
  | JFloat f => PyFloat f
  | JStr s => PyStr s
  | JArr items => PyObj (negb (bool_decide (items = [])))
  | JObj items => PyObj (negb (bool_decide (items = ∅)))
  end.

Definition truthy_json (v : json) : bool := truthy (to_pyval v).

(** A dictionary of the list of mappings. *)
Definition to_mapping (v : json) : option mapping :=
  match v with
  | JObj items => Some (to_pyval <$> items)
  | _ => None
  end.

(** The list of mappings, when each of its elements is a dictionary. *)
Fixpoint to_mappings (l : list json) : option (list mapping) :=
  match l with
  | [] => Some []
  | v :: r =>
      match to_mapping v, to_mappings r with
      | Some m, Some ms => Some (m :: ms)
      | _, _ => None
      end
  end.

(** [str(v)], as an f-string formats it; [None] where the text depends on
    how floats and containers are printed. *)
Definition str_json (v : json) : option string :=
  match v with
  | JNull => Some "None"
  | JBool true => Some "True"
  | JBool false => Some "False"
  | JInt z => Some (pretty z)
  | JStr s => Some s
  | JFloat _ | JArr _ | JObj _ => None
  end.

End Json.
Import Json.

(* ===================================================================== *)
(** * Outcomes of the writers and of the endpoint *)
(* ===================================================================== *)

Module Io.

(** The exceptions met in [writer.py], [reader.py] and [main.py]: those the
    parsers and the executor raise ([Raised]), and four more classes. *)
Inductive error : Type :=
| Raised (e : exn)
| FileNotFoundError
| ZeroDivisionError
| ETLError
| WriterError.

(** [Unknown] marks what depends on the backend or on a library beyond the
    embedding. *)
Inductive outcome (A : Type) : Type :=
| Done (a : A)
| Failed (e : error)
| Unknown.
Arguments Done {A} a.
Arguments Failed {A} e.
Arguments Unknown {A}.

Definition and_then {A B} (r : outcome A) (k : A -> outcome B) : outcome B :=
  match r with
  | Done a => k a
  | Failed e => Failed e
  | Unknown => Unknown
  end.

Notation "x <~ e ;; k" := (and_then e (fun x => k))
  (at level 100, e at next level, right associativity, only parsing).

Fixpoint for_each {A B} (f : A -> outcome B) (l : list A) : outcome (list B) :=
  match l with
  | [] => Done []
  | x :: r => y <~ f x ;; ys <~ for_each f r ;; Done (y :: ys)
  end.

(** [try: ... except Exception as e: raise E(...)] *)
Definition rescue {A} (e' : error) (r : outcome A) : outcome A :=
  match r with
  | Failed _ => Failed e'
  | _ => r
  end.

(** A result of the parsers or of the executor, as an outcome. *)
Definition of_result {A} (r : result A) : outcome A :=
  match r with
  | Ok a => Done a
  | Raise e => Failed (Raised e)
  | Beyond | NoFuel => Unknown
  end.

Definition of_option {A} (o : option A) : outcome A :=
  match o with
  | Some a => Done a
  | None => Unknown
  end.

End Io.
Import Io.

(* ===================================================================== *)
(** * [writer.py] *)
(* ===================================================================== *)

(** A writer is embedded by what it hands to the file system: the text of
    the file, the sheets of the workbook, or the frame given to a writer of
    the backend.  The file system accepts every file and every directory it
    is asked for, except the directory of empty name, which [os.makedirs]
    refuses.  Paths are POSIX paths.  The columns of a frame have the same
    length. *)

Module Writer.

Definition EXCEL_MAX_ROWS : N := 1048000.

Record sheet : Type := Sheet {
  title : string;
  header : list string;
  body : DataFrame
}.

Inductive artifact : Type :=
| Text (content : string)
| Workbook (sheets : list sheet)
| Backend (writer : string) (df : DataFrame).

(** ** [ensure_parent] *)

(** [p[:p.rfind('/') + 1]] *)
Fixpoint through_last_slash (p : string) : string :=
  match p with
  | EmptyString => EmptyString
  | String c r =>
      match through_last_slash r with
      | EmptyString => if Ascii.eqb c "/" then String c EmptyString else EmptyString
      | h => String c h
      end
  end.

(** [head.rstrip('/')] *)
Fixpoint rstrip_slash (s : string) : string :=
  match s with
  | EmptyString => EmptyString
  | String c r =>
      match rstrip_slash r with
      | EmptyString => if Ascii.eqb c "/" then EmptyString else String c EmptyString
      | r' => String c r'
      end
  end.

(** [os.path.dirname] *)
Definition dirname (p : string) : string :=
  let head := through_last_slash p in
  if negb (String.eqb head EmptyString) && negb (all (Ascii.eqb "/") head)
  then rstrip_slash head
  else head.

Definition ensure_parent (path : string) : outcome unit :=
  if String.eqb (dirname path) EmptyString
  then Failed FileNotFoundError
  else Done tt.

(** ** Rows and their text *)

(** [df.iter_rows(named=True)] *)
Definition iter_rows (df : DataFrame) : list (list (string * cell)) :=
  map (fun i => map (fun nc => (fst nc, nth i (snd nc) CNull)) df)
      (seq 0 (height df)).

(** [str(v)] for a value of a row. *)
Definition str_cell (c : cell) : outcome string :=
  match c with
  | CNull => Done "None"
  | CBool true => Done "True"
  | CBool false => Done "False"
  | CInt z => Done (pretty z)
  | CStr s => Done s
  | CFloat _ | COther _ => Unknown
  end.

(** [the empty text if v is None else str(v)] *)
Definition text_of (c : cell) : outcome string :=
  match c with
  | CNull => Done EmptyString
  | _ => str_cell c
  end.

Definition newline : string := String "010" EmptyString.

(** ** The writers of the backend *)

Definition write_csv (df : DataFrame) (path : string) : outcome artifact :=
  if String.eqb path EmptyString then Failed WriterError
  else _ <~ ensure_parent path ;; Done (Backend "write_csv" df).

Definition write_ndjson (df : DataFrame) (path : string) : outcome artifact :=
  _ <~ ensure_parent path ;; Done (Backend "write_ndjson" df).

(** [json.dump(df.to_dicts(), f, indent=2, ensure_ascii=False, default=str)] *)
Definition write_json (df : DataFrame) (path : string) : outcome artifact :=
  _ <~ ensure_parent path ;; Done (Backend "to_dicts" df).

(** ** [write_xlsx] *)

(** [df.slice(start, length)] *)
Definition slice_rows (df : DataFrame) (start length : N) : DataFrame :=
  map_rows (fun c => firstn (N.to_nat length) (skipn (N.to_nat start) c)) df.

(** The [while start < total] loop; [fuel] bounds the number of turns. *)
Fixpoint sheets_from (fuel : nat) (df : DataFrame) (total start sheet_idx : N)
  : list sheet :=
  match fuel with
  | O => []
  | S fuel =>
      if (start <? total)%N then
        let end_ := N.min (start + EXCEL_MAX_ROWS) total in
        let chunk := slice_rows df start (end_ - start) in
        Sheet ("Sheet" +:+ pretty sheet_idx) (columns chunk) chunk
          :: sheets_from fuel df total end_ (sheet_idx + 1)
      else []
  end.

Definition sheets_of (df : DataFrame) : list sheet :=
  sheets_from (height df) df (N.of_nat (height df)) 0 1.

(** Saving a workbook without any sheet is left to the library. *)
Definition write_xlsx (df : DataFrame) (path : string) : outcome artifact :=
  if String.eqb path EmptyString then Failed WriterError
  else
    _ <~ ensure_parent path ;;
    match sheets_of df with
    | [] => Unknown
    | sheets => Done (Workbook sheets)
    end.

(** ** [write_xml] *)

(** [xml.sax.saxutils.escape] *)
Fixpoint escape (s : string) : string :=
  match s with
  | EmptyString => EmptyString
  | String c r =>
      (if Ascii.eqb c "&" then "&amp;"
       else if Ascii.eqb c ">" then "&gt;"
       else if Ascii.eqb c "<" then "&lt;"
       else String c EmptyString) +:+ escape r
  end.

Definition xml_cell (nc : string * cell) : outcome string :=
  v <~ text_of (snd nc) ;;
  Done ("<" +:+ fst nc +:+ ">" +:+ escape v +:+ "</" +:+ fst nc +:+ ">").

Definition xml_row (row_tag : string) (row : list (string * cell)) : outcome string :=
  cells <~ for_each xml_cell row ;;
  Done ("  <" +:+ row_tag +:+ ">" +:+ String.concat EmptyString cells
        +:+ "</" +:+ row_tag +:+ ">" +:+ newline).

Definition write_xml (df : DataFrame) (path : string) (root_tag row_tag : json)
  : outcome artifact :=
  _ <~ ensure_parent path ;;
  rescue WriterError
    (root <~ of_option (str_json root_tag) ;;
     rows <~ for_each
               (fun row => tag <~ of_option (str_json row_tag) ;; xml_row tag row)
               (iter_rows df) ;;
     Done (Text ("<" +:+ root +:+ ">" +:+ newline
                 +:+ String.concat EmptyString rows
                 +:+ "</" +:+ root +:+ ">" +:+ newline))).

(** ** [write_positional] *)

(** [for m in mappings] *)
Definition elements (v : json) : outcome (list json) :=
  match v with
  | JArr items => Done items
  | JObj items => Done (map (fun kv => JStr (fst kv)) (map_to_list items))
  | JStr s => Done (map (fun c => JStr (String c EmptyString)) (list_ascii_of_string s))
  | _ => Failed (Raised TypeError)
  end.

Definition is_target_text (v : json) : bool :=
  match v with
  | JStr s => String.eqb s "target"
  | _ => false
  end.

(** One element of the two comprehensions: [(m["target"], m.get("length"))]
    when ["target" in m], nothing otherwise.  A text or a list that holds
    [target] cannot be subscripted by it. *)
Definition target_and_length (m : json) : outcome (option (json * json)) :=
  match m with
  | JObj items =>
      match items !! "target" with
      | Some t => Done (Some (t, default JNull (items !! "length")))
      | None => Done None
      end
  | JArr items =>
      if existsb is_target_text items then Failed (Raised TypeError) else Done None
  | JStr s =>
      if contains "target" s then Failed (Raised TypeError) else Done None
  | _ => Failed (Raised TypeError)
  end.

Definition targets_and_lengths (mappings : json) : outcome (list (json * json)) :=
  ms <~ elements mappings ;;
  tls <~ for_each target_and_length ms ;;
  Done (omap id tls).

(** [row.get(t, default)]: [None] stands for the default, the empty text. *)
Definition row_get (row : list (string * cell)) (t : json) : outcome (option cell) :=
  match t with
  | JStr name =>
      Done (option_map snd (List.find (fun nc => String.eqb (fst nc) name) row))
  | JArr _ | JObj _ => Failed (Raised TypeError)
  | _ => Done None
  end.

(** [int(s)] for a text: white space, a sign, digits. *)
Definition int_of_str (s : string) : option Z :=
  let t := strip s in
  let '(neg, body) :=
    match t with
    | String sg r =>
        if Ascii.eqb sg "-" then (true, r)
        else if Ascii.eqb sg "+" then (false, r)
        else (false, t)
    | EmptyString => (false, t)
    end in
  match digitpart body with
  | Some (v, _, EmptyString) => Some (if neg then - Z.of_N v else Z.of_N v)
  | _ => None
  end.

(** [int(L)] for a length that is not [None]. *)
Definition int_of_json (L : json) : outcome Z :=
  match L with
  | JInt z => Done z
  | JBool b => Done (if b then 1 else 0)
  | JFloat f => of_result (int_of_float f)
  | JStr s =>
      match int_of_str s with
      | Some z => Done z
      | None => Failed (Raised ValueError)
      end
  | JNull | JArr _ | JObj _ => Failed (Raised TypeError)
  end.

Fixpoint take (n : nat) (s : string) : string :=
  match n, s with
  | S n, String c r => String c (take n r)
  | _, _ => EmptyString
  end.

(** [s[:width]] *)
Definition slice_to (s : string) (width : Z) : string :=
  if 0 <=? width then take (Z.to_nat width) s
  else take (String.length s - Z.to_nat (- width)) s.

Fixpoint spaces (n : nat) : string :=
  match n with
  | O => EmptyString
  | S n => String " " (spaces n)
  end.

(** [s.rjust(width)] and [s.ljust(width)] *)
Definition rjust (s : string) (width : Z) : string :=
  spaces (Z.to_nat width - String.length s) +:+ s.
Definition ljust (s : string) (width : Z) : string :=
  s +:+ spaces (Z.to_nat width - String.length s).

Definition piece (row : list (string * cell)) (tL : json * json) : outcome string :=
  val <~ row_get row (fst tL) ;;
  s <~ match val with
       | Some c => text_of c
       | None => Done EmptyString
       end ;;
  width <~ match snd tL with
           | JNull => Done (Z.of_nat (String.length s))
           | L => int_of_json L
           end ;;
  let s := if width <? Z.of_nat (String.length s) then slice_to s width else s in
  Done (if is_number s then rjust s width else ljust s width).

Definition positional_line (tls : list (json * json)) (row : list (string * cell))
  : outcome string :=
  pieces <~ for_each (piece row) tls ;;
  Done (String.concat EmptyString pieces +:+ newline).

Definition write_positional (df : DataFrame) (path : string) (mappings : json)
  : outcome artifact :=
  _ <~ ensure_parent path ;;
  tls <~ targets_and_lengths mappings ;;
  rescue WriterError
    (lines <~ for_each (positional_line tls) (iter_rows df) ;;
     Done (Text (String.concat EmptyString lines))).

(** ** [write_output] *)

(** [(xml_cfg or {}).get(key, default)] *)
Definition xml_option (xml_cfg : option json) (key : string) (dflt : string)
  : outcome json :=
  match xml_cfg with
  | None => Done (JStr dflt)
  | Some v =>
      if truthy_json v then
        match v with
        | JObj items => Done (default (JStr dflt) (items !! key))
        | _ => Failed (Raised AttributeError)
        end
      else Done (JStr dflt)
  end.

(** The path of the output and what is written there. *)
Definition write_output (df : DataFrame) (base_path fmt0 : string)
    (mappings : json) (xml_cfg : option json) : outcome (string * artifact) :=
  let fmt := lower fmt0 in
  let written (out_path : string) (w : outcome artifact) :=
    a <~ w ;; Done (out_path, a) in
  if String.eqb fmt "csv" then
    written (base_path +:+ ".csv") (write_csv df (base_path +:+ ".csv"))
  else if String.eqb fmt "json" then
    written (base_path +:+ ".jsonl") (write_ndjson df (base_path +:+ ".jsonl"))
  else if String.eqb fmt "json_array" then
    written (base_path +:+ ".json") (write_json df (base_path +:+ ".json"))
  else if String.eqb fmt "xlsx" then
    written (base_path +:+ ".xlsx") (write_xlsx df (base_path +:+ ".xlsx"))
  else if String.eqb fmt "xml" then
    root_tag <~ xml_option xml_cfg "root_tag" "records" ;;
    row_tag <~ xml_option xml_cfg "row_tag" "record" ;;
    written (base_path +:+ ".xml")
            (write_xml df (base_path +:+ ".xml") root_tag row_tag)
  else if String.eqb fmt "positional" then
    written (base_path +:+ ".txt")
            (write_positional df (base_path +:+ ".txt") mappings)
  else Failed WriterError.

(** The width a mapping declares for its field, when it is an integer. *)
Definition declared_width (tL : json * json) : Z :=
  match snd tL with
  | JInt L => L
  | _ => 0
  end.

Definition line_width (tls : list (json * json)) : Z :=
  fold_right (fun tL w => declared_width tL + w) 0 tls.

(** Two frames with the same columns, one above the other. *)
Fixpoint vstack (a b : DataFrame) : DataFrame :=
  match a, b with
  | (n, x) :: a, (_, y) :: b => (n, x ++ y) :: vstack a b
  | _, _ => []
  end.

(** The rows of the sheets of a workbook, from the first sheet to the last,
    under the columns of [df]. *)
Definition stacked (df : DataFrame) (sheets : list sheet) : DataFrame :=
  fold_right (fun sh rest => vstack (body sh) rest) (map_rows (fun _ => []) df) sheets.

(** Every column has the height of the frame. *)
Definition rectangular (df : DataFrame) : Prop :=
  Forall (fun nc => List.length (snd nc) = height df) df.

End Writer.
Import Writer.

(* ===================================================================== *)
(** * [main.py]: the transform endpoint *)
(* ===================================================================== *)

(** The endpoint is embedded as a function of what it reads: the names of
    the two uploaded files, what [json.load] makes of the mapping file and
    what [read_parquet_file] makes of the parquet file.  Saving the uploads
    and logging are taken to succeed.  The answer is the success body or
    the HTTP error, together with what was written to the output path. *)

Module Main.

Record environment : Type := Environment {
  BASE_OUTPUT_DIR : string;   (* [ETL_OUTPUT_DIR], or [output] *)
  run_id : string             (* [timestamp_run_id()] *)
}.

Record upload : Type := Upload {
  parquet_filename : option string;
  mapping_filename : option string;
  mapping_cfg : option json;       (* [None]: the file is no JSON text *)
  parquet : option DataFrame       (* [None]: [read_parquet_file] raises *)
}.

Inductive response : Type :=
| Success (input_rows output_rows : nat) (output_path : string)
| HTTPException (status_code : Z).

Definition output_formats : list string :=
  ["csv"; "json"; "json_array"; "xlsx"; "xml"; "positional"].

(** [s.endswith(suffix)] *)
Definition endswith (suffix s : string) : bool :=
  (String.length suffix <=? String.length s)%nat
  && String.eqb (drop (String.length s - String.length suffix) s) suffix.

(** [not name or not name.endswith(suffix)] *)
Definition bad_filename (name : option string) (suffix : string) : bool :=
  match name with
  | Some (String c r) => negb (endswith suffix (String c r))
  | _ => true
  end.

(** [os.path.join(a, b)] for a relative [b]. *)
Definition path_join (a b : string) : string :=
  if String.eqb a EmptyString || endswith "/" a then a +:+ b
  else a +:+ "/" +:+ b.

(** The body of the [try] block up to the call of [write_output]: the
    numbers of rows read and produced, and the path and content written. *)
Definition pipeline (env : environment) (up : upload)
  : outcome (nat * nat * (string * artifact)) :=
  match mapping_cfg up with
  | Some (JObj cfg) =>
      output_format <~
        match cfg !! "output_format" with
        | None => Done "csv"
        | Some (JStr s) => Done (lower s)
        | Some _ => Failed (Raised AttributeError)
        end ;;
      if negb (existsb (String.eqb output_format) output_formats)
      then Failed (Raised MappingError)
      else
        let xml_cfg := default (JObj ∅) (cfg !! "xml_config") in
        let output_base :=
          let v := default JNull (cfg !! "output_path") in
          if truthy_json v then v
          else JStr (path_join (BASE_OUTPUT_DIR env) "output") in
        base <~ of_option (str_json output_base) ;;
        let base_with_ts := base +:+ "_" +:+ run_id env in
        df <~ match parquet up with
              | Some df => Done df
              | None => Failed ETLError
              end ;;
        match default (JArr []) (cfg !! "mappings") with
        | JArr [] => Failed (Raised MappingError)
        | JArr mappings =>
            transformed <~
              rescue (Raised TransformError)
                match to_mappings mappings with
                | Some ms => of_result (apply_transformations df ms)
                | None => Failed (Raised AttributeError)   (* no [get] *)
                end ;;
            written <~
              rescue WriterError
                (write_output transformed base_with_ts output_format xml_cfg None) ;;
            Done (height df, height transformed, written)
        | _ => Failed (Raised MappingError)
        end
  | _ => Failed (Raised MappingError)
  end.

(** The classes the first handler catches answer 400, the others 500. *)
Definition status_of (e : error) : Z :=
  match e with
  | Raised MappingError | Raised TransformError | ETLError | WriterError => 400
  | _ => 500
  end.

(** The answer and what was written; [None] where the outcome depends on
    what the embedding leaves out. *)
Definition transform_endpoint (env : environment) (up : upload)
  : option (response * option (string * artifact)) :=
  if bad_filename (parquet_filename up) ".parquet" then Some (HTTPException 400, None)
  else if bad_filename (mapping_filename up) ".json" then Some (HTTPException 400, None)
  else
    match pipeline env up with
    | Done (input_rows, output_rows, written) =>
        (* the share of rows removed divides by [input_rows] *)
        if (input_rows =? 0)%nat
        then Some (HTTPException (status_of ZeroDivisionError), Some written)
        else Some (Success input_rows output_rows (fst written), Some written)
    | Failed e => Some (HTTPException (status_of e), None)
    | Unknown => None
    end.

(** The same upload with another mapping document. *)
Definition with_document (up : upload) (doc : json) : upload :=
  Upload (parquet_filename up) (mapping_filename up) (Some doc) (parquet up).

End Main.
Import Main.

(* ===================================================================== *)
(** * Sample documents *)
(* ===================================================================== *)

Module Samples.

(** Two fields of widths 3 and 1, and a mapping without target. *)
Definition fields_doc : json :=
  JArr [ JObj {[ "target" := JStr "a"; "length" := JInt 3 ]};
         JObj {[ "target" := JStr "c"; "length" := JInt 1 ]};
         JObj {[ "source" := JStr "c" ]} ].

Definition fields_text : string :=
  "  0x" +:+ newline +:+ "  1 " +:+ newline +:+ "  2z" +:+ newline
  +:+ "  3w" +:+ newline +:+ "  4v" +:+ newline.

Definition sample_env : environment := Environment "output" "20240101_120000".

(** A mapping document that projects column [a], in the given format and
    with the given XML options. *)
Definition project_a (fmt : string) (xml_cfg : option json) : json :=
  let base : gmap string json :=
    {[ "output_format" := JStr fmt;
       "mappings" := JArr [ JObj {[ "target" := JStr "a"; "source" := JStr "a";
                                    "length" := JInt 3 ]} ] ]} in
  JObj match xml_cfg with
       | Some v => <["xml_config" := v]> base
       | None => base
       end.

Definition sample_upload (doc : json) (df : DataFrame) : upload :=
  Upload (Some "in.parquet") (Some "map.json") (Some doc) (Some df).

Definition no_rows : DataFrame := [("a", []); ("c", [])].

End Samples.
Import Samples.

(* ===================================================================== *)
(** * Properties of the string primitives *)
(* ===================================================================== *)

Local Arguments String.append !s1 s2 /.

Section StringFacts.

Lemma append_nil_r (s : string) : s +:+ EmptyString = s.
Proof. induction s as [|c s IH]; simpl; [reflexivity | now rewrite IH]. Qed.

Lemma lstrip_nonspace c r : is_space c = false -> lstrip (String c r) = String c r.
Proof. intros H; simpl; now rewrite H. Qed.

Lemma rstrip_cons_nonspace c r :
  is_space c = false -> rstrip (String c r) = String c (rstrip r).
Proof. intros H; simpl. destruct (rstrip r); [now rewrite H | reflexivity]. Qed.

Lemma lstrip_rstrip_comm s : lstrip (rstrip s) = rstrip (lstrip s).
Proof.
  induction s as [|c s IH]; [reflexivity|].
  destruct (is_space c) eqn:Hc.
  - simpl lstrip at 2. rewrite Hc, <- IH. simpl.
    destruct (rstrip s) eqn:Hr; simpl; rewrite Hc; reflexivity.
  - rewrite (lstrip_nonspace _ _ Hc), rstrip_cons_nonspace by assumption.
    now apply lstrip_nonspace.
Qed.

Lemma lstrip_idem s : lstrip (lstrip s) = lstrip s.
Proof.
  induction s as [|c s IH]; [reflexivity|]. simpl.
  destruct (is_space c) eqn:Hc; [assumption|]. simpl; now rewrite Hc.
Qed.

Lemma rstrip_cons_nonempty c r d r' :
  rstrip r = String d r' -> rstrip (String c r) = String c (String d r').
Proof. intros H; simpl; now rewrite H. Qed.

Lemma rstrip_idem s : rstrip (rstrip s) = rstrip s.
Proof.
  induction s as [|c s IH]; [reflexivity|]. simpl.
  destruct (rstrip s) as [|d r] eqn:Hr.
  - destruct (is_space c) eqn:Hc; [reflexivity|]. simpl; now rewrite Hc.
  - now apply rstrip_cons_nonempty.
Qed.

Lemma strip_idem s : strip (strip s) = strip s.
Proof.
  unfold strip.
  rewrite (lstrip_rstrip_comm (lstrip (rstrip s))), lstrip_idem.
  now rewrite <- lstrip_rstrip_comm, rstrip_idem.
Qed.

Lemma strip_cons_nonspace c r :
  is_space c = false -> strip (String c r) = String c (rstrip r).
Proof.
  intros H. unfold strip. rewrite rstrip_cons_nonspace by assumption.
  now apply lstrip_nonspace.
Qed.

Lemma unsnoc_some s r c : unsnoc s = Some (r, c) -> s = r +:+ String c EmptyString.
Proof.
  revert r. induction s as [|d s IH]; intros r; simpl; [discriminate|].
  destruct (unsnoc s) as [[r' l]|] eqn:E.
  - intros [= <- <-]. simpl. now rewrite <- (IH r' eq_refl).
  - intros [= <- <-]. destruct s as [|a s]; [reflexivity|].
    simpl in E. destruct (unsnoc s) as [[? ?]|]; discriminate.
Qed.

End StringFacts.

(* ===================================================================== *)
(** * The parsers terminate within their budget *)
(* ===================================================================== *)

Lemma weight_app a b : weight (a +:+ b) = (weight a + weight b)%nat.
Proof. induction a as [|c a IH]; simpl; [reflexivity | rewrite IH; lia]. Qed.

Lemma heavy_space c : is_space c = true -> heavy c = false.
Proof. intros H; unfold heavy; now rewrite H. Qed.

Lemma weight_lstrip s : weight (lstrip s) = weight s.
Proof.
  induction s as [|c s IH]; [reflexivity|]. simpl.
  destruct (is_space c) eqn:Hc; [|reflexivity].
  rewrite IH, (heavy_space _ Hc). reflexivity.
Qed.

Lemma weight_rstrip s : weight (rstrip s) = weight s.
Proof.
  induction s as [|c s IH]; [reflexivity|]. simpl.
  destruct (rstrip s) as [|d r] eqn:Hr.
  - simpl in IH. rewrite <- IH. destruct (is_space c) eqn:Hc.
    + now rewrite (heavy_space _ Hc).
    + simpl. lia.
  - simpl in *. lia.
Qed.

Lemma weight_strip s : weight (strip s) = weight s.
Proof. unfold strip. now rewrite weight_lstrip, weight_rstrip. Qed.

Lemma weight_rev_app a b : weight (String.rev_app a b) = (weight a + weight b)%nat.
Proof.
  revert b. induction a as [|c a IH]; intros b; simpl; [reflexivity|].
  rewrite IH. simpl. lia.
Qed.

Lemma weight_rev s : weight (String.rev s) = weight s.
Proof. unfold String.rev. rewrite weight_rev_app. simpl. lia. Qed.

Lemma heavy_upper c : heavy (upper_char c) = heavy c.
Proof. destruct c as [[] [] [] [] [] [] [] []]; reflexivity. Qed.

Lemma weight_upper s : weight (upper s) = weight s.
Proof.
  unfold upper. induction s as [|c s IH]; [reflexivity|].
  simpl. now rewrite heavy_upper, IH.
Qed.

Lemma weight_drop_le n s : (weight (drop n s) <= weight s)%nat.
Proof.
  revert s. induction n as [|n IH]; intros [|c s]; simpl; try lia.
  specialize (IH s). lia.
Qed.

Lemma prefix_app p s : String.prefix p s = true -> s = p +:+ drop (String.length p) s.
Proof.
  revert s. induction p as [|c p IH]; intros s H; [reflexivity|].
  destruct s as [|d s]; [discriminate|]. simpl in H.
  destruct (ascii_dec c d) as [->|]; [|discriminate].
  simpl. now rewrite <- (IH s H).
Qed.

Lemma weight_prefix p s :
  startswith p s = true ->
  weight s = (weight p + weight (drop (String.length p) s))%nat.
Proof.
  intros H. rewrite (prefix_app p s H) at 1. apply weight_app.
Qed.

Lemma weight_unsnoc s r c :
  unsnoc s = Some (r, c) ->
  weight s = (weight r + (if heavy c then 1 else 0))%nat.
Proof.
  intros H. rewrite (unsnoc_some _ _ _ H), weight_app. simpl. lia.
Qed.

Lemma word_heavy c : is_word c = true -> heavy c = true.
Proof. destruct c as [[] [] [] [] [] [] [] []]; intros H; try reflexivity; discriminate H. Qed.

Lemma span_word_weight s w t :
  Re.span_word s = (w, t) ->
  weight s = (weight w + weight t)%nat /\ (w <> EmptyString -> 1 <= weight w)%nat.
Proof.
  revert w t. induction s as [|c s IH]; intros w t; simpl.
  - intros [= <- <-]. split; [reflexivity | congruence].
  - destruct (is_word c) eqn:Hc.
    + destruct (Re.span_word s) as [w' t'] eqn:E. intros [= <- <-].
      destruct (IH _ _ eq_refl) as [H1 _]. simpl. rewrite (word_heavy _ Hc).
      split; lia.
    + intros [= <- <-]. simpl. split; [lia | congruence].
Qed.

Lemma bracket_body_weight b g :
  Re.bracket_body b = Some g -> (weight g + 1 <= weight b)%nat.
Proof.
  unfold Re.bracket_body, endswith_char, drop_last.
  destruct (unsnoc (rstrip b)) as [[r l]|] eqn:E; [|discriminate].
  destruct (Ascii.eqb_spec l "]"); [|discriminate]. subst l.
  intros [= <-]. rewrite <- (weight_rstrip b), (weight_unsnoc _ _ _ E).
  simpl. lia.
Qed.

Lemma paren_body_weight b g :
  Re.paren_body b = Some g -> (weight g + 1 <= weight b)%nat.
Proof.
  unfold Re.paren_body.
  destruct (unsnoc b) as [[b1 l1]|] eqn:E1; [|discriminate].
  pose proof (weight_unsnoc _ _ _ E1) as W1.
  destruct (Ascii.eqb_spec l1 ")").
  - subst. intros [= <-]. simpl in W1. lia.
  - destruct (Ascii.eqb l1 "010"); [|discriminate].
    destruct (unsnoc b1) as [[b2 l2]|] eqn:E2; [|discriminate].
    pose proof (weight_unsnoc _ _ _ E2) as W2.
    destruct (Ascii.eqb_spec l2 ")"); [|discriminate].
    subst. intros [= <-]. simpl in W2. lia.
Qed.

Lemma op_bracket_weight s w g :
  Re.op_bracket s = Some (w, g) -> (weight w + weight g + 2 <= weight s /\ 1 <= weight w)%nat.
Proof.
  unfold Re.op_bracket.
  destruct (Re.span_word s) as [w' r1] eqn:E.
  destruct (span_word_weight _ _ _ E) as [H1 H2].
  destruct w' as [|c w']; [discriminate|].
  destruct (lstrip r1) as [|d body] eqn:El; [discriminate|].
  destruct (Ascii.eqb_spec d "["); [|discriminate]. subst d.
  destruct (Re.bracket_body body) as [g'|] eqn:Eb; [|discriminate].
  intros [= <- <-].
  pose proof (bracket_body_weight _ _ Eb) as H3.
  pose proof (weight_lstrip r1) as H4. rewrite El in H4. simpl in H4.
  specialize (H2 ltac:(discriminate)). lia.
Qed.

Lemma method_call_weight s w g :
  Re.method_call s = Some (w, g) -> (weight w + weight g + 2 <= weight s /\ 1 <= weight w)%nat.
Proof.
  unfold Re.method_call.
  destruct (Re.span_word s) as [w' r1] eqn:E.
  destruct (span_word_weight _ _ _ E) as [H1 H2].
  destruct w' as [|c w']; [discriminate|].
  destruct (lstrip r1) as [|d body] eqn:El; [discriminate|].
  destruct (Ascii.eqb_spec d "("); [|discriminate]. subst d.
  destruct (Re.paren_body body) as [g'|] eqn:Eb; [|discriminate].
  intros [= <- <-].
  pose proof (paren_body_weight _ _ Eb) as H3.
  pose proof (weight_lstrip r1) as H4. rewrite El in H4. simpl in H4.
  specialize (H2 ltac:(discriminate)). lia.
Qed.

Lemma match_transform_weight e op inner :
  match_transform e = Some (op, inner) ->
  (weight op + weight inner + 2 <= weight e /\ 1 <= weight op)%nat.
Proof.
  unfold match_transform, Re.trns_op_bracket.
  destruct (startswith "trns:" (lower e)).
  - intros H. apply op_bracket_weight in H. rewrite weight_lstrip in H.
    pose proof (weight_drop_le 5 e). lia.
  - apply op_bracket_weight.
Qed.


Lemma weight_flush c : weight (flush c) = weight c.
Proof. unfold flush. now rewrite weight_strip, weight_rev. Qed.

Lemma lex_step_weight st ch :
  (sum_weight (args (lex_step st ch)) + weight (cur (lex_step st ch))
   = sum_weight (args st) + weight (cur st) + (if heavy ch then 1 else 0))%nat.
Proof.
  unfold lex_step.
  destruct (in_quote st); simpl; [lia|].
  destruct (is_quote ch); simpl; [lia|].
  destruct (Ascii.eqb ch "("); simpl; [lia|].
  destruct (Ascii.eqb ch ")"); simpl; [lia|].
  destruct (Ascii.eqb ch "["); simpl; [lia|].
  destruct (Ascii.eqb ch "]"); simpl; [lia|].
  destruct (Ascii.eqb_spec ch ","); simpl; [|lia].
  subst ch.
  destruct (depth_paren st =? 0); simpl; [|lia].
  destruct (depth_brack st =? 0); simpl; [|lia].
  rewrite weight_flush. lia.
Qed.

Lemma lex_run_weight s st :
  (sum_weight (args (lex_run st s)) + weight (cur (lex_run st s))
   = sum_weight (args st) + weight (cur st) + weight s)%nat.
Proof.
  revert st. induction s as [|ch s IH]; intros st; simpl; [lia|].
  rewrite IH, lex_step_weight. lia.
Qed.

Lemma sum_weight_app l1 l2 :
  sum_weight (l1 ++ l2) = (sum_weight l1 + sum_weight l2)%nat.
Proof. induction l1 as [|a l1 IH]; simpl; [reflexivity | rewrite IH; lia]. Qed.

Lemma sum_weight_rev l : sum_weight (List.rev l) = sum_weight l.
Proof.
  induction l as [|a l IH]; simpl; [reflexivity|].
  rewrite sum_weight_app, IH. simpl. lia.
Qed.

Lemma split_args_weight s : sum_weight (split_args s) = weight s.
Proof.
  unfold split_args.
  pose proof (lex_run_weight s lexer_init) as H. simpl in H.
  destruct (cur (lex_run lexer_init s)) as [|c r] eqn:E.
  - rewrite sum_weight_rev. simpl in H. lia.
  - rewrite sum_weight_rev. simpl sum_weight. rewrite weight_flush. lia.
Qed.

Lemma sum_weight_in a l : In a l -> (weight a <= sum_weight l)%nat.
Proof.
  induction l as [|b l IH]; simpl; [tauto|].
  intros [->|H]; [lia | specialize (IH H); lia].
Qed.

Lemma split_args_in_weight a s : In a (split_args s) -> (weight a <= weight s)%nat.
Proof. intros H. rewrite <- (split_args_weight s). now apply sum_weight_in. Qed.

Lemma weight_join l : weight (join ", " l) = sum_weight l.
Proof.
  unfold join. induction l as [|a l IH]; [reflexivity|].
  destruct l as [|b l]; [simpl; lia|].
  change (String.concat ", " (a :: b :: l))
    with (a +:+ ", " +:+ String.concat ", " (b :: l)).
  rewrite !weight_app, IH. simpl. lia.
Qed.

Lemma split_first_weight op s l r :
  split_first op s = Some (l, r) ->
  weight s = (weight l + weight op + weight r)%nat.
Proof.
  revert l r. induction s as [|c s IH]; intros l r; cbn [split_first].
  - destruct (startswith op EmptyString) eqn:E; [|discriminate].
    intros [= <- <-]. rewrite (weight_prefix _ _ E) at 1. simpl. lia.
  - destruct (startswith op (String c s)) eqn:E.
    + intros [= <- <-]. rewrite (weight_prefix _ _ E) at 1. simpl. lia.
    + destruct (split_first op s) as [[l' r']|]; [|discriminate].
      intros [= <- <-]. specialize (IH _ _ eq_refl). simpl. lia.
Qed.

(** ** Agreement of two runs of a parser *)


Lemma agree_ok {A} (a : A) : agree (Ok a) (Ok a).
Proof. split; [reflexivity | discriminate]. Qed.
Lemma agree_raise {A} e : agree (@Raise A e) (Raise e).
Proof. split; [reflexivity | discriminate]. Qed.
Lemma agree_beyond {A} : agree (@Beyond A) Beyond.
Proof. split; [reflexivity | discriminate]. Qed.

Lemma agree_pure {A} (r : result A) : r <> NoFuel -> agree r r.
Proof. now split. Qed.

Lemma agree_bind {A B} (r r' : result A) (k k' : A -> result B) :
  agree r r' -> (forall a, r = Ok a -> agree (k a) (k' a)) ->
  agree (bind r k) (bind r' k').
Proof.
  intros [<- Hd] Hk. destruct r as [a|e| |]; simpl.
  - now apply Hk.
  - apply agree_raise.
  - apply agree_beyond.
  - congruence.
Qed.

Lemma agree_mapM {A B} (f g : A -> result B) l :
  (forall a, In a l -> agree (f a) (g a)) -> agree (mapM f l) (mapM g l).
Proof.
  induction l as [|x l IH]; intros H; simpl; [apply agree_ok|].
  apply agree_bind; [apply H; now left|]. intros y _.
  apply agree_bind; [apply IH; intros; apply H; now right|].
  intros ys _. apply agree_ok.
Qed.

Lemma index_in {A} (l : list A) i a : index l i = Ok a -> In a l.
Proof.
  unfold index. destruct (nth_error l i) eqn:E; [|discriminate].
  intros [= <-]. eapply nth_error_In; eauto.
Qed.

Lemma index_defined {A} (l : list A) i : index l i <> NoFuel.
Proof. unfold index. destruct (nth_error l i); discriminate. Qed.

Lemma unpack2_in {A} (l : list A) ab : unpack2 l = Ok ab -> In (fst ab) l /\ In (snd ab) l.
Proof.
  destruct l as [|a [|b [|c l]]]; try discriminate.
  intros [= <-]. simpl. auto.
Qed.

Lemma unpack2_defined {A} (l : list A) : unpack2 l <> NoFuel.
Proof. destruct l as [|a [|b [|c l]]]; discriminate. Qed.

Lemma receiver_defined p : receiver p <> NoFuel.
Proof. destruct p; discriminate. Qed.
Lemma operand_defined p : operand p <> NoFuel.
Proof. destruct p; discriminate. Qed.

Lemma float_of_str_defined s : float_of_str s <> NoFuel.
Proof. unfold float_of_str. destruct (parse_float s); discriminate. Qed.

Lemma int_of_float_defined f : int_of_float f <> NoFuel.
Proof. destruct f; discriminate. Qed.

Lemma int_of_float_str_defined s : int_of_float_str s <> NoFuel.
Proof.
  unfold int_of_float_str. destruct (float_of_str s) eqn:E; simpl; try discriminate.
  - apply int_of_float_defined.
  - now apply float_of_str_defined in E.
Qed.

Lemma try_parse_literal_defined s : try_parse_literal s <> NoFuel.
Proof.
  unfold try_parse_literal.
  destruct (quoted_inner (strip s)); [discriminate|].
  destruct (is_number (strip s)).
  - destruct (has_char "." (strip s)).
    + destruct (float_of_str (strip s)) eqn:E; simpl; try discriminate.
      now apply float_of_str_defined in E.
    + destruct (int_of_float_str (strip s)) as [z| | |] eqn:E; simpl; try discriminate.
      * destruct (fits_int128 z); discriminate.
      * now apply int_of_float_str_defined in E.
  - repeat match goal with |- context [if ?b then _ else _] => destruct b end;
      discriminate.
Qed.

Lemma unquoted_at_defined l i : unquoted_at l i <> NoFuel.
Proof. unfold unquoted_at. destruct (index l i) eqn:E; simpl; try discriminate.
  now apply index_defined in E. Qed.

Lemma int_at_defined l i : int_at l i <> NoFuel.
Proof. unfold int_at. destruct (index l i) eqn:E; simpl; try discriminate.
  - apply int_of_float_str_defined.
  - now apply index_defined in E. Qed.

Lemma parse_method_call_defined s : parse_method_call s <> NoFuel.
Proof. unfold parse_method_call. destruct (Re.method_call (strip s)) as [[? ?]|]; discriminate. Qed.

Create HintDb agree.
#[local] Hint Resolve agree_ok agree_raise agree_beyond : agree.
#[local] Hint Resolve index_defined unpack2_defined receiver_defined operand_defined
  float_of_str_defined int_of_float_str_defined try_parse_literal_defined
  unquoted_at_defined int_at_defined parse_method_call_defined : agree.

(** Peel the binds and the tests of two runs of the same body. *)
Ltac agree_step :=
  match goal with
  | |- agree (Ok _) (Ok _) => apply agree_ok
  | |- agree (Raise _) (Raise _) => apply agree_raise
  | |- agree Beyond Beyond => apply agree_beyond
  | |- agree (bind _ _) (bind _ _) => apply agree_bind; [|intros ? ?]
  | |- agree (if ?b then _ else _) (if ?b then _ else _) => destruct b
  | |- agree (match ?x with _ => _ end) (match ?x with _ => _ end) => destruct x
  | |- agree ?r ?r => apply agree_pure; solve [auto with agree]
  | |- agree (mapM _ _) (mapM _ _) => apply agree_mapM; intros ? ?
  end.

Section Agreement.

Variables pv pv' pte pte' : string -> result parsed.
Variables pbe pbe' : string -> result expr.

Lemma agree_value_at l i :
  (forall a, In a l -> agree (pv a) (pv' a)) ->
  agree (value_at pv l i) (value_at pv' l i).
Proof.
  intros H. unfold value_at. apply agree_bind.
  - apply agree_pure. apply index_defined.
  - intros a Ha. apply H. eapply index_in; eauto.
Qed.

Ltac agree_call :=
  match goal with
  | |- agree (value_at _ _ _) (value_at _ _ _) => apply agree_value_at; assumption
  | H : forall a, In a ?l -> agree (?f a) (?g a) |- agree (?f ?x) (?g ?x) =>
      apply H;
      first [ assumption
            | eapply index_in; eassumption
            | match goal with
              | U : unpack2 _ = Ok _ |- _ =>
                  first [ apply (proj1 (unpack2_in _ _ U))
                        | apply (proj2 (unpack2_in _ _ U)) ]
              end ]
  end.

Ltac agree_auto := repeat first [ agree_call | agree_step ].

Section Args.

Variable l : list string.
Hypothesis Hv : forall a, In a l -> agree (pv a) (pv' a).
Hypothesis Hb : forall a, In a l -> agree (pbe a) (pbe' a).

Lemma agree_method_cmp op : agree (method_cmp pv op l) (method_cmp pv' op l).
Proof. unfold method_cmp. agree_auto. Qed.

Lemma agree_infix_cmp op : agree (infix_cmp pv op l) (infix_cmp pv' op l).
Proof. unfold infix_cmp. agree_auto. Qed.

Lemma agree_when_of : agree (when_of pv pbe l) (when_of pv' pbe' l).
Proof. unfold when_of. agree_auto. Qed.

Lemma agree_math m : agree (math pv m l) (math pv' m l).
Proof. unfold math. agree_auto. Qed.

Lemma agree_text_base : agree (text_base pv l) (text_base pv' l).
Proof. unfold text_base, as_text, dtype. agree_auto. Qed.

Lemma agree_str_method n : agree (str_method pv n l) (str_method pv' n l).
Proof. unfold str_method. apply agree_bind; [apply agree_text_base|]. intros; agree_auto. Qed.

Lemma agree_string_family m :
  agree (string_family pv m l) (string_family pv' m l).
Proof.
  unfold string_family.
  repeat first [ apply agree_str_method | apply agree_text_base | agree_call | agree_step ].
Qed.

Lemma agree_fold_bool op : agree (fold_bool pbe op l) (fold_bool pbe' op l).
Proof. unfold fold_bool. agree_auto. Qed.

Lemma agree_logical m : agree (logical pv pbe m l) (logical pv' pbe' m l).
Proof.
  unfold logical.
  repeat first [ apply agree_when_of | apply agree_fold_bool | agree_call | agree_step ].
Qed.

Lemma agree_date m : agree (date pv m l) (date pv' m l).
Proof. unfold date. agree_auto. Qed.

Lemma agree_arr_method n : agree (arr_method pv n l) (arr_method pv' n l).
Proof. unfold arr_method. agree_auto. Qed.

Lemma agree_arr_lengths : agree (arr_lengths pv l) (arr_lengths pv' l).
Proof. unfold arr_lengths. agree_auto. Qed.

Lemma agree_array m : agree (array pv m l) (array pv' m l).
Proof.
  unfold array.
  repeat first [ apply agree_arr_method | apply agree_arr_lengths | agree_call | agree_step ].
Qed.

Lemma agree_aggregation m : agree (aggregation pv m l) (aggregation pv' m l).
Proof.
  unfold aggregation.
  repeat first [ apply agree_arr_method | apply agree_arr_lengths | agree_call | agree_step ].
Qed.

Lemma agree_dispatch op m :
  (String.eqb op "BOOLEAN" = true ->
   let text := "BOOLEAN[" +:+ m +:+ "(" +:+ join ", " l +:+ ")]" in
   agree (pbe text) (pbe' text)) ->
  agree (dispatch pv pbe op m l) (dispatch pv' pbe' op m l).
Proof.
  intros Hre. unfold dispatch.
  destruct (String.eqb op "MATH"); [apply agree_math|].
  destruct (String.eqb op "STRING"); [apply agree_string_family|].
  destruct (String.eqb op "LOGICAL"); [apply agree_logical|].
  destruct (String.eqb op "BOOLEAN").
  { apply agree_bind; [now apply Hre|]. intros; apply agree_ok. }
  destruct (String.eqb op "FILTERS"); [apply agree_ok|].
  destruct (String.eqb op "FILTER"); [apply agree_ok|].
  destruct (String.eqb op "DIRECT").
  { destruct (String.eqb m "ATTR"); agree_auto. }
  destruct (String.eqb op "DATE"); [apply agree_date|].
  destruct (String.eqb op "ARRAY"); [apply agree_array|].
  destruct (String.eqb op "AGGREGATION"); [apply agree_aggregation|].
  apply agree_raise.
Qed.

End Args.

End Agreement.

Lemma weight_drop_last_le s : (weight (drop_last s) <= weight s)%nat.
Proof.
  unfold drop_last. destruct (unsnoc s) as [[r c]|] eqn:E; [|simpl; lia].
  rewrite (weight_unsnoc _ _ _ E). lia.
Qed.

Section BodyAgreement.

Variables pv pv' pte pte' : string -> result parsed.
Variables pbe pbe' : string -> result expr.

Lemma agree_infix_scan ops e :
  Forall (fun oc => (1 <= weight (fst oc))%nat) ops ->
  (forall a, (weight a < weight e)%nat -> agree (pv a) (pv' a)) ->
  agree (infix_scan pv ops e) (infix_scan pv' ops e).
Proof.
  intros Hops Hv. induction Hops as [|[op c] ops Hop _ IH]; simpl.
  - apply agree_raise.
  - destruct (split_first op e) as [[lhs rhs]|] eqn:E; [|exact IH].
    apply split_first_weight in E. simpl in Hop.
    assert (agree (pv (strip lhs)) (pv' (strip lhs)))
      by (apply Hv; rewrite weight_strip; lia).
    assert (agree (pv (strip rhs)) (pv' (strip rhs)))
      by (apply Hv; rewrite weight_strip; lia).
    destruct c; repeat first [assumption | agree_step].
Qed.

Lemma infix_ops_heavy : Forall (fun oc => (1 <= weight (fst oc))%nat) infix_ops.
Proof. repeat constructor. Qed.

Lemma agree_parse_boolean_expr_body e :
  (forall a, (weight a < weight e)%nat -> agree (pv a) (pv' a)) ->
  (forall a, (weight a < weight e)%nat -> agree (pbe a) (pbe' a)) ->
  agree (parse_boolean_expr_body pv pbe e) (parse_boolean_expr_body pv' pbe' e).
Proof.
  intros Hv Hb. unfold parse_boolean_expr_body.
  rewrite <- (weight_strip e) in Hv, Hb.
  set (t := strip e) in *. clearbody t.
  destruct (startswith "BOOLEAN[" t && endswith_char "]" t) eqn:E1.
  { destruct (Re.method_call (strip (drop_last (drop 8 t)))) as [[m a]|] eqn:Em;
      [|apply agree_raise].
    apply method_call_weight in Em. rewrite weight_strip in Em.
    pose proof (weight_drop_last_le (drop 8 t)).
    pose proof (weight_drop_le 8 t).
    assert (Hin : forall x, In x (split_args a) -> (weight x < weight t)%nat).
    { intros x Hx. apply split_args_in_weight in Hx. lia. }
    repeat match goal with
           | |- agree (if ?b then _ else _) (if ?b then _ else _) => destruct b
           end;
      first [ apply agree_method_cmp | apply agree_infix_cmp | apply agree_raise ];
      intros; apply Hv; auto. }
  destruct (startswith "IF(" t && endswith_char ")" t) eqn:E2.
  { apply andb_prop in E2 as [E2 _]. apply weight_prefix in E2.
    change (String.length "IF(") with 3%nat in E2.
    change (weight "IF(") with 3%nat in E2.
    pose proof (weight_drop_last_le (drop 3 t)).
    assert (Hin : forall x, In x (split_args (strip (drop_last (drop 3 t)))) ->
                       (weight x < weight t)%nat).
    { intros x Hx. apply split_args_in_weight in Hx. rewrite weight_strip in Hx. lia. }
    destruct (3 <=? List.length _)%nat; [|apply agree_raise].
    apply agree_when_of; intros; [apply Hv | apply Hb]; auto. }
  destruct (startswith "EQ(" t || startswith "GT(" t || startswith "LT(" t
            || startswith "GTE(" t || startswith "LTE(" t || startswith "NE(" t).
  { destruct (Re.method_call (strip t)) as [[m a]|] eqn:Em; [|apply agree_raise].
    apply method_call_weight in Em. rewrite weight_strip in Em.
    assert (Hin : forall x, In x (split_args a) -> (weight x < weight t)%nat).
    { intros x Hx. apply split_args_in_weight in Hx. lia. }
    repeat match goal with
           | |- agree (if ?b then _ else _) (if ?b then _ else _) => destruct b
           end;
      first [ apply agree_method_cmp | apply agree_infix_cmp | apply agree_raise ];
      intros; apply Hv; auto. }
  apply agree_infix_scan; [apply infix_ops_heavy | assumption].
Qed.

Lemma agree_parse_value_body t :
  agree (pte (strip t)) (pte' (strip t)) ->
  agree (parse_value_body pte t) (parse_value_body pte' t).
Proof.
  intros H. unfold parse_value_body.
  destruct (startswith "trns:" (strip t)); [assumption|].
  destruct (parse_attr (strip t)); [apply agree_ok|].
  repeat agree_step.
Qed.

Lemma agree_parse_transform_expression_body e :
  (forall a, (weight a < weight e)%nat -> agree (pv a) (pv' a)) ->
  (forall a, (weight a <= weight e)%nat -> agree (pbe a) (pbe' a)) ->
  agree (parse_transform_expression_body pv pbe e)
        (parse_transform_expression_body pv' pbe' e).
Proof.
  intros Hv Hb. unfold parse_transform_expression_body.
  rewrite <- (weight_strip e) in Hv, Hb.
  set (t := strip e) in *. clearbody t.
  destruct (match_transform t) as [[op inner]|] eqn:Em; [|apply agree_raise].
  apply match_transform_weight in Em.
  unfold parse_method_call.
  destruct (Re.method_call (strip (strip inner))) as [[m a]|] eqn:Ec;
    [|simpl; apply agree_raise].
  apply method_call_weight in Ec. rewrite !weight_strip in Ec.
  simpl bind. cbn [fst snd].
  assert (Hin : forall x, In x (split_args a) -> (weight x < weight t)%nat).
  { intros x Hx. apply split_args_in_weight in Hx. lia. }
  apply agree_dispatch.
  - intros; apply Hv; auto.
  - intros; apply Hb. specialize (Hin _ H). lia.
  - intros Hop. apply String.eqb_eq in Hop. cbv zeta. apply Hb.
    rewrite !weight_app, weight_join, split_args_weight, weight_upper.
    rewrite <- (weight_upper op), Hop in Em. simpl in *. lia.
Qed.

End BodyAgreement.

(** ** The budget does not matter once it is large enough *)

Lemma fuel_agree k :
  forall s, (weight s <= k)%nat ->
    (forall n m, (3 * weight s + 1 <= n)%nat -> (3 * weight s + 1 <= m)%nat ->
       agree (parse_boolean_expr_fuel n s) (parse_boolean_expr_fuel m s)) /\
    (forall n m, (3 * weight s + 2 <= n)%nat -> (3 * weight s + 2 <= m)%nat ->
       agree (parse_transform_expression_fuel n s) (parse_transform_expression_fuel m s)) /\
    (forall n m, (3 * weight s + 3 <= n)%nat -> (3 * weight s + 3 <= m)%nat ->
       agree (parse_value_fuel n s) (parse_value_fuel m s)).
Proof.
  induction k as [k IH] using lt_wf_ind. intros s Hs.
  assert (Hlt : forall a, (weight a < weight s)%nat -> forall n m,
             (3 * weight s <= n)%nat -> (3 * weight s <= m)%nat ->
             agree (parse_boolean_expr_fuel n a) (parse_boolean_expr_fuel m a) /\
             agree (parse_value_fuel n a) (parse_value_fuel m a)).
  { intros a Ha n m Hn Hm.
    destruct (IH (weight a) ltac:(lia) a (Nat.le_refl _)) as (Hb & _ & Hv).
    split; [apply Hb | apply Hv]; lia. }
  assert (HB : forall a, (weight a <= weight s)%nat -> forall n m,
             (3 * weight s + 1 <= n)%nat -> (3 * weight s + 1 <= m)%nat ->
             agree (parse_boolean_expr_fuel n a) (parse_boolean_expr_fuel m a)).
  { intros a Ha n m Hn Hm.
    destruct n as [|n]; [lia|]. destruct m as [|m]; [lia|]. simpl.
    apply agree_parse_boolean_expr_body.
    - intros x Hx.
      assert (Hk : (weight x < k)%nat) by lia.
      destruct (IH (weight x) Hk x (Nat.le_refl _)) as (_ & _ & Hv).
      apply Hv; lia.
    - intros x Hx.
      assert (Hk : (weight x < k)%nat) by lia.
      destruct (IH (weight x) Hk x (Nat.le_refl _)) as (Hb & _ & _).
      apply Hb; lia. }
  assert (HT : forall a, (weight a <= weight s)%nat -> forall n m,
             (3 * weight s + 2 <= n)%nat -> (3 * weight s + 2 <= m)%nat ->
             agree (parse_transform_expression_fuel n a)
                   (parse_transform_expression_fuel m a)).
  { intros a Ha n m Hn Hm.
    destruct n as [|n]; [lia|]. destruct m as [|m]; [lia|]. simpl.
    apply agree_parse_transform_expression_body.
    - intros x Hx.
      assert (Hk : (weight x < k)%nat) by lia.
      destruct (IH (weight x) Hk x (Nat.le_refl _)) as (_ & _ & Hv).
      apply Hv; lia.
    - intros x Hx. apply HB; lia. }
  split; [apply HB; lia|]. split; [apply HT; lia|].
  intros n m Hn Hm.
  destruct n as [|n]; [lia|]. destruct m as [|m]; [lia|]. simpl.
  apply agree_parse_value_body. apply HT; rewrite ?weight_strip; lia.
Qed.

Lemma weight_le_length s : (weight s <= String.length s)%nat.
Proof. induction s as [|c s IH]; simpl; [lia|]. destruct (heavy c); lia. Qed.

Lemma parse_value_fuel_agree n s :
  (3 * weight s + 3 <= n)%nat -> agree (parse_value_fuel n s) (parse_value s).
Proof.
  intros H. destruct (fuel_agree (weight s) s (Nat.le_refl _)) as (_ & _ & Hv).
  apply Hv; [assumption|]. unfold budget. pose proof (weight_le_length s). lia.
Qed.

Lemma parse_transform_expression_fuel_agree n s :
  (3 * weight s + 2 <= n)%nat ->
  agree (parse_transform_expression_fuel n s) (parse_transform_expression s).
Proof.
  intros H. destruct (fuel_agree (weight s) s (Nat.le_refl _)) as (_ & Ht & _).
  apply Ht; [assumption|]. unfold budget. pose proof (weight_le_length s). lia.
Qed.

Lemma parse_boolean_expr_fuel_agree n s :
  (3 * weight s + 1 <= n)%nat ->
  agree (parse_boolean_expr_fuel n s) (parse_boolean_expr s).
Proof.
  intros H. destruct (fuel_agree (weight s) s (Nat.le_refl _)) as (Hb & _ & _).
  apply Hb; [assumption|]. unfold budget. pose proof (weight_le_length s). lia.
Qed.

(** The entry points never exhaust their budget. *)
Lemma parse_total s :
  parse_value s <> NoFuel /\ parse_transform_expression s <> NoFuel /\
  parse_boolean_expr s <> NoFuel.
Proof.
  pose proof (weight_le_length s).
  split; [|split].
  - destruct (parse_value_fuel_agree (budget s + 3) s) as [_ H']; [unfold budget; lia|exact H'].
  - destruct (parse_transform_expression_fuel_agree (budget s + 2) s) as [_ H'];
      [unfold budget; lia|exact H'].
  - destruct (parse_boolean_expr_fuel_agree (budget s + 1) s) as [_ H'];
      [unfold budget; lia|exact H'].
Qed.

(** The entry points satisfy the recursive equations of the source. *)
Lemma parse_value_unfold t :
  parse_value t = parse_value_body parse_transform_expression t.
Proof.
  unfold parse_value. replace (budget t + 3)%nat with (S (budget t + 2)) by lia.
  cbn [parse_value_fuel].
  apply agree_parse_value_body.
  apply parse_transform_expression_fuel_agree.
  rewrite weight_strip. pose proof (weight_le_length t). unfold budget. lia.
Qed.

Lemma parse_transform_expression_unfold e :
  parse_transform_expression e
  = parse_transform_expression_body parse_value parse_boolean_expr e.
Proof.
  unfold parse_transform_expression.
  replace (budget e + 2)%nat with (S (budget e + 1)) by lia.
  cbn [parse_transform_expression_fuel].
  pose proof (weight_le_length e). unfold budget.
  apply agree_parse_transform_expression_body.
  - intros a Ha. apply parse_value_fuel_agree. lia.
  - intros a Ha. apply parse_boolean_expr_fuel_agree. lia.
Qed.

Lemma parse_boolean_expr_unfold e :
  parse_boolean_expr e = parse_boolean_expr_body parse_value parse_boolean_expr e.
Proof.
  unfold parse_boolean_expr at 1.
  replace (budget e + 1)%nat with (S (budget e)) by lia.
  cbn [parse_boolean_expr_fuel].
  pose proof (weight_le_length e). unfold budget.
  apply agree_parse_boolean_expr_body.
  - intros a Ha. apply parse_value_fuel_agree. lia.
  - intros a Ha. apply parse_boolean_expr_fuel_agree. lia.
Qed.

(* ===================================================================== *)
(** * Shapes of text the parsers read *)
(* ===================================================================== *)

Lemma startswith_trns_lower t :
  startswith "trns:" t = true -> startswith "trns:" (lower t) = true.
Proof.
  intros H. apply prefix_app in H. rewrite H. simpl.
  now destruct (smap lower_char _).
Qed.

Lemma parse_value_strip a : parse_value (strip a) = parse_value a.
Proof.
  rewrite !parse_value_unfold. unfold parse_value_body. now rewrite strip_idem.
Qed.

Lemma parse_transform_expression_strip t :
  parse_transform_expression (strip t) = parse_transform_expression t.
Proof.
  rewrite !parse_transform_expression_unfold.
  unfold parse_transform_expression_body. now rewrite strip_idem.
Qed.

Lemma rstrip_app_nonspace s c t :
  is_space c = false -> rstrip (String c t) = String c t ->
  rstrip (s +:+ String c t) = s +:+ String c t.
Proof.
  intros Hc Ht. induction s as [|d s IH]; simpl; [exact Ht|].
  change (String.append s (String c t)) with (s +:+ String c t).
  rewrite IH. destruct s; reflexivity.
Qed.

Lemma unsnoc_app s t r c :
  unsnoc t = Some (r, c) -> unsnoc (s +:+ t) = Some (s +:+ r, c).
Proof.
  intros H. induction s as [|d s IH]; simpl; [exact H|].
  change (String.append s t) with (s +:+ t). now rewrite IH.
Qed.

Lemma rstrip_pair a b c t :
  is_space c = false -> rstrip (String c t) = String c t ->
  rstrip (a +:+ String "," (b +:+ String c t))
  = a +:+ String "," (b +:+ String c t).
Proof.
  intros Hc Ht. apply rstrip_app_nonspace; [reflexivity|].
  rewrite rstrip_cons_nonspace by reflexivity. f_equal.
  now apply rstrip_app_nonspace.
Qed.

Lemma unsnoc_pair a b t r c :
  unsnoc t = Some (r, c) ->
  unsnoc (a +:+ String "," (b +:+ t)) = Some (a +:+ String "," (b +:+ r), c).
Proof.
  intros H. apply unsnoc_app. simpl.
  change (String.append b t) with (b +:+ t).
  now rewrite (unsnoc_app b t r c H).
Qed.

Lemma span_word_word c r :
  is_word c = true ->
  Re.span_word (String c r) = (String c (fst (Re.span_word r)), snd (Re.span_word r)).
Proof. intros H. simpl. rewrite H. now destruct (Re.span_word r). Qed.

Lemma span_word_stop c r :
  is_word c = false -> Re.span_word (String c r) = (EmptyString, String c r).
Proof. intros H. simpl. now rewrite H. Qed.

Ltac span_word :=
  repeat (rewrite span_word_word by reflexivity);
  rewrite span_word_stop by reflexivity;
  cbn [fst snd].

Lemma parse_filters rest :
  parse_transform_expression ("FILTERS[" +:+ rest)
  = bind (filter_rest rest) (fun ma => Ok (PFilter "FILTERS" (fst ma) (snd ma))).
Proof.
  rewrite parse_transform_expression_unfold. unfold parse_transform_expression_body.
  cbn [String.append]. rewrite strip_cons_nonspace by reflexivity.
  rewrite !rstrip_cons_nonspace by reflexivity.
  unfold match_transform. change (startswith "trns:" (lower _)) with false. cbv iota.
  unfold Re.op_bracket. span_word. rewrite lstrip_nonspace by reflexivity.
  change (Ascii.eqb "[" "[") with true. cbv iota.
  unfold filter_rest. destruct (Re.bracket_body (rstrip rest)); [|reflexivity].
  destruct (parse_method_call (strip s)) as [[? ?]| | |]; reflexivity.
Qed.

Lemma parse_filter rest :
  parse_transform_expression ("FILTER[" +:+ rest)
  = bind (filter_rest rest) (fun ma => Ok (PFilter "FILTER" (fst ma) (snd ma))).
Proof.
  rewrite parse_transform_expression_unfold. unfold parse_transform_expression_body.
  cbn [String.append]. rewrite strip_cons_nonspace by reflexivity.
  rewrite !rstrip_cons_nonspace by reflexivity.
  unfold match_transform. change (startswith "trns:" (lower _)) with false. cbv iota.
  unfold Re.op_bracket. span_word. rewrite lstrip_nonspace by reflexivity.
  change (Ascii.eqb "[" "[") with true. cbv iota.
  unfold filter_rest. destruct (Re.bracket_body (rstrip rest)); [|reflexivity].
  destruct (parse_method_call (strip s)) as [[? ?]| | |]; reflexivity.
Qed.

Lemma rstrip_strip t : rstrip (strip t) = strip t.
Proof.
  unfold strip. now rewrite <- (lstrip_rstrip_comm (rstrip t)), rstrip_idem.
Qed.

Lemma lstrip_spaces ws c r :
  lstrip ws = EmptyString -> is_space c = false ->
  lstrip (ws +:+ String c r) = String c r.
Proof.
  intros Hws Hc. induction ws as [|w ws IH]; simpl.
  - now rewrite Hc.
  - simpl in Hws. destruct (is_space w); [now apply IH | discriminate].
Qed.

Lemma strip_nonempty t c r : strip t = String c r -> String.eqb t EmptyString = false.
Proof. destruct t; [discriminate | reflexivity]. Qed.

Lemma parse_stripped_prefixed t ws rest :
  lstrip ws = EmptyString ->
  strip t = "trns:" +:+ ws +:+ "FILTERS[" +:+ rest ->
  parse_transform_expression t
  = bind (filter_rest rest) (fun ma => Ok (PFilter "FILTERS" (fst ma) (snd ma))).
Proof.
  intros Hws Hs. rewrite parse_transform_expression_unfold.
  unfold parse_transform_expression_body. rewrite Hs.
  unfold match_transform, Re.trns_op_bracket. cbn [String.append].
  replace (startswith "trns:" (lower _)) with true
    by (simpl; now destruct (smap lower_char _)).
  cbn [drop]. rewrite lstrip_spaces by (assumption || reflexivity).
  unfold Re.op_bracket. span_word. rewrite lstrip_nonspace by reflexivity.
  change (Ascii.eqb "[" "[") with true. cbv iota.
  assert (Hr : rstrip rest = rest).
  { pose proof (rstrip_strip t) as Hr. rewrite Hs in Hr. cbn [String.append] in Hr.
    rewrite !rstrip_cons_nonspace in Hr by reflexivity.
    injection Hr as Hr.
    revert Hr. clear. induction ws as [|w ws IH]; cbn [String.append].
    - rewrite !rstrip_cons_nonspace by reflexivity. now intros [= ->].
    - intros H. apply IH.
      destruct (rstrip (ws +:+ String "F" (String "I" (String "L" (String "T"
                (String "E" (String "R" (String "S" (String "[" rest))))))))) eqn:E.
      + exfalso. clear -E. induction ws as [|x ws IHw]; cbn [String.append] in E.
        * rewrite rstrip_cons_nonspace in E by reflexivity. discriminate.
        * simpl in E. destruct (rstrip _); [now apply IHw | discriminate].
      + simpl in H. rewrite E in H. now injection H. }
  unfold filter_rest. rewrite Hr.
  destruct (Re.bracket_body rest); [|reflexivity].
  destruct (parse_method_call (strip s)) as [[? ?]| | |]; reflexivity.
Qed.

(* ===================================================================== *)
(** * The lexer *)
(* ===================================================================== *)

Lemma rev_app_app a b : String.rev_app a b = String.rev a +:+ b.
Proof.
  unfold String.rev. revert b. induction a as [|c a IH]; intros b; cbn [String.rev_app].
  - reflexivity.
  - rewrite IH, (IH (String c EmptyString)).
    clear. induction (String.rev_app a EmptyString) as [|x r IHr]; cbn [String.append];
      [reflexivity | now rewrite IHr].
Qed.

Lemma rev_cons c s : String.rev (String c s) = String.rev s +:+ String c EmptyString.
Proof. unfold String.rev at 1. cbn [String.rev_app]. apply rev_app_app. Qed.

Lemma append_assoc (a b c : string) : (a +:+ b) +:+ c = a +:+ (b +:+ c).
Proof. induction a as [|x a IH]; cbn [String.append]; [reflexivity | now rewrite IH]. Qed.

Lemma rev_append a b : String.rev (a +:+ b) = String.rev b +:+ String.rev a.
Proof.
  induction a as [|c a IH]; cbn [String.append].
  - now rewrite append_nil_r.
  - now rewrite !rev_cons, IH, append_assoc.
Qed.

Lemma string_rev_involutive s : String.rev (String.rev s) = s.
Proof.
  induction s as [|c s IH]; [reflexivity|].
  rewrite rev_cons, rev_append, IH. reflexivity.
Qed.

Lemma rev_empty_iff s : String.rev s = EmptyString <-> s = EmptyString.
Proof.
  split; [|now intros ->].
  intros H. apply (f_equal String.rev) in H. now rewrite string_rev_involutive in H.
Qed.

(** One turn of the loop against the counters of section 4.1: the state
    follows the counters, and the current argument is closed exactly at a
    comma that stands at top level. *)
Lemma lex_step_tracks st k before ch :
  tracks st k before ->
  tracks (lex_step st ch) (Spec.after k before ch) (Some ch)
  /\ if Spec.top_level k && Ascii.eqb ch ","
     then args (lex_step st ch) = flush (cur st) :: args st
          /\ cur (lex_step st ch) = EmptyString
     else args (lex_step st ch) = args st
          /\ cur (lex_step st ch) = String ch (cur st).
Proof.
  destruct st as [a c dp db q p], k as [kp kb kq].
  unfold tracks. cbn [depth_paren depth_brack in_quote prev Spec.parens Spec.brackets
                      Spec.quote]. intros (-> & -> & -> & ->).
  unfold lex_step, Spec.after, Spec.top_level, Spec.escaped.
  cbn [depth_paren depth_brack in_quote prev args cur Spec.parens Spec.brackets
       Spec.quote].
  destruct kq as [q|].
  - cbn [andb].
    destruct (Ascii.eqb ch q); cbn [andb];
      [destruct before as [b|]; [destruct (Ascii.eqb b "\")|] |]; cbn [negb];
      repeat split.
  - destruct (Ascii.eqb_spec ch ",") as [->|Hne].
    + cbn [is_quote Ascii.eqb Bool.eqb orb andb].
      destruct (kp =? 0), (kb =? 0); cbn [andb]; repeat split.
    + rewrite andb_false_r.
      destruct (is_quote ch); [repeat split|].
      destruct (Ascii.eqb ch "("); [repeat split|].
      destruct (Ascii.eqb ch ")"); [repeat split|].
      destruct (Ascii.eqb ch "["); [repeat split|].
      destruct (Ascii.eqb ch "]"); [repeat split|].
      cbn [andb]. repeat split.
Qed.

Lemma pieces_from_cons k before s :
  exists p ps, Spec.pieces_from k before s = p :: ps.
Proof.
  revert k before. induction s as [|ch s IH]; intros k before; cbn [Spec.pieces_from].
  - eauto.
  - destruct (IH (Spec.after k before ch) (Some ch)) as (p & ps & ->).
    destruct (_ && _); eauto.
Qed.

Lemma removelast_cons {A} (x y : A) l : removelast (x :: y :: l) = x :: removelast (y :: l).
Proof. reflexivity. Qed.

Lemma last_cons {A} (x y : A) l d : List.last (x :: y :: l) d = List.last (y :: l) d.
Proof. reflexivity. Qed.

(** The run of the lexer against the pieces of section 4.1: the arguments
    closed so far are the trimmed pieces but the last, and the current
    argument is the last piece. *)
Lemma lex_run_pieces s : forall st k before,
  tracks st k before ->
  let q := resume (String.rev (cur st)) (Spec.pieces_from k before s) in
  args (lex_run st s) = List.rev (map strip (removelast q)) ++ args st
  /\ String.rev (cur (lex_run st s)) = List.last q EmptyString.
Proof.
  induction s as [|ch s IH]; intros st k before Ht; cbn [lex_run Spec.pieces_from].
  - cbn. now rewrite append_nil_r.
  - destruct (lex_step_tracks st k before ch Ht) as [Ht' Hs].
    specialize (IH _ _ _ Ht'). cbv zeta in IH. destruct IH as [IHa IHc].
    destruct (pieces_from_cons (Spec.after k before ch) (Some ch) s) as (p & ps & E).
    rewrite E in IHa, IHc |- *. cbv zeta.
    destruct (Spec.top_level k && Ascii.eqb ch ","); destruct Hs as [Ha Hc];
      rewrite Ha, Hc in *; cbn [resume] in *.
    + change (String.rev EmptyString +:+ p) with p in IHa, IHc.
      rewrite append_nil_r, removelast_cons, last_cons.
      rewrite IHa, IHc. cbn [map List.rev]. unfold flush.
      now rewrite <- app_assoc.
    + rewrite rev_cons, append_assoc in IHa, IHc. exact (conj IHa IHc).
Qed.

Lemma pieces_length k before s :
  List.length (Spec.pieces_from k before s)
  = S (Spec.top_level_commas_from k before s).
Proof.
  revert k before. induction s as [|ch s IH]; intros k before;
    cbn [Spec.pieces_from Spec.top_level_commas_from]; [reflexivity|].
  specialize (IH (Spec.after k before ch) (Some ch)).
  destruct (pieces_from_cons (Spec.after k before ch) (Some ch) s) as (p & ps & E).
  rewrite E in IH |- *.
  destruct (_ && _); cbn [List.length] in *; lia.
Qed.

Lemma tracks_init : tracks lexer_init Spec.outside None.
Proof. repeat split. Qed.

(** What [split_args] returns, in the words of section 4.1: the trimmed
    pieces, without the last one when it is empty. *)
Lemma split_args_pieces s :
  split_args s
  = map strip (if String.eqb (Spec.last_argument s) EmptyString
               then removelast (Spec.pieces s) else Spec.pieces s).
Proof.
  unfold split_args, Spec.last_argument, Spec.pieces.
  destruct (lex_run_pieces s lexer_init _ _ tracks_init) as [Ha Hc]. cbv zeta in *.
  destruct (pieces_from_cons Spec.outside None s) as (p & ps & E).
  rewrite E in *. cbn [resume lexer_init cur args] in Ha, Hc.
  change (String.rev EmptyString +:+ p) with p in Ha, Hc.
  rewrite app_nil_r in Ha. rewrite <- Hc.
  destruct (cur (lex_run lexer_init s)) as [|c r] eqn:Ec.
  - cbn [String.rev String.rev_app String.eqb]. rewrite Ha. apply List.rev_involutive.
  - destruct (String.eqb_spec (String.rev (String c r)) EmptyString) as [H|_];
      [apply (proj1 (rev_empty_iff _)) in H; discriminate H|].
    cbn [List.rev]. rewrite Ha, List.rev_involutive. unfold flush. rewrite Hc.
    rewrite <- (map_app strip _ [List.last (p :: ps) EmptyString]).
    f_equal. symmetry. apply app_removelast_last. discriminate.
Qed.

(** C7 (amended).  For every argument string, [split_args] returns the
    texts that stand between the top-level commas, each trimmed of leading
    and trailing white space, except that an empty text after the last
    top-level comma is left out; so the number of arguments is the number
    of top-level commas, plus one when the text after the last of them is
    not empty (and the empty string has no argument). *)
Theorem split_args_count (s : string) :
  split_args s
    = map strip (if String.eqb (Spec.last_argument s) EmptyString
                 then removelast (Spec.pieces s) else Spec.pieces s)
  /\ List.length (split_args s)
     = (Spec.top_level_commas s
        + (if String.eqb (Spec.last_argument s) EmptyString then 0 else 1))%nat
  /\ Forall Spec.trimmed (split_args s).
Proof.
  split; [apply split_args_pieces|]. rewrite split_args_pieces. split.
  - rewrite length_map. unfold Spec.top_level_commas.
    pose proof (pieces_length Spec.outside None s) as H. fold (Spec.pieces s) in H.
    destruct (String.eqb _ _); [|lia].
    destruct (Spec.pieces s) as [|p ps] eqn:E; [discriminate|].
    rewrite (app_removelast_last EmptyString (l := p :: ps)) in H by discriminate.
    rewrite length_app in H. cbn [List.length] in H. lia.
  - apply Stdlib.Lists.List.Forall_forall. intros a Ha. apply in_map_iff in Ha as (x & <- & _).
    apply strip_idem.
Qed.

(** A trailing comma: the text is well balanced and has two top-level
    commas, section 4.1 asks for three arguments, the last of them empty,
    and two are produced. *)
Lemma split_args_trailing_comma_dropped :
  Spec.well_balanced "a,b," = true
  /\ map strip (Spec.pieces "a,b,") = ["a"; "b"; EmptyString]
  /\ split_args "a,b," = ["a"; "b"]
  /\ List.length (split_args "a,b,") <> (1 + Spec.top_level_commas "a,b,")%nat.
Proof. vm_compute. repeat split; discriminate. Qed.

(* ===================================================================== *)
(** * The expression parser *)
(* ===================================================================== *)

(** C8 (amended).  [MATH[DIV(a,b)]] is parsed without any test of the
    divisor: whenever [a] and [b] are single arguments that the value parser
    accepts, the result is the quotient expression, whether [b] is the
    literal zero, another literal or a column. *)
Theorem div_has_no_zero_check (a b : string) (x y : expr) :
  split_args (a +:+ "," +:+ b) = [strip a; strip b] ->
  parse_value a = Ok (PExpr x) ->
  parse_value b = Ok (PExpr y) ->
  parse_transform_expression ("MATH[DIV(" +:+ a +:+ "," +:+ b +:+ ")]")
    = Ok (PExpr (Arith Div x y)).
Proof.
  intros Hs Ha Hb. cbn [String.append] in Hs.
  rewrite parse_transform_expression_unfold.
  unfold parse_transform_expression_body.
  assert (E1 : strip ("MATH[DIV(" +:+ a +:+ "," +:+ b +:+ ")]")
               = "MATH[DIV(" +:+ a +:+ "," +:+ b +:+ ")]").
  { cbn [String.append]. rewrite strip_cons_nonspace by reflexivity.
    rewrite !rstrip_cons_nonspace by reflexivity.
    now rewrite rstrip_pair. }
  rewrite E1.
  assert (E2 : match_transform ("MATH[DIV(" +:+ a +:+ "," +:+ b +:+ ")]")
               = Some ("MATH", "DIV(" +:+ a +:+ "," +:+ b +:+ ")")).
  { unfold match_transform. cbn [String.append].
    change (startswith "trns:" (lower _)) with false. cbv iota.
    unfold Re.op_bracket. span_word.
    rewrite lstrip_nonspace by reflexivity.
    change (Ascii.eqb "[" "[") with true. cbv iota.
    unfold Re.bracket_body, endswith_char, drop_last.
    rewrite !rstrip_cons_nonspace by reflexivity.
    rewrite rstrip_pair by reflexivity.
    cbn [unsnoc].
    rewrite (unsnoc_pair a b ")]" ")" "]") by reflexivity.
    reflexivity. }
  rewrite E2.
  assert (E3 : parse_method_call (strip ("DIV(" +:+ a +:+ "," +:+ b +:+ ")"))
               = Ok ("DIV", [strip a; strip b])).
  { unfold parse_method_call. rewrite strip_idem.
    assert (E : strip ("DIV(" +:+ a +:+ "," +:+ b +:+ ")")
                = "DIV(" +:+ a +:+ "," +:+ b +:+ ")").
    { cbn [String.append]. rewrite strip_cons_nonspace by reflexivity.
      rewrite !rstrip_cons_nonspace by reflexivity.
      now rewrite rstrip_pair. }
    rewrite E. unfold Re.method_call. cbn [String.append]. span_word.
    rewrite lstrip_nonspace by reflexivity.
    change (Ascii.eqb "(" "(") with true. cbv iota.
    unfold Re.paren_body.
    rewrite (unsnoc_pair a b ")" EmptyString ")") by reflexivity.
    change (Ascii.eqb ")" ")") with true. cbv iota.
    rewrite append_nil_r, Hs. reflexivity. }
  rewrite E3. simpl bind. cbn [fst snd].
  unfold dispatch. change (String.eqb (upper "MATH") "MATH") with true. cbv iota.
  unfold math, value_at. simpl.
  rewrite !parse_value_strip, Ha, Hb. reflexivity.
Qed.

Lemma div_has_no_zero_check_witness :
  parse_transform_expression "MATH[DIV(ATTR('x'), 0)]"
    = Ok (PExpr (Arith Div (Col "x") (Lit (PyInt 0)))).
Proof.
  exact (div_has_no_zero_check "ATTR('x')" " 0" (Col "x") (Lit (PyInt 0))
           eq_refl eq_refl eq_refl).
Defined.

(** Division by the literal zero raises no error at parsing. *)
Lemma div_by_literal_zero_parses :
  ~ (exists e, parse_transform_expression "MATH[DIV(ATTR('x'), 0)]" = Raise e).
Proof. intros [e H]. vm_compute in H. discriminate H. Qed.

(* ===================================================================== *)
(** * The backend operations *)
(* ===================================================================== *)

Lemma bind_ok {A B} (r : result A) (k : A -> result B) b :
  bind r k = Ok b -> exists a, r = Ok a /\ k a = Ok b.
Proof. destruct r; simpl; try discriminate. eauto. Qed.

Lemma reraise_ok {A} e (r : result A) a : reraise e r = Ok a -> r = Ok a.
Proof. destruct r; simpl; try discriminate; auto. Qed.

Lemma mapM_length {A B} (f : A -> result B) l l' :
  mapM f l = Ok l' -> List.length l' = List.length l.
Proof.
  revert l'. induction l as [|x l IH]; intros l'; simpl.
  - now intros [= <-].
  - intros H. apply bind_ok in H as (y & _ & H).
    apply bind_ok in H as (ys & Hys & H). injection H as <-.
    simpl. now rewrite (IH _ Hys).
Qed.

Lemma mapM_lookup {A B} (f : A -> result B) l l' i x :
  mapM f l = Ok l' -> l !! i = Some x -> exists y, f x = Ok y /\ l' !! i = Some y.
Proof.
  revert l' i. induction l as [|a l IH]; intros l' i; simpl; [discriminate 2|].
  intros H Hx. apply bind_ok in H as (y & Hy & H).
  apply bind_ok in H as (ys & Hys & H). injection H as <-.
  destruct i as [|i]; simpl in *.
  - injection Hx as <-. eauto.
  - eapply IH; eauto.
Qed.

Lemma mapM_is_true xs :
  forallb Spec.boolean_cell xs = true -> mapM is_true xs = Ok (map Spec.is_true_cell xs).
Proof.
  induction xs as [|x xs IH]; simpl; [reflexivity|].
  intros H. apply andb_prop in H as [Hx Hxs]. rewrite (IH Hxs).
  destruct x as [|[]| | | |]; try discriminate; reflexivity.
Qed.

Lemma mapM_not_cell xs :
  forallb Spec.boolean_cell xs = true ->
  exists ys, mapM not_cell xs = Ok ys
             /\ forallb Spec.boolean_cell ys = true
             /\ map Spec.is_true_cell ys = map Spec.is_false_cell xs
             /\ List.length ys = List.length xs.
Proof.
  induction xs as [|x xs IH]; simpl.
  - intros _. exists []. auto.
  - intros H. apply andb_prop in H as [Hx Hxs].
    destruct (IH Hxs) as (ys & E & B & M & L). rewrite E.
    destruct x as [|[]| | | |]; try discriminate; simpl;
      eexists; (split; [reflexivity|]); simpl; rewrite B, M, L; auto.
Qed.

Lemma map_repeat {A B} (f : A -> B) x n : map f (repeat x n) = repeat (f x) n.
Proof. induction n; simpl; [reflexivity | now rewrite IHn]. Qed.

Lemma filter_true df pred c cs :
  eval df pred = Ok c -> Spec.predicate_on df c = Some cs ->
  Frame.filter df pred = Ok (Spec.rows_where (map Spec.is_true_cell cs) df).
Proof.
  intros He Hp. unfold Frame.filter, mask. rewrite He. simpl bind.
  destruct c as [x|xs]; simpl in Hp.
  - destruct (Spec.boolean_cell x) eqn:Bx; [|discriminate]. injection Hp as <-.
    rewrite map_repeat.
    destruct x as [|[]| | | |]; try discriminate; reflexivity.
  - destruct (forallb Spec.boolean_cell xs && (List.length xs =? height df)%nat) eqn:B;
      [|discriminate].
    injection Hp as <-. apply andb_prop in B as [B L]. rewrite L.
    now rewrite (mapM_is_true _ B).
Qed.

Lemma filter_false df pred c cs :
  eval df pred = Ok c -> Spec.predicate_on df c = Some cs ->
  Frame.filter df (ENot pred) = Ok (Spec.rows_where (map Spec.is_false_cell cs) df).
Proof.
  intros He Hp. unfold Frame.filter, mask. cbn [eval]. rewrite He. simpl bind.
  destruct c as [x|xs]; simpl in Hp.
  - destruct (Spec.boolean_cell x) eqn:Bx; [|discriminate]. injection Hp as <-.
    rewrite map_repeat.
    destruct x as [|[]| | | |]; try discriminate; reflexivity.
  - destruct (forallb Spec.boolean_cell xs && (List.length xs =? height df)%nat) eqn:B;
      [|discriminate].
    injection Hp as <-. apply andb_prop in B as [B L].
    destruct (mapM_not_cell xs B) as (ys & E & By & M & Ly).
    unfold lift1. rewrite E. simpl bind. rewrite Ly, L.
    now rewrite (mapM_is_true _ By), M.
Qed.

Lemma null_flags cs i :
  cs !! i = Some CNull ->
  map Spec.is_true_cell cs !! i = Some false
  /\ map Spec.is_false_cell cs !! i = Some false.
Proof. intros H. rewrite !list_lookup_fmap, H. auto. Qed.

Lemma head_nonneg df n :
  0 <= n < 2 ^ 64 -> Frame.head df n = Ok (map_rows (firstn (Z.to_nat n)) df).
Proof.
  intros H. unfold Frame.head.
  destruct (Z.leb_spec (2 ^ 64) n); [lia|].
  destruct (Z.leb_spec 0 n); [reflexivity | lia].
Qed.

Lemma slice_nonneg df n :
  0 <= n < 2 ^ 63 -> Frame.slice df n = Ok (map_rows (skipn (Z.to_nat n)) df).
Proof.
  intros H. unfold Frame.slice.
  destruct (Z.ltb_spec n (- 2 ^ 63)); [lia|].
  destruct (Z.leb_spec (2 ^ 63) n); [lia|].
  destruct (Z.leb_spec 0 n); [reflexivity | lia].
Qed.



Lemma map_rows_map_rows f g df :
  map_rows f (map_rows g df) = map_rows (fun c => f (g c)) df.
Proof. unfold map_rows. rewrite map_map. reflexivity. Qed.

Lemma columns_combine (names : list string) (cols : list (list cell)) :
  List.length names = List.length cols -> columns (combine names cols) = names.
Proof.
  unfold columns. revert cols. induction names as [|n names IH]; intros [|c cols];
    simpl; try discriminate; [reflexivity|].
  intros [= H]. now rewrite IH.
Qed.

Lemma select_ok df es out :
  select df es = Ok out ->
  exists names cols h,
    mapM output_name es = Ok names /\ mapM (eval df) es = Ok cols
    /\ common_height cols = Ok h
    /\ out = combine names (map (broadcast (default 1%nat h)) cols).
Proof.
  unfold select. intros H.
  apply bind_ok in H as (names & Hn & H).
  apply bind_ok in H as (cols & Hc & H).
  destruct (has_dup names); [discriminate|].
  apply bind_ok in H as (h & Hh & H). injection H as <-.
  exists names, cols, h. auto.
Qed.

Lemma select_columns df es out names :
  select df es = Ok out -> mapM output_name es = Ok names -> columns out = names.
Proof.
  intros H Hn. apply select_ok in H as (names' & cols & h & Hn' & Hc & _ & ->).
  rewrite Hn in Hn'. injection Hn' as <-.
  apply columns_combine. rewrite length_map.
  apply mapM_length in Hn, Hc. congruence.
Qed.

Lemma common_height_series cols h :
  common_height cols = Ok h ->
  forall c n, In c cols -> series_length c = Some n -> h = Some n.
Proof.
  revert h. induction cols as [|c cols IH]; intros h; simpl; [intros _ ? ? []|].
  intros H. apply bind_ok in H as (h' & Hh' & H).
  intros x n [->|Hin] Hx.
  - rewrite Hx in H. destruct h' as [m|].
    + destruct (Nat.eqb_spec n m); [|discriminate]. injection H as <-. congruence.
    + now injection H as <-.
  - pose proof (IH _ Hh' _ _ Hin Hx) as ->.
    destruct (series_length c) as [k|]; [|now injection H as <-].
    destruct (Nat.eqb_spec k n); [|discriminate]. now injection H as <-.
Qed.

Lemma broadcast_length cols h c :
  common_height cols = Ok h -> In c cols ->
  List.length (broadcast (default 1%nat h) c) = default 1%nat h.
Proof.
  intros Hh Hin. destruct c as [x|cs]; simpl; [apply repeat_length|].
  now rewrite (common_height_series _ _ Hh (Series cs) _ Hin eq_refl).
Qed.

Lemma lookup_combine {A B} (l1 : list A) (l2 : list B) i x y :
  l1 !! i = Some x -> l2 !! i = Some y -> combine l1 l2 !! i = Some (x, y).
Proof.
  revert l2 i. induction l1 as [|a l1 IH]; intros [|b l2] [|i]; simpl;
    try discriminate.
  - now intros [= <-] [= <-].
  - apply IH.
Qed.

Lemma select_height df es out names cols h :
  mapM output_name es = Ok names -> mapM (eval df) es = Ok cols ->
  common_height cols = Ok h ->
  out = combine names (map (broadcast (default 1%nat h)) cols) ->
  es <> [] -> height out = default 1%nat h.
Proof.
  intros Hn Hc Hh -> Hne.
  destruct es as [|e es]; [congruence|].
  simpl in Hn, Hc.
  apply bind_ok in Hn as (n & _ & Hn). apply bind_ok in Hn as (ns & _ & Hn).
  apply bind_ok in Hc as (c & _ & Hc). apply bind_ok in Hc as (cs & _ & Hc).
  injection Hn as <-. injection Hc as <-. simpl.
  apply (broadcast_length (c :: cs)); [assumption | now left].
Qed.

(* ===================================================================== *)
(** * The mapping compiler *)
(* ===================================================================== *)

Lemma lit_ok v e : lit v = Ok e -> e = Lit v.
Proof.
  destruct v as [| | z | | |]; cbn [lit]; try (now intros [= <-]); try discriminate.
  destruct (fits_int128 z); [now intros [= <-] | discriminate].
Qed.

Lemma lit_cell v e : lit v = Ok e -> exists c, cell_of_lit v = Ok c.
Proof. destruct v; cbn [lit cell_of_lit]; try discriminate; eauto. Qed.

Lemma build_with_transform df (m : mapping) t src :
  Spec.transform_of m = PyStr t ->
  String.eqb t EmptyString = false ->
  bind_source df (py_or (get m "source") (get m "affected_source"))
              (PyStr t) (get m "default") = Ok (Source src) ->
  _build_expr_for_mapping df m = apply_transform (PyStr t) src.
Proof.
  intros Ht Hne Hs. unfold _build_expr_for_mapping.
  unfold Spec.transform_of in Ht. rewrite Ht, Hs. cbn [bind truthy].
  now rewrite Hne.
Qed.

Lemma coerce_filter t src op method args :
  coerce_simple_transform t src = Ok (PFilter op method args) ->
  parse_transform_expression t = Ok (PFilter op method args).
Proof.
  unfold coerce_simple_transform, as_text, dtype. cbn [bind].
  destruct (startswith "trns:" (lower (strip t)));
    [now rewrite parse_transform_expression_strip|].
  destruct (existsb _ unprefixed_families);
    [now rewrite parse_transform_expression_strip|].
  repeat match goal with
         | |- context [if ?b then _ else _] => destruct b; [discriminate|]
         end.
  destruct (Re.keyword_quoted "date_format" (strip t)); [discriminate|].
  destruct (Re.keyword_quoted "to_date" (strip t)); discriminate.
Qed.

Lemma build_none_is_filter df (m : mapping) :
  _build_expr_for_mapping df m = Ok None ->
  exists t op method args,
    Spec.transform_of m = PyStr t
    /\ parse_transform_expression t = Ok (PFilter op method args).
Proof.
  unfold _build_expr_for_mapping, Spec.transform_of. intros H.
  apply bind_ok in H as (b & _ & H). destruct b as [e|src]; [discriminate|].
  destruct (truthy (py_or (get m "transform") (get m "trns"))).
  - unfold apply_transform in H. apply reraise_ok in H.
    destruct (py_or (get m "transform") (get m "trns")) as [| | | |t|];
      try discriminate.
    exists t.
    destruct (startswith "trns:" (lower (strip t))).
    + apply bind_ok in H as ([e|op method args] & Hp & H); [discriminate|]. eauto.
    + apply bind_ok in H as ([e|op method args] & Hp & H); [discriminate|].
      apply coerce_filter in Hp. eauto.
  - destruct (_ && _); discriminate.
Qed.

(** The projection of a mapping stands in the list of the executor under
    the name the executor reads for it. *)
Lemma build_select_lookup df ms es (m : mapping) e :
  build_select df ms = Ok es -> In m ms ->
  _build_expr_for_mapping df m = Ok (Some e) ->
  exists i n, alias_name m = PyStr n /\ es !! i = Some (Alias e n).
Proof.
  revert es. induction ms as [|m0 ms IH]; intros es; cbn [build_select]; [intros _ []|].
  intros H Hin Hb. apply bind_ok in H as (oe & Hb0 & H).
  destruct Hin as [->|Hin].
  - rewrite Hb in Hb0. injection Hb0 as <-.
    apply bind_ok in H as (a & Ha & H). apply bind_ok in H as (es' & _ & [= <-]).
    unfold aliased in Ha. destruct (alias_name m) as [| | | |n|]; try discriminate.
    injection Ha as <-. now exists 0%nat, n.
  - destruct oe as [e0|].
    + apply bind_ok in H as (a & _ & H). apply bind_ok in H as (es' & Hes & [= <-]).
      destruct (IH _ Hes Hin Hb) as (i & n & Hn & Hi). now exists (S i), n.
    + destruct (IH _ H Hin Hb) as (i & n & Hn & Hi). now exists i, n.
Qed.

(** What the executor computes, step by step. *)
Lemma apply_transformations_ok df ms out :
  apply_transformations df ms = Ok out ->
  exists es df2,
    build_select df ms = Ok es /\ filter_phase df ms = Ok df2
    /\ select df2 es = Ok out.
Proof.
  unfold apply_transformations. destruct ms as [|m0 ms]; [discriminate|].
  intros H. apply bind_ok in H as (es & Hes & H). apply reraise_ok in H.
  apply bind_ok in H as (df2 & Hdf & H). now exists es, df2.
Qed.

Lemma common_height_scalars cols :
  Forall (fun c => series_length c = None) cols -> common_height cols = Ok None.
Proof.
  induction 1 as [|c cols Hc _ IH]; cbn [common_height]; [reflexivity|].
  now rewrite IH, Hc.
Qed.

(** The column of a literal in a selection, and the height of the
    selection. *)
Lemma select_literal df2 es out i v n c :
  select df2 es = Ok out ->
  es !! i = Some (Alias (Lit v) n) ->
  cell_of_lit v = Ok c ->
  out !! i = Some (n, repeat c (height out))
  /\ (forall j x cs, es !! j = Some x -> eval df2 x = Ok (Series cs) ->
        height out = List.length cs)
  /\ ((forall j x, es !! j = Some x -> exists y, eval df2 x = Ok (Scalar y)) ->
      height out = 1%nat).
Proof.
  intros Hsel Hi Hc.
  pose proof Hsel as Hsel'.
  apply select_ok in Hsel' as (names & cols & h & Hn & Hcs & Hh & Hout).
  assert (Hne : es <> []) by (intros ->; discriminate Hi).
  pose proof (select_height _ _ _ _ _ _ Hn Hcs Hh Hout Hne) as Hheight.
  split; [|split].
  - destruct (mapM_lookup _ _ _ _ _ Hn Hi) as (n' & Hn' & Hni).
    destruct (mapM_lookup _ _ _ _ _ Hcs Hi) as (c' & Hc' & Hci).
    simpl in Hn'. injection Hn' as <-.
    simpl in Hc'. rewrite Hc in Hc'. simpl in Hc'. injection Hc' as <-.
    rewrite Hout at 1. rewrite Hheight.
    apply lookup_combine; [assumption|].
    rewrite list_lookup_fmap, Hci. reflexivity.
  - intros j x cs Hj Hx.
    destruct (mapM_lookup _ _ _ _ _ Hcs Hj) as (c' & Hc' & Hcj).
    rewrite Hx in Hc'. injection Hc' as <-.
    rewrite Hheight.
    rewrite (common_height_series _ _ Hh (Series cs) (List.length cs));
      [reflexivity | | reflexivity].
    apply list_elem_of_In. eapply list_elem_of_lookup_2; eauto.
  - intros Hall. rewrite Hheight.
    assert (Hs : Forall (fun c => series_length c = None) cols).
    { apply Stdlib.Lists.List.Forall_forall. intros x Hx.
      apply list_elem_of_In, list_elem_of_lookup_1 in Hx as (j & Hj).
      destruct (es !! j) as [e|] eqn:Ej.
      - destruct (mapM_lookup _ _ _ _ _ Hcs Ej) as (c' & Hc' & Hcj).
        destruct (Hall _ _ Ej) as (y & Hy). rewrite Hy in Hc'. injection Hc' as <-.
        rewrite Hj in Hcj. now injection Hcj as ->.
      - apply lookup_lt_Some in Hj. apply lookup_ge_None in Ej.
        apply mapM_length in Hcs. lia. }
    rewrite (common_height_scalars _ Hs) in Hh. now injection Hh as <-.
Qed.


(** C10 (amended).  For a mapping whose source resolves and whose transform
    text, once trimmed, is [FILTERS[...]] without the prefix, building the
    expression raises a [TransformError]; when that text is a well-formed
    FILTERS action, the same action written [FILTER[...]], or written with
    the prefix [trns:] before [FILTERS[...]], builds to the source's [None]
    without an error. *)
Theorem filters_family_needs_prefix
    (df : DataFrame) (m : mapping) (t rest : string) (src : expr) :
  Spec.transform_of m = PyStr t ->
  bind_source df (py_or (get m "source") (get m "affected_source"))
              (PyStr t) (get m "default") = Ok (Source src) ->
  (strip t = "FILTERS[" +:+ rest ->
   _build_expr_for_mapping df m = Raise TransformError)
  /\ (forall op method args,
        parse_transform_expression ("FILTERS[" +:+ rest) = Ok (PFilter op method args) ->
        (strip t = "FILTER[" +:+ rest -> _build_expr_for_mapping df m = Ok None)
        /\ (forall ws, lstrip ws = EmptyString ->
              strip t = "trns:" +:+ ws +:+ "FILTERS[" +:+ rest ->
              _build_expr_for_mapping df m = Ok None)).
Proof.
  intros Ht Hsrc. split; [|intros op method args Hp; split].
  - intros Hs.
    rewrite (build_with_transform df m t src Ht (strip_nonempty _ _ _ Hs) Hsrc).
    unfold apply_transform, coerce_simple_transform. rewrite Hs. reflexivity.
  - intros Hs.
    rewrite (build_with_transform df m t src Ht (strip_nonempty _ _ _ Hs) Hsrc).
    rewrite parse_filters in Hp.
    unfold apply_transform, coerce_simple_transform. rewrite Hs.
    replace (startswith "trns:" (lower ("FILTER[" +:+ rest))) with false by reflexivity.
    replace (existsb _ unprefixed_families) with true
      by (simpl; now destruct rest).
    rewrite parse_filter.
    destruct (filter_rest rest) as [[x a]| | |]; try discriminate Hp. reflexivity.
  - intros ws Hws Hs.
    rewrite (build_with_transform df m t src Ht (strip_nonempty _ _ _ Hs) Hsrc).
    unfold apply_transform. rewrite Hs.
    replace (startswith "trns:" (lower _)) with true
      by (simpl; now destruct (smap lower_char _)).
    rewrite (parse_stripped_prefixed t ws rest Hws Hs).
    rewrite parse_filters in Hp.
    assert (Hr : filter_rest rest = Ok (method, args)).
    { destruct (filter_rest rest) as [[x a]| | |]; try discriminate Hp.
      simpl in Hp. now injection Hp as _ <- <-. }
    rewrite Hr. reflexivity.
Qed.

Lemma filters_family_needs_prefix_witness :
  _build_expr_for_mapping demo5 {[ "trns" := PyStr "FILTERS[LIMIT(5)]" ]}
    = Raise TransformError
  /\ _build_expr_for_mapping demo5 {[ "trns" := PyStr "FILTER[LIMIT(5)]" ]} = Ok None
  /\ _build_expr_for_mapping demo5 {[ "transform" := PyStr " trns:  FILTERS[LIMIT(5)] " ]}
     = Ok None.
Proof.
  split; [|split].
  - destruct (filters_family_needs_prefix demo5 {[ "trns" := PyStr "FILTERS[LIMIT(5)]" ]}
                "FILTERS[LIMIT(5)]" "LIMIT(5)]" (Lit PyNone)) as [H _];
      [reflexivity | reflexivity |].
    apply H. reflexivity.
  - destruct (filters_family_needs_prefix demo5 {[ "trns" := PyStr "FILTER[LIMIT(5)]" ]}
                "FILTER[LIMIT(5)]" "LIMIT(5)]" (Lit PyNone)) as [_ H];
      [reflexivity | reflexivity |].
    destruct (H "FILTERS" "LIMIT" ["5"]) as [H1 _]; [reflexivity|].
    apply H1. reflexivity.
  - destruct (filters_family_needs_prefix demo5
                {[ "transform" := PyStr " trns:  FILTERS[LIMIT(5)] " ]}
                " trns:  FILTERS[LIMIT(5)] " "LIMIT(5)]" (Lit PyNone)) as [_ H];
      [reflexivity | reflexivity |].
    destruct (H "FILTERS" "LIMIT" ["5"]) as [_ H2]; [reflexivity|].
    apply (H2 "  "); reflexivity.
Defined.

(** A mapping whose [trns] value is [FILTERS[LIMIT(5)]] and whose source
    column is missing raises a [MappingError] before the transform is read;
    and when the mapping also has a [transform] key, the text under [trns]
    is not read at all and nothing is raised. *)
Lemma filters_family_not_always_a_transform_error :
  _build_expr_for_mapping demo5
    (<["source" := PyStr "nope"]> {[ "trns" := PyStr "FILTERS[LIMIT(5)]" ]})
  = Raise MappingError
  /\ _build_expr_for_mapping demo5
       (<["transform" := PyStr "to_int"]>
          (<["source" := PyStr "a"]> {[ "trns" := PyStr "FILTERS[LIMIT(5)]" ]}))
     = Ok (Some (cast "Int64" (Col "a"))).
Proof. vm_compute. split; reflexivity. Qed.

(** C2 (amended).  For a mapping whose source names a column that the input
    lacks: without a default, compilation fails with a [MappingError]; a
    default that the backend refuses as a literal makes it fail with the
    error of the backend; with a default [d] that the backend holds and no
    transform, the mapping compiles to the literal [d], and whenever the
    executor returns a table for a list that holds the mapping, the literal
    stands in its projection list and the column of the mapping is [d] in
    every row of the output, whose height is that of any projection that is
    a series on the post-filter table, and one when every projection is a
    scalar. *)
Theorem missing_source_uses_default
    (df : DataFrame) (m : mapping) (s missing : string) :
  py_or (get m "source") (get m "affected_source") = PyStr s ->
  In missing (map strip (split_comma s)) ->
  existsb (String.eqb missing) (columns df) = false ->
  (get m "default" = PyNone -> _build_expr_for_mapping df m = Raise MappingError)
  /\ (get m "default" <> PyNone ->
      forall x, lit (get m "default") = Raise x ->
      _build_expr_for_mapping df m = Raise x)
  /\ (get m "default" <> PyNone ->
      lit (get m "default") = Ok (Lit (get m "default")) ->
      truthy (Spec.transform_of m) = false ->
      _build_expr_for_mapping df m = Ok (Some (Lit (get m "default")))
      /\ forall ms out,
           In m ms -> apply_transformations df ms = Ok out ->
           exists df2 es i n c,
             filter_phase df ms = Ok df2
             /\ build_select df ms = Ok es
             /\ select df2 es = Ok out
             /\ alias_name m = PyStr n
             /\ es !! i = Some (Alias (Lit (get m "default")) n)
             /\ cell_of_lit (get m "default") = Ok c
             /\ out !! i = Some (n, repeat c (height out))
             /\ (forall j e cs, es !! j = Some e -> eval df2 e = Ok (Series cs) ->
                   height out = List.length cs)
             /\ ((forall j e, es !! j = Some e -> exists y, eval df2 e = Ok (Scalar y)) ->
                 height out = 1%nat)).
Proof.
  intros Hs Hin Hmiss.
  assert (Hb : forall tr, bind_source df (PyStr s) tr (get m "default")
                 = if negb (is_none (get m "default"))
                   then bind (lit (get m "default")) (fun e => Ok (Source e))
                   else Raise MappingError).
  { intros tr. unfold bind_source.
    destruct (List.filter _ (map strip (split_comma s))) as [|x l] eqn:E; [|reflexivity].
    exfalso. assert (Hf : In missing (List.filter
       (fun c => negb (existsb (String.eqb c) (columns df))) (map strip (split_comma s)))).
    { apply filter_In. split; [assumption|]. now rewrite Hmiss. }
    rewrite E in Hf. destruct Hf. }
  assert (Hnn : get m "default" <> PyNone -> negb (is_none (get m "default")) = true)
    by (destruct (get m "default"); intros H; try reflexivity; contradiction).
  split; [|split].
  - intros Hd. unfold _build_expr_for_mapping. rewrite Hs, Hb, Hd. reflexivity.
  - intros Hd x Hx. unfold _build_expr_for_mapping.
    rewrite Hs, Hb, (Hnn Hd), Hx. reflexivity.
  - intros Hd Hl Ht.
    assert (Hbuild : _build_expr_for_mapping df m = Ok (Some (Lit (get m "default")))).
    { unfold _build_expr_for_mapping. rewrite Hs, Hb, (Hnn Hd), Hl.
      unfold Spec.transform_of in Ht. cbn [bind]. rewrite Ht.
      destruct (get m "default"); try contradiction; reflexivity. }
    split; [exact Hbuild|].
    intros ms out Hm Hout.
    apply apply_transformations_ok in Hout as (es & df2 & Hes & Hdf & Hsel).
    destruct (build_select_lookup _ _ _ _ _ Hes Hm Hbuild) as (i & n & Hn & Hi).
    destruct (lit_cell _ _ Hl) as (c & Hc).
    destruct (select_literal _ _ _ _ _ _ _ Hsel Hi Hc) as (H1 & H2 & H3).
    exists df2, es, i, n, c. repeat (split; [assumption|]). assumption.
Qed.

Lemma missing_source_uses_default_witness :
  _build_expr_for_mapping demo5 country_no_default = Raise MappingError
  /\ _build_expr_for_mapping demo5 country_default = Ok (Some (Lit (PyStr "US")))
  /\ exists df2 es i n c,
       filter_phase demo5 [country_default; offset_one; id_of_a] = Ok df2
       /\ build_select demo5 [country_default; offset_one; id_of_a] = Ok es
       /\ select df2 es = Ok [("country", repeat (CStr "US") 4); ("id", [CInt 1; CInt 2; CInt 3; CInt 4])]
       /\ alias_name country_default = PyStr n
       /\ es !! i = Some (Alias (Lit (PyStr "US")) n)
       /\ cell_of_lit (PyStr "US") = Ok c
       /\ [("country", repeat (CStr "US") 4); ("id", [CInt 1; CInt 2; CInt 3; CInt 4])] !! i = Some (n, repeat c 4)
       /\ (forall j e cs, es !! j = Some e -> eval df2 e = Ok (Series cs) ->
             4%nat = List.length cs)
       /\ ((forall j e, es !! j = Some e -> exists y, eval df2 e = Ok (Scalar y)) ->
           4%nat = 1%nat).
Proof.
  split; [|split].
  - destruct (missing_source_uses_default demo5 country_no_default "country" "country")
      as (H & _ & _); [reflexivity | now left | reflexivity |].
    apply H. reflexivity.
  - destruct (missing_source_uses_default demo5 country_default "country" "country")
      as (_ & _ & H); [reflexivity | now left | reflexivity |].
    destruct H as [H _]; [discriminate | reflexivity | reflexivity |]. exact H.
  - destruct (missing_source_uses_default demo5 country_default "country" "country")
      as (_ & _ & H); [reflexivity | now left | reflexivity |].
    destruct H as [_ H]; [discriminate | reflexivity | reflexivity |].
    apply (H [country_default; offset_one; id_of_a]
             [("country", repeat (CStr "US") 4); ("id", [CInt 1; CInt 2; CInt 3; CInt 4])]);
      [now left | vm_compute; reflexivity].
Defined.

(** With a transform the output is not the default, a selection made of the
    literal alone has one row, and an integer default beyond 128 bits is
    refused by the backend. *)
Lemma default_is_not_always_the_output :
  apply_transformations demo5 [country_transformed]
    = Ok [("country", [CInt 0; CInt 1; CInt 2; CInt 3; CInt 4])]
  /\ apply_transformations demo5 [country_transformed]
     <> Ok [("country", repeat (CStr "US") (height demo5))]
  /\ apply_transformations demo5 [country_default] = Ok [("country", [CStr "US"])]
  /\ apply_transformations demo5 [country_default]
     <> Ok [("country", repeat (CStr "US") (height demo5))]
  /\ apply_transformations demo5 [<["default" := PyInt (2 ^ 127)]> country_default]
     = Raise InvalidOperationError.
Proof. vm_compute. repeat split; discriminate. Qed.

(* ===================================================================== *)
(** * The pipeline executor *)
(* ===================================================================== *)

(** C4 (amended).  When the condition of a filter evaluates to a boolean
    column, [INCLUDE_IF] keeps the rows where it is true and [EXCLUDE_IF]
    the rows where it is false: a row where it is null is dropped by both. *)
Theorem null_predicate_rows_dropped
    (df : DataFrame) (a : string) (rest : list string) (pred : expr)
    (c : column) (cs : list cell) :
  parse_boolean_expr a = Ok pred ->
  eval df pred = Ok c ->
  Spec.predicate_on df c = Some cs ->
  filter_action df "INCLUDE_IF" (a :: rest)
    = Ok (Spec.rows_where (map Spec.is_true_cell cs) df)
  /\ filter_action df "EXCLUDE_IF" (a :: rest)
    = Ok (Spec.rows_where (map Spec.is_false_cell cs) df)
  /\ forall i, cs !! i = Some CNull ->
       map Spec.is_true_cell cs !! i = Some false
       /\ map Spec.is_false_cell cs !! i = Some false.
Proof.
  intros Hp He Hc. unfold filter_action. simpl. rewrite Hp. simpl.
  rewrite (filter_true _ _ _ _ He Hc), (filter_false _ _ _ _ He Hc).
  repeat split; apply null_flags; assumption.
Qed.

Lemma null_predicate_rows_dropped_witness :
  filter_action demo5 "INCLUDE_IF" ["ATTR('c') == 'x'"]
    = Ok [("a", [CInt 0]); ("c", [CStr "x"])]
  /\ filter_action demo5 "EXCLUDE_IF" ["ATTR('c') == 'x'"]
    = Ok [("a", [CInt 2; CInt 3; CInt 4]); ("c", [CStr "z"; CStr "w"; CStr "v"])].
Proof.
  destruct (null_predicate_rows_dropped demo5 "ATTR('c') == 'x'" []
              (Cmp CEq (Col "c") (Lit (PyStr "x")))
              (Series [CBool true; CNull; CBool false; CBool false; CBool false])
              [CBool true; CNull; CBool false; CBool false; CBool false])
    as (H1 & H2 & _); [reflexivity | reflexivity | reflexivity |].
  exact (conj H1 H2).
Defined.

(** The row of [demo5] on which the condition is null is not retained by
    [EXCLUDE_IF]. *)
Lemma exclude_if_drops_null_row :
  Spec.predicate_cells demo5 (Cmp CEq (Col "c") (Lit (PyStr "x")))
    = Ok [CBool true; CNull; CBool false; CBool false; CBool false]
  /\ _apply_filter demo5 exclude_x
     = Ok [("a", [CInt 2; CInt 3; CInt 4]); ("c", [CStr "z"; CStr "w"; CStr "v"])]
  /\ _apply_filter demo5 exclude_x
     <> Spec.action demo5 "EXCLUDE_IF" ["ATTR('c') == 'x'"].
Proof. vm_compute. repeat split; discriminate. Qed.

Lemma apply_filter_action df (m : mapping) t op method args :
  m !! "trns" = Some (PyStr t) ->
  parse_transform_expression (strip t) = Ok (PFilter op method args) ->
  _apply_filter df m = reraise TransformError (filter_action df (upper method) args).
Proof.
  intros Hm Hp. unfold _apply_filter, get_or. rewrite Hm. simpl. now rewrite Hp.
Qed.









(** C3.  The code on [DIRECT[ATTR('c')]]: the quoted argument is read as a
    text literal, so the output is the text [c] in a single row and not the
    input column; the unquoted [DIRECT[ATTR(c)]] does project the column. *)
Theorem direct_attr_quoted_is_a_literal :
  parse_transform_expression "DIRECT[ATTR('c')]" = Ok (PExpr (Lit (PyStr "c")))
  /\ apply_transformations demo5
       [ <["target" := PyStr "out"]> {[ "trns" := PyStr "DIRECT[ATTR('c')]" ]} ]
     = Ok [("out", [CStr "c"])]
  /\ apply_transformations demo5
       [ <["target" := PyStr "out"]> {[ "trns" := PyStr "DIRECT[ATTR(c)]" ]} ]
     = Ok [("out", [CStr "x"; CNull; CStr "z"; CStr "w"; CStr "v"])].
Proof. vm_compute. repeat split. Qed.

(** C9.  The code on a filter written under [transform] and under [trns],
    and on a mapping that has both [target] and [affected_target]: the
    filter is applied only under [trns], and the column is named by
    [affected_target]. *)
Theorem alias_keys_are_not_interchangeable :
  apply_transformations demo5
    [ canonical_limit; <["target" := PyStr "A"]> {[ "source" := PyStr "a" ]} ]
    = Ok [("A", [CInt 0; CInt 1; CInt 2; CInt 3; CInt 4])]
  /\ apply_transformations demo5
       [ limit_two;
         <["affected_target" := PyStr "A"]> {[ "affected_source" := PyStr "a" ]} ]
     = Ok [("A", [CInt 0; CInt 1])]
  /\ apply_transformations demo5
       [ <["target" := PyStr "canonical"]>
           (<["affected_target" := PyStr "alias"]> {[ "source" := PyStr "a" ]}) ]
     = Ok [("alias", [CInt 0; CInt 1; CInt 2; CInt 3; CInt 4])].
Proof. vm_compute. repeat split. Qed.

(* ===================================================================== *)
(** * Tokens of the value parser *)
(* ===================================================================== *)

Lemma word_not_space c : is_word c = true -> is_space c = false.
Proof. destruct c as [[] [] [] [] [] [] [] []]; intros H; try reflexivity; discriminate H. Qed.

Lemma quote_not_space c : is_quote c = true -> is_space c = false.
Proof. destruct c as [[] [] [] [] [] [] [] []]; intros H; try reflexivity; discriminate H. Qed.

Lemma all_impl (p q : ascii -> bool) s :
  (forall c, p c = true -> q c = true) -> all p s = true -> all q s = true.
Proof.
  intros Hpq. induction s as [|c s IH]; simpl; [reflexivity|].
  intros [Hc Hs]%andb_prop. rewrite (Hpq c Hc). now apply IH.
Qed.

Lemma all_app p a b : all p (a +:+ b) = all p a && all p b.
Proof.
  induction a as [|c a IH]; simpl; [reflexivity|].
  change (String.append a b) with (a +:+ b). now rewrite IH, andb_assoc.
Qed.

Lemma rstrip_nospace s :
  all (fun c => negb (is_space c)) s = true -> rstrip s = s.
Proof.
  induction s as [|c s IH]; simpl; [reflexivity|].
  intros [Hc Hs]%andb_prop. apply negb_true_iff in Hc.
  rewrite (IH Hs). destruct s; [now rewrite Hc | reflexivity].
Qed.

Lemma strip_nospace s :
  all (fun c => negb (is_space c)) s = true -> strip s = s.
Proof.
  intros H. unfold strip. rewrite (rstrip_nospace s H).
  destruct s as [|c s]; [reflexivity|].
  simpl in H. apply andb_prop in H as [Hc _]. apply negb_true_iff in Hc.
  now apply lstrip_nonspace.
Qed.

Lemma strip_word s : all is_word s = true -> strip s = s.
Proof.
  intros H. apply strip_nospace. revert H. apply all_impl.
  intros c Hc. now rewrite (word_not_space c Hc).
Qed.

Lemma unsnoc_snoc s c : unsnoc (s +:+ String c EmptyString) = Some (s, c).
Proof. induction s as [|d s IH]; simpl; [reflexivity|].
  change (String.append s (String c EmptyString)) with (s +:+ String c EmptyString).
  now rewrite IH. Qed.

Lemma quote_cases q : is_quote q = true -> q = "'"%char \/ q = "034"%char.
Proof.
  unfold is_quote. intros [H|H]%orb_prop; apply Ascii.eqb_eq in H; auto.
Qed.

(** X1: a token between two quote characters of the same kind is a text
    literal holding what stands between them, whatever that is. *)
Theorem quoted_token_is_text (token : string) (q : ascii) (s : string) :
  is_quote q = true ->
  strip token = String q (s +:+ String q EmptyString) ->
  try_parse_literal token = Ok (Some (Lit (PyStr s)))
  /\ parse_value token = Ok (PExpr (Lit (PyStr s))).
Proof.
  intros Hq Ht.
  assert (Hs : strip (String q (s +:+ String q EmptyString))
               = String q (s +:+ String q EmptyString)).
  { rewrite <- Ht. apply strip_idem. }
  assert (Hu : unsnoc (String q (s +:+ String q EmptyString)) = Some (String q s, q)).
  { change (String q (s +:+ String q EmptyString))
      with (String q s +:+ String q EmptyString). apply unsnoc_snoc. }
  split.
  - unfold try_parse_literal, quoted_inner. rewrite Ht, Hu.
    now rewrite Ascii.eqb_refl, Hq.
  - rewrite <- parse_value_strip, Ht.
    rewrite parse_value_unfold. unfold parse_value_body. rewrite Hs.
    unfold parse_attr, try_parse_literal, quoted_inner. rewrite Hs, Hu.
    destruct (quote_cases q Hq) as [-> | ->]; reflexivity.
Qed.

Lemma quoted_token_is_text_witness :
  parse_value " 'a, (b' " = Ok (PExpr (Lit (PyStr "a, (b"))).
Proof.
  apply (quoted_token_is_text " 'a, (b' " "'" "a, (b"); reflexivity.
Defined.

Lemma all_drop p n s : all p s = true -> all p (drop n s) = true.
Proof.
  revert s. induction n as [|n IH]; intros [|c s] H; simpl; auto.
  simpl in H. apply andb_prop in H as [_ H]. now apply IH.
Qed.

Lemma startswith_all p pre s :
  startswith pre s = true -> all p s = true -> all p pre = true.
Proof.
  intros H Hs. apply prefix_app in H. rewrite H, all_app in Hs.
  now apply andb_prop in Hs as [Hs _].
Qed.

Lemma word_chars c :
  is_word c = true ->
  is_quote c = false /\ Ascii.eqb c "(" = false /\ Ascii.eqb c "." = false
  /\ Ascii.eqb c "-" = false /\ Ascii.eqb c "+" = false.
Proof.
  destruct c as [[] [] [] [] [] [] [] []]; intros H; try discriminate H;
    repeat split; reflexivity.
Qed.

Lemma word_not_attr s : all is_word s = true -> parse_attr s = None.
Proof.
  intros H. unfold parse_attr. rewrite (strip_word s H).
  unfold Re.attr_quoted, Re.attr_bare.
  assert (Hb : startswith "ATTR(" s = false).
  { destruct (startswith "ATTR(" s) eqn:E; [|reflexivity].
    now pose proof (startswith_all _ _ _ E H). }
  rewrite Hb.
  destruct (startswith "attr" (lower s)); [|reflexivity].
  pose proof (all_drop is_word 4 s H) as Hd.
  destruct (drop 4 s) as [|c r]; [reflexivity|].
  simpl in Hd. apply andb_prop in Hd as [Hc _].
  destruct (word_chars c Hc) as (_ & Hp & _). simpl. now rewrite Hp.
Qed.

Lemma identifier_word s : is_identifier s = true -> all is_word s = true.
Proof.
  destruct s as [|c r]; [discriminate|]. simpl.
  intros [[Hc _]%andb_prop Hr]%andb_prop. now rewrite Hc, Hr.
Qed.

Lemma identifier_not_number s :
  is_identifier s = true ->
  String.eqb (lower s) "inf" = false ->
  String.eqb (lower s) "infinity" = false ->
  String.eqb (lower s) "nan" = false ->
  parse_float s = None.
Proof.
  intros Hi H1 H2 H3. pose proof (identifier_word s Hi) as Hw.
  unfold parse_float. rewrite (strip_word s Hw).
  destruct s as [|c r]; [discriminate|].
  simpl in Hi. apply andb_prop in Hi as [[Hc Hd]%andb_prop _].
  apply negb_true_iff in Hd.
  destruct (word_chars c Hc) as (_ & _ & Hdot & Hm & Hp).
  rewrite Hm, Hp, H1, H2, H3. cbn [orb].
  unfold floatnumber, digitpart. now rewrite Hd, Hdot.
Qed.

(** X2: a word that does not begin with a digit and is not one of the five
    reserved words is read as a reference to the column of that name. *)
Theorem identifier_is_column (token : string) :
  is_identifier (strip token) = true ->
  existsb (String.eqb (lower (strip token))) reserved = false ->
  parse_value token = Ok (PExpr (Col (strip token))).
Proof.
  intros Hi Hr. rewrite <- parse_value_strip.
  set (s := strip token) in *.
  pose proof (identifier_word s Hi) as Hw.
  cbn [existsb reserved] in Hr.
  apply orb_false_elim in Hr as [H Hr]. apply orb_false_elim in Hr as [H0 Hr].
  apply orb_false_elim in Hr as [H1 Hr]. apply orb_false_elim in Hr as [H2 Hr].
  apply orb_false_elim in Hr as [H3 _].
  rewrite parse_value_unfold. unfold parse_value_body.
  rewrite (strip_word s Hw).
  assert (Ht : startswith "trns:" s = false).
  { destruct (startswith "trns:" s) eqn:E; [|reflexivity].
    now pose proof (startswith_all _ _ _ E Hw). }
  rewrite Ht, (word_not_attr s Hw).
  rewrite H, H0.
  unfold try_parse_literal. rewrite (strip_word s Hw).
  assert (Hq : quoted_inner s = None).
  { unfold quoted_inner. destruct s as [|c r]; [reflexivity|].
    simpl in Hw. apply andb_prop in Hw as [Hc _].
    destruct (word_chars c Hc) as (Hq & _).
    cbn [unsnoc]. destruct (unsnoc r) as [[r' l]|]; [|reflexivity].
    now rewrite Hq, andb_false_r. }
  rewrite Hq. unfold is_number.
  rewrite identifier_not_number by assumption.
  now rewrite H, H0.
Qed.

Lemma identifier_is_column_witness :
  parse_value " order_id " = Ok (PExpr (Col "order_id")).
Proof. apply (identifier_is_column " order_id "); reflexivity. Defined.

Lemma lower_char_inv c d :
  lower_char c = d -> c = d \/ c = ascii_of_N (code d - 32).
Proof.
  intros <-. destruct c as [[] [] [] [] [] [] [] []];
    first [left; reflexivity | right; reflexivity].
Qed.

Lemma lower_cons_inv s d r :
  lower s = String d r ->
  exists c s', s = String c s' /\ lower s' = r
               /\ (c = d \/ c = ascii_of_N (code d - 32)).
Proof.
  destruct s as [|c s']; [discriminate|]. cbn. intros [= Hc Hr].
  exists c, s'. repeat split; [exact Hr | now apply lower_char_inv].
Qed.

Lemma lower_nil_inv s : lower s = EmptyString -> s = EmptyString.
Proof. destruct s; [reflexivity | discriminate]. Qed.

Ltac lower_cases H :=
  repeat match type of H with
  | lower ?s = String _ _ =>
      let c := fresh "c" in let s' := fresh "s" in
      let Hc := fresh "Hc" in let Hs := fresh "Hs" in
      destruct (lower_cons_inv _ _ _ H) as (c & s' & -> & Hs & Hc);
      clear H; rename Hs into H;
      destruct Hc as [-> | ->]
  | lower ?s = EmptyString => apply lower_nil_inv in H; subst s
  end.

(** X3: the names [float] accepts for not-a-number and for the infinities are
    numbers without a decimal point, so the value parser converts them to an
    integer and fails: no column of such a name can be referred to by its
    bare name, in any case of letters. *)
Theorem non_finite_words_raise (token : string) :
  (lower (strip token) = "nan" -> parse_value token = Raise ValueError)
  /\ (lower (strip token) = "inf" \/ lower (strip token) = "infinity" ->
      parse_value token = Raise OverflowError).
Proof.
  split.
  - intros H. rewrite <- parse_value_strip.
    remember (strip token) as s eqn:E. clear E.
    lower_cases H; vm_compute; reflexivity.
  - intros [H|H]; rewrite <- parse_value_strip;
      remember (strip token) as s eqn:E; clear E;
      lower_cases H; vm_compute; reflexivity.
Qed.

Lemma non_finite_words_raise_witness :
  parse_value " NaN " = Raise ValueError
  /\ parse_value "Infinity" = Raise OverflowError.
Proof.
  split.
  - apply (proj1 (non_finite_words_raise " NaN ")). reflexivity.
  - apply (proj2 (non_finite_words_raise "Infinity")). right. reflexivity.
Defined.

Lemma div_half_even_one p : div_half_even p 1 = p.
Proof.
  unfold div_half_even. rewrite N.div_1_r, N.mod_1_r. reflexivity.
Qed.

Lemma round_f64_exact p :
  (0 < p < 2 ^ 53)%N ->
  round_f64 p 1
  = Some ((p * 2 ^ (52 - N.log2 p))%N, Z.of_N (N.log2 p) - 52).
Proof.
  intros [Hp0 Hp].
  assert (HL : (N.log2 p < 53)%N) by (apply N.log2_lt_pow2; assumption).
  destruct (N.log2_spec p Hp0) as [Hlo Hhi].
  unfold round_f64. cbv zeta.
  destruct (N.eqb_spec p 0) as [->|_]; [lia|].
  change (N.log2 1) with 0%N. rewrite Z.sub_0_r.
  set (L := N.log2 p) in *.
  destruct (Z.leb_spec 0 (Z.of_N L)) as [_|?]; [|lia].
  rewrite N2Z.id, !N.mul_1_l.
  destruct (N.leb_spec (2 ^ L) p) as [_|?]; [|lia].
  rewrite Z.max_l by lia.
  assert (Hm : (p * 2 ^ (52 - L) < 2 ^ 53)%N).
  { replace 53%N with (N.succ L + (52 - L))%N by lia.
    rewrite N.pow_add_r. apply N.mul_lt_mono_pos_r; [|exact Hhi].
    apply N.neq_0_lt_0, N.pow_nonzero. discriminate. }
  assert (Hmm : (if 0 <=? Z.of_N L - 52
                 then div_half_even p (2 ^ Z.to_N (Z.of_N L - 52))
                 else div_half_even (p * 2 ^ Z.to_N (- (Z.of_N L - 52))) 1)
                = (p * 2 ^ (52 - L))%N).
  { destruct (Z.leb_spec 0 (Z.of_N L - 52)).
    - replace (Z.of_N L - 52) with 0 by lia. replace (52 - L)%N with 0%N by lia.
      change (2 ^ Z.to_N 0)%N with 1%N. rewrite div_half_even_one. simpl. lia.
    - rewrite div_half_even_one. f_equal. f_equal. lia. }
  rewrite Hmm.
  destruct (N.eqb_spec (p * 2 ^ (52 - L)) (2 ^ 53)) as [E|_]; [lia|].
  destruct (Z.ltb_spec 971 (Z.of_N L - 52)); [lia | reflexivity].
Qed.

Lemma int_of_float_exact p :
  (0 < p < 2 ^ 53)%N ->
  int_of_float (FFin false (p * 2 ^ (52 - N.log2 p))%N (Z.of_N (N.log2 p) - 52))
  = Ok (Z.of_N p).
Proof.
  intros [Hp0 Hp].
  assert (HL : (N.log2 p < 53)%N) by (apply N.log2_lt_pow2; assumption).
  set (L := N.log2 p) in *. unfold int_of_float. f_equal.
  rewrite N2Z.inj_mul, N2Z.inj_pow.
  destruct (Z.leb_spec 0 (Z.of_N L - 52)).
  - replace (Z.of_N L - 52) with 0 by lia. replace (52 - L)%N with 0%N by lia.
    simpl. lia.
  - replace (- (Z.of_N L - 52)) with (Z.of_N (52 - L)) by lia.
    change (Z.of_N 2) with 2.
    apply Z.div_mul. apply Z.pow_nonzero; lia.
Qed.

(** [int(float(s))] is exact on the integers below [2^53]. *)
Lemma int_of_decimal_exact p :
  (p < 2 ^ 53)%N ->
  int_of_float (float_of_decimal false p 0) = Ok (Z.of_N p).
Proof.
  intros Hp. unfold float_of_decimal. cbn [Z.leb Z.compare Z.to_N].
  change (10 ^ 0)%N with 1%N. rewrite N.mul_1_r.
  destruct (N.eq_dec p 0%N) as [->|Hz]; [reflexivity|].
  rewrite round_f64_exact by lia. apply int_of_float_exact. lia.
Qed.

Lemma digit_chars c :
  is_digit c = true ->
  is_word c = true /\ lower_char c = c /\ Ascii.eqb c "i" = false
  /\ Ascii.eqb c "n" = false /\ Ascii.eqb c "t" = false /\ Ascii.eqb c "f" = false.
Proof.
  destruct c as [[] [] [] [] [] [] [] []]; intros H; try discriminate H;
    repeat split; reflexivity.
Qed.

Lemma decimal_digits s acc v : decimal_from acc s = Some v -> all is_digit s = true.
Proof.
  revert acc. induction s as [|c s IH]; intros acc; simpl; [reflexivity|].
  destruct (is_digit c); [|discriminate]. intros H. now apply IH in H.
Qed.

Lemma digitpart_go_decimal s : forall acc cnt v,
  decimal_from acc s = Some v ->
  exists k, digitpart_go acc cnt s = (v, k, EmptyString).
Proof.
  induction s as [|c s IH]; intros acc cnt v; simpl.
  - intros [= ->]. now exists cnt.
  - destruct (is_digit c); [|discriminate]. apply IH.
Qed.


Lemma digits_word s : all is_digit s = true -> all is_word s = true.
Proof. apply all_impl. intros c Hc. now destruct (digit_chars c Hc). Qed.

Lemma parse_float_decimal s n :
  decimal_value s = Some n -> parse_float s = Some (float_of_decimal false n 0).
Proof.
  intros H.
  assert (Hd : all is_digit s = true).
  { destruct s; [discriminate|]. exact (decimal_digits _ _ _ H). }
  unfold parse_float. rewrite (strip_word s (digits_word s Hd)).
  destruct s as [|c r]; [discriminate|].
  pose proof Hd as Hd'. simpl in Hd'. apply andb_prop in Hd' as [Hc Hr].
  destruct (digit_chars c Hc) as (Hw & Hl & Hi & Hn & _).
  destruct (word_chars c Hw) as (_ & _ & _ & Hm & Hp).
  rewrite Hm, Hp.
  replace (String.eqb (lower (String c r)) "inf") with false
    by (cbn; now rewrite Hl, Hi).
  replace (String.eqb (lower (String c r)) "infinity") with false
    by (cbn; now rewrite Hl, Hi).
  replace (String.eqb (lower (String c r)) "nan") with false
    by (cbn; now rewrite Hl, Hn).
  cbn [orb]. unfold floatnumber, digitpart. rewrite Hc.
  unfold decimal_value in H. cbn [decimal_from] in H. rewrite Hc in H.
  destruct (digitpart_go_decimal r _ 1%N n H) as [k Hk].
  change (0 * 10 + (code c - 48))%N with (code c - 48)%N in Hk.
  now rewrite Hk.
Qed.



Lemma int_of_float_str_decimal s n :
  decimal_value s = Some n -> (n < 2 ^ 53)%N -> int_of_float_str s = Ok (Z.of_N n).
Proof.
  intros H Hn. unfold int_of_float_str, float_of_str.
  rewrite (parse_float_decimal s n H). now apply int_of_decimal_exact.
Qed.




(* ===================================================================== *)
(** * Column references *)
(* ===================================================================== *)

Lemma rstrip_app_r a b :
  rstrip b = b -> b <> EmptyString -> rstrip (a +:+ b) = a +:+ b.
Proof.
  intros Hb Hn. induction a as [|c a IH]; cbn [String.append]; [exact Hb|].
  cbn [rstrip]. rewrite IH. destruct (a +:+ b) eqn:E; [|reflexivity].
  destruct a; cbn [String.append] in E; [contradiction | discriminate].
Qed.

Lemma strip_lstrip s : strip (lstrip s) = strip s.
Proof.
  unfold strip. now rewrite lstrip_rstrip_comm, lstrip_idem, <- lstrip_rstrip_comm.
Qed.

Lemma lstrip_empty_strip s : lstrip s = EmptyString -> strip s = EmptyString.
Proof. intros H. unfold strip. now rewrite lstrip_rstrip_comm, H. Qed.

Lemma lstrip_empty_last s r w :
  lstrip s = EmptyString -> unsnoc s = Some (r, w) -> is_space w = true.
Proof.
  revert r. induction s as [|c s IH]; intros r; [discriminate|].
  cbn [lstrip unsnoc]. destruct (is_space c) eqn:Hc; [|discriminate].
  intros Hs. destruct (unsnoc s) as [[r' l]|] eqn:E.
  - intros [= _ <-]. now apply (IH r').
  - now intros [= _ <-].
Qed.

Lemma lazy_group_name n q :
  n <> EmptyString -> all is_name_char n = true -> is_quote q = true ->
  Re.lazy_group true (n +:+ String q ")") = Some n.
Proof.
  intros Hn Ha Hq. induction n as [|c n IH]; [contradiction|].
  cbn [all] in Ha. apply andb_prop in Ha as [Hc Ha].
  unfold is_name_char in Hc.
  apply andb_prop in Hc as [[_ _]%andb_prop Hnl]. apply negb_true_iff in Hnl.
  cbn [String.append Re.lazy_group]. rewrite Hnl.
  destruct n as [|d n].
  - cbn [String.append Re.quote_close]. rewrite Hq. reflexivity.
  - assert (Hd : is_quote d = false).
    { cbn [all] in Ha. apply andb_prop in Ha as [Hd _]. unfold is_name_char in Hd.
      apply andb_prop in Hd as [[Hd _]%andb_prop _]. now apply negb_true_iff in Hd. }
    replace (Re.quote_close true (String d n +:+ String q ")")) with false
      by (cbn [String.append Re.quote_close]; now rewrite Hd).
    now rewrite IH.
Qed.

Lemma name_chars_rstrip_paren n :
  rstrip (n +:+ ")") = n +:+ ")".
Proof. apply rstrip_app_r; [reflexivity | discriminate]. Qed.

(** X5: the quoted column form is recognised whatever the case of the
    keyword, and the two quote characters need not be the same. *)
Theorem attr_quoted_any_case (kw n : string) (q1 q2 : ascii) :
  lower kw = "attr" ->
  is_quote q1 = true -> is_quote q2 = true ->
  n <> EmptyString -> all is_name_char n = true ->
  parse_value (kw +:+ "(" +:+ String q1 (n +:+ String q2 ")"))
    = Ok (PExpr (Col (strip n))).
Proof.
  intros Hk H1 H2 Hn Ha.
  assert (Hr : rstrip (String q1 (n +:+ String q2 ")")) = String q1 (n +:+ String q2 ")")).
  { rewrite rstrip_cons_nonspace by now apply quote_not_space. f_equal.
    apply rstrip_app_r; [|discriminate].
    rewrite rstrip_cons_nonspace by now apply quote_not_space. reflexivity. }
  pose proof (quote_not_space q1 H1) as Hs1.
  pose proof (lazy_group_name n q2 Hn Ha H2) as Hg.
  rewrite parse_value_unfold. unfold parse_value_body, parse_attr.
  lower_cases Hk; cbn [String.append];
    rewrite ?strip_cons_nonspace by reflexivity;
    rewrite ?rstrip_cons_nonspace by reflexivity;
    rewrite Hr;
    rewrite ?strip_cons_nonspace by reflexivity;
    rewrite ?rstrip_cons_nonspace by reflexivity;
    rewrite ?Hr;
    change (startswith "trns:" _) with false; cbv iota;
    unfold Re.attr_quoted;
    change (startswith "attr" (lower _)) with true; cbv iota;
    cbn [drop Re.quoted_call]; change (Ascii.eqb "(" "(") with true; cbv iota;
    rewrite (lstrip_nonspace q1 _ Hs1), H1, Hg; reflexivity.
Qed.

Lemma attr_quoted_any_case_witness :
  parse_value ("Attr('unit price" +:+ String "034" ")")
    = Ok (PExpr (Col "unit price")).
Proof.
  apply (attr_quoted_any_case "Attr" "unit price" "'" "034");
    try reflexivity; discriminate.
Defined.

Lemma parse_float_first c r :
  is_space c = false -> is_digit c = false ->
  Ascii.eqb c "." = false -> Ascii.eqb c "-" = false -> Ascii.eqb c "+" = false ->
  Ascii.eqb (lower_char c) "i" = false -> Ascii.eqb (lower_char c) "n" = false ->
  parse_float (String c r) = None.
Proof.
  intros Hs Hd Hdot Hm Hp Hi Hn. unfold parse_float.
  rewrite strip_cons_nonspace by assumption. rewrite Hm, Hp.
  cbn [lower smap String.eqb]. rewrite Hi, Hn. cbn [orb].
  unfold floatnumber, digitpart. now rewrite Hd, Hdot.
Qed.

Lemma lstrip_name_not_quote s :
  all (fun c => negb (is_quote c)) s = true ->
  match lstrip s with
  | String c _ => is_quote c = false
  | EmptyString => True
  end.
Proof.
  induction s as [|c s IH]; cbn [all lstrip]; [trivial|].
  intros [Hc Hs]%andb_prop. destruct (is_space c); [now apply IH|].
  now apply negb_true_iff in Hc.
Qed.

Lemma name_chars_no_quote n :
  all is_name_char n = true -> all (fun c => negb (is_quote c)) n = true.
Proof.
  apply all_impl. intros c Hc. unfold is_name_char in Hc.
  now apply andb_prop in Hc as [[Hc _]%andb_prop _].
Qed.

Lemma name_chars_no_paren n :
  all is_name_char n = true -> has_char ")" n = false.
Proof.
  induction n as [|c n IH]; cbn [all has_char]; [reflexivity|].
  intros [Hc Hn]%andb_prop. rewrite (IH Hn), orb_false_r.
  unfold is_name_char in Hc. apply andb_prop in Hc as [[_ Hc]%andb_prop _].
  now apply negb_true_iff in Hc.
Qed.

(** After an opening parenthesis, a name without quote character does not
    start a quoted call. *)
Lemma quoted_call_name full n :
  all is_name_char n = true ->
  Re.quoted_call full (String "(" (n +:+ ")")) = None.
Proof.
  intros Ha. cbn [Re.quoted_call]. change (Ascii.eqb "(" "(") with true. cbv iota.
  assert (H : all (fun c => negb (is_quote c)) (n +:+ ")") = true).
  { rewrite all_app, (name_chars_no_quote n Ha). reflexivity. }
  apply lstrip_name_not_quote in H.
  destruct (lstrip (n +:+ ")")); [reflexivity | now rewrite H].
Qed.

Lemma startswith_app p x : startswith p (p +:+ x) = true.
Proof.
  unfold startswith. induction p as [|c p IH]; cbn [String.append String.prefix].
  - now destruct x.
  - destruct (ascii_dec c c); [exact IH | contradiction].
Qed.

Lemma attr_bare_name n :
  n <> EmptyString -> all is_name_char n = true ->
  match Re.attr_bare ("ATTR(" +:+ n +:+ ")") with
  | Some g => strip g = strip n
  | None => False
  end.
Proof.
  intros Hn Ha. unfold Re.attr_bare.
  rewrite (startswith_app "ATTR(" (n +:+ ")")). cbn [String.append drop].
  rewrite unsnoc_snoc. change (Ascii.eqb ")" ")") with true.
  rewrite (name_chars_no_paren n Ha). cbn [negb andb].
  destruct (lstrip n) as [|c g] eqn:E.
  - destruct (unsnoc n) as [[r w]|] eqn:Eu.
    + rewrite (lstrip_empty_strip n E). unfold strip.
      cbn [rstrip]. now rewrite (lstrip_empty_last n r w E Eu).
    + destruct n; [contradiction|]. cbn [unsnoc] in Eu.
      destruct (unsnoc n) as [[? ?]|]; discriminate.
  - rewrite <- E. apply strip_lstrip.
Qed.

(** X6: the unquoted column form is recognised only when the keyword is
    written [ATTR]; in any other case of its letters the whole token is
    read as the name of a column. *)
Theorem attr_bare_upper_case_only (kw n : string) :
  lower kw = "attr" ->
  n <> EmptyString -> all is_name_char n = true ->
  parse_value (kw +:+ "(" +:+ n +:+ ")")
    = Ok (PExpr (Col (if String.eqb kw "ATTR" then strip n
                      else kw +:+ "(" +:+ n +:+ ")"))).
Proof.
  intros Hk Hn Ha.
  pose proof (name_chars_rstrip_paren n) as Hr.
  pose proof (quoted_call_name true n Ha) as Hq.
  pose proof (attr_bare_name n Hn Ha) as Hb.
  rewrite parse_value_unfold. unfold parse_value_body, parse_attr.
  lower_cases Hk; cbn [String.append] in *;
    rewrite ?strip_cons_nonspace by reflexivity;
    rewrite ?rstrip_cons_nonspace by reflexivity;
    rewrite Hr;
    rewrite ?strip_cons_nonspace by reflexivity;
    rewrite ?rstrip_cons_nonspace by reflexivity;
    rewrite ?Hr;
    change (startswith "trns:" _) with false; cbv iota;
    unfold Re.attr_quoted;
    change (startswith "attr" (lower _)) with true; cbv iota;
    cbn [drop]; rewrite Hq;
    first
      [ (* the keyword is ATTR *)
        destruct (Re.attr_bare _) as [g|]; [|contradiction];
        rewrite Hb; reflexivity
      | (* any other case *)
        unfold Re.attr_bare; change (startswith "ATTR(" _) with false; cbv iota;
        unfold try_parse_literal, quoted_inner, is_number;
        rewrite ?strip_cons_nonspace by reflexivity;
        rewrite ?rstrip_cons_nonspace by reflexivity;
        rewrite ?Hr;
        rewrite parse_float_first by reflexivity;
        cbn [unsnoc]; rewrite unsnoc_snoc; reflexivity ].
Qed.

Lemma attr_bare_upper_case_only_witness :
  parse_value "ATTR( qty )" = Ok (PExpr (Col "qty"))
  /\ parse_value "attr( qty )" = Ok (PExpr (Col "attr( qty )")).
Proof.
  split.
  - apply (attr_bare_upper_case_only "ATTR" " qty "); try reflexivity; discriminate.
  - apply (attr_bare_upper_case_only "attr" " qty "); try reflexivity; discriminate.
Defined.

(* ===================================================================== *)
(** * Shapes of calls *)
(* ===================================================================== *)

Lemma span_word_app w c r :
  all is_word w = true -> is_word c = false ->
  Re.span_word (w +:+ String c r) = (w, String c r).
Proof.
  intros Hw Hc. induction w as [|d w IH]; cbn [String.append].
  - now apply span_word_stop.
  - cbn [all] in Hw. apply andb_prop in Hw as [Hd Hw].
    rewrite (span_word_word d _ Hd), (IH Hw). reflexivity.
Qed.

Lemma word_run_inv w :
  is_word_run w = true ->
  all is_word w = true /\ exists c r, w = String c r /\ is_space c = false.
Proof.
  unfold is_word_run. intros [Hn Hw]%andb_prop. split; [exact Hw|].
  destruct w as [|c r]; [discriminate|]. exists c, r. split; [reflexivity|].
  cbn [all] in Hw. apply andb_prop in Hw as [Hc _]. now apply word_not_space.
Qed.

Lemma strip_app_word w b :
  is_word_run w = true -> rstrip b = b -> b <> EmptyString ->
  strip (w +:+ b) = w +:+ b.
Proof.
  intros Hw Hb Hn. destruct (word_run_inv w Hw) as (_ & c & r & -> & Hc).
  unfold strip. rewrite rstrip_app_r by assumption.
  cbn [String.append]. now apply lstrip_nonspace.
Qed.

Lemma rstrip_call x : rstrip (String "(" (x +:+ ")")) = String "(" (x +:+ ")").
Proof.
  rewrite rstrip_cons_nonspace by reflexivity. f_equal.
  apply rstrip_app_r; [reflexivity | discriminate].
Qed.

Lemma strip_call m x :
  is_word_run m = true ->
  strip (m +:+ String "(" (x +:+ ")")) = m +:+ String "(" (x +:+ ")").
Proof. intros Hm. apply strip_app_word; [assumption | apply rstrip_call | discriminate]. Qed.

Lemma method_call_shape m x :
  is_word_run m = true -> Re.method_call (m +:+ String "(" (x +:+ ")")) = Some (m, x).
Proof.
  intros Hm. destruct (word_run_inv m Hm) as (Hw & c & r & E & _).
  unfold Re.method_call. rewrite span_word_app by (assumption || reflexivity).
  rewrite lstrip_nonspace by reflexivity.
  change (Ascii.eqb "(" "(") with true. cbv iota.
  unfold Re.paren_body. rewrite unsnoc_snoc.
  change (Ascii.eqb ")" ")") with true. cbv iota.
  rewrite E. reflexivity.
Qed.

Lemma parse_method_call_shape m x :
  is_word_run m = true ->
  parse_method_call (m +:+ String "(" (x +:+ ")")) = Ok (upper m, split_args x).
Proof.
  intros Hm. unfold parse_method_call.
  now rewrite strip_call, method_call_shape.
Qed.

Lemma bracket_body_shape inner : Re.bracket_body (inner +:+ "]") = Some inner.
Proof.
  unfold Re.bracket_body, endswith_char, drop_last.
  rewrite rstrip_app_r by (reflexivity || discriminate).
  now rewrite unsnoc_snoc.
Qed.

Lemma op_bracket_shape w inner :
  is_word_run w = true ->
  Re.op_bracket (w +:+ String "[" (inner +:+ "]")) = Some (w, inner).
Proof.
  intros Hm. destruct (word_run_inv w Hm) as (Hw & c & r & E & _).
  unfold Re.op_bracket. rewrite span_word_app by (assumption || reflexivity).
  rewrite lstrip_nonspace by reflexivity.
  change (Ascii.eqb "[" "[") with true. cbv iota.
  rewrite bracket_body_shape, E. reflexivity.
Qed.

Lemma lower_not_trns_char c :
  is_word c = false -> c <> ":"%char ->
  lower_char c <> "t"%char /\ lower_char c <> "r"%char /\ lower_char c <> "n"%char
  /\ lower_char c <> "s"%char /\ lower_char c <> ":"%char.
Proof.
  destruct c as [[] [] [] [] [] [] [] []]; intros H Hc; try discriminate H;
    repeat split; try discriminate; try (exfalso; now apply Hc).
Qed.

Lemma lower_word_not_colon c : is_word c = true -> lower_char c <> ":"%char.
Proof. destruct c as [[] [] [] [] [] [] [] []]; intros H; try discriminate H; discriminate. Qed.

(** A word followed by a character that is neither a word character nor a
    colon does not begin with [trns:], in any case of letters. *)
Lemma not_trns_prefix w c r :
  all is_word w = true -> is_word c = false -> c <> ":"%char ->
  startswith "trns:" (lower (w +:+ String c r)) = false.
Proof.
  intros Hw Hc Hn.
  destruct (lower_not_trns_char c Hc Hn) as (H1 & H2 & H3 & H4 & H5).
  unfold startswith.
  destruct w as [|a1 [|a2 [|a3 [|a4 [|a5 w]]]]];
    cbn [String.append lower smap String.prefix];
    repeat match goal with
    | |- context [ascii_dec ?a ?b] =>
        destruct (ascii_dec a b) as [?|]; [|reflexivity]
    end; try (exfalso; congruence).
  cbn [all] in Hw. repeat (apply andb_prop in Hw as [? Hw]).
  exfalso. now apply (lower_word_not_colon a5).
Qed.

(* ===================================================================== *)
(** * Conditions *)
(* ===================================================================== *)

Lemma strip_bracketed p x :
  is_word_run p = true ->
  strip (p +:+ String "[" (x +:+ "]")) = p +:+ String "[" (x +:+ "]").
Proof.
  intros Hp. apply strip_app_word; [assumption | | discriminate].
  rewrite rstrip_cons_nonspace by reflexivity. f_equal.
  apply rstrip_app_r; [reflexivity | discriminate].
Qed.

(** The [BOOLEAN[...]] form of a condition, once its brackets are read. *)
Lemma boolean_bracket_call m x :
  is_word_run m = true ->
  parse_boolean_expr ("BOOLEAN[" +:+ m +:+ String "(" (x +:+ ")]"))
  = let method := upper m in
    let args := split_args x in
    if String.eqb method "EQUALS" then method_cmp parse_value CEq args
    else if String.eqb method "EQ" then method_cmp parse_value CEq args
    else if String.eqb method "NOT_EQUALS" then method_cmp parse_value CNe args
    else if String.eqb method "GREATER_THAN" then infix_cmp parse_value CGt args
    else if String.eqb method "GT" then infix_cmp parse_value CGt args
    else if String.eqb method "LESS_THAN" then infix_cmp parse_value CLt args
    else if String.eqb method "GREATER_OR_EQUAL" then infix_cmp parse_value CGe args
    else if String.eqb method "LESS_OR_EQUAL" then infix_cmp parse_value CLe args
    else Raise ValueError.
Proof.
  intros Hm. rewrite parse_boolean_expr_unfold. unfold parse_boolean_expr_body.
  assert (Hx : m +:+ String "(" (x +:+ ")]")
               = (m +:+ String "(" (x +:+ ")")) +:+ "]").
  { clear. induction m as [|c m IH]; cbn [String.append].
    - f_equal. induction x as [|d x IHx]; cbn [String.append]; [reflexivity|].
      now rewrite IHx.
    - now rewrite IH. }
  rewrite Hx.
  change ("BOOLEAN[" +:+ (m +:+ String "(" (x +:+ ")")) +:+ "]")
    with ("BOOLEAN" +:+ String "[" ((m +:+ String "(" (x +:+ ")")) +:+ "]")).
  rewrite strip_bracketed by reflexivity.
  cbn [String.append].
  replace (startswith "BOOLEAN[" _) with true
    by (symmetry; apply (startswith_app "BOOLEAN[")).
  unfold endswith_char, drop_last. cbn [unsnoc drop].
  rewrite unsnoc_snoc. change (Ascii.eqb "]" "]") with true. cbn [andb].
  rewrite strip_call, method_call_shape by assumption.
  reflexivity.
Qed.

(** The bare call form of a condition. *)
Lemma bare_call m x :
  In m ["EQ"; "GT"; "LT"; "GTE"; "LTE"; "NE"] ->
  parse_boolean_expr (m +:+ String "(" (x +:+ ")"))
  = let args := split_args x in
    if String.eqb m "EQ" then method_cmp parse_value CEq args
    else if String.eqb m "GT" then infix_cmp parse_value CGt args
    else if String.eqb m "LT" then infix_cmp parse_value CLt args
    else if String.eqb m "GTE" then infix_cmp parse_value CGe args
    else if String.eqb m "LTE" then infix_cmp parse_value CLe args
    else method_cmp parse_value CNe args.
Proof.
  intros Hm. rewrite parse_boolean_expr_unfold. unfold parse_boolean_expr_body.
  cbn [In] in Hm.
  repeat (destruct Hm as [<- | Hm]); try contradiction;
    rewrite !strip_call by reflexivity;
    rewrite method_call_shape by reflexivity;
    cbn [String.append];
    change (startswith "BOOLEAN[" _) with false;
    change (startswith "IF(" _) with false;
    cbn [andb].
  - replace (startswith "EQ(" _) with true
      by (symmetry; apply (startswith_app "EQ(" (x +:+ ")"))).
    reflexivity.
  - change (startswith "EQ(" _) with false.
    replace (startswith "GT(" _) with true
      by (symmetry; apply (startswith_app "GT(" (x +:+ ")"))).
    reflexivity.
  - change (startswith "EQ(" _) with false. change (startswith "GT(" _) with false.
    replace (startswith "LT(" _) with true
      by (symmetry; apply (startswith_app "LT(" (x +:+ ")"))).
    reflexivity.
  - change (startswith "EQ(" _) with false. change (startswith "GT(" _) with false.
    change (startswith "LT(" _) with false.
    replace (startswith "GTE(" _) with true
      by (symmetry; apply (startswith_app "GTE(" (x +:+ ")"))).
    reflexivity.
  - change (startswith "EQ(" _) with false. change (startswith "GT(" _) with false.
    change (startswith "LT(" _) with false. change (startswith "GTE(" _) with false.
    replace (startswith "LTE(" _) with true
      by (symmetry; apply (startswith_app "LTE(" (x +:+ ")"))).
    reflexivity.
  - change (startswith "EQ(" _) with false. change (startswith "GT(" _) with false.
    change (startswith "LT(" _) with false. change (startswith "GTE(" _) with false.
    change (startswith "LTE(" _) with false.
    replace (startswith "NE(" _) with true
      by (symmetry; apply (startswith_app "NE(" (x +:+ ")"))).
    reflexivity.
Qed.

(** X7: the two ways of writing a comparison as a call do not share their
    vocabulary.  [EQ] and [GT] mean the same inside [BOOLEAN[...]] and as a
    bare call; [LT], [GTE], [LTE] and [NE] are comparisons as bare calls and
    are rejected inside [BOOLEAN[...]]. *)
Theorem boolean_bracket_vocabulary (x : string) :
  parse_boolean_expr ("BOOLEAN[EQ(" +:+ x +:+ ")]") = parse_boolean_expr ("EQ(" +:+ x +:+ ")")
  /\ parse_boolean_expr ("BOOLEAN[GT(" +:+ x +:+ ")]") = parse_boolean_expr ("GT(" +:+ x +:+ ")")
  /\ (parse_boolean_expr ("LT(" +:+ x +:+ ")") = infix_cmp parse_value CLt (split_args x)
      /\ parse_boolean_expr ("BOOLEAN[LT(" +:+ x +:+ ")]") = Raise ValueError)
  /\ (parse_boolean_expr ("GTE(" +:+ x +:+ ")") = infix_cmp parse_value CGe (split_args x)
      /\ parse_boolean_expr ("BOOLEAN[GTE(" +:+ x +:+ ")]") = Raise ValueError)
  /\ (parse_boolean_expr ("LTE(" +:+ x +:+ ")") = infix_cmp parse_value CLe (split_args x)
      /\ parse_boolean_expr ("BOOLEAN[LTE(" +:+ x +:+ ")]") = Raise ValueError)
  /\ (parse_boolean_expr ("NE(" +:+ x +:+ ")") = method_cmp parse_value CNe (split_args x)
      /\ parse_boolean_expr ("BOOLEAN[NE(" +:+ x +:+ ")]") = Raise ValueError).
Proof.
  pose proof (boolean_bracket_call "EQ" x eq_refl) as B1.
  pose proof (boolean_bracket_call "GT" x eq_refl) as B2.
  pose proof (boolean_bracket_call "LT" x eq_refl) as B3.
  pose proof (boolean_bracket_call "GTE" x eq_refl) as B4.
  pose proof (boolean_bracket_call "LTE" x eq_refl) as B5.
  pose proof (boolean_bracket_call "NE" x eq_refl) as B6.
  pose proof (bare_call "EQ" x ltac:(cbn; tauto)) as C1.
  pose proof (bare_call "GT" x ltac:(cbn; tauto)) as C2.
  pose proof (bare_call "LT" x ltac:(cbn; tauto)) as C3.
  pose proof (bare_call "GTE" x ltac:(cbn; tauto)) as C4.
  pose proof (bare_call "LTE" x ltac:(cbn; tauto)) as C5.
  pose proof (bare_call "NE" x ltac:(cbn; tauto)) as C6.
  cbn [String.append] in *.
  repeat split.
  - now rewrite B1, C1.
  - now rewrite B2, C2.
  - now rewrite C3.
  - now rewrite B3.
  - now rewrite C4.
  - now rewrite B4.
  - now rewrite C5.
  - now rewrite B5.
  - now rewrite C6.
  - now rewrite B6.
Qed.

(** ** The infix form *)

Lemma has_char_app c a b : has_char c (a +:+ b) = has_char c a || has_char c b.
Proof.
  induction a as [|d a IH]; cbn [String.append has_char]; [reflexivity|].
  now rewrite IH, orb_assoc.
Qed.

Lemma all_lstrip p s : all p s = true -> all p (lstrip s) = true.
Proof.
  induction s as [|c s IH]; cbn [lstrip all]; [reflexivity|].
  intros H. destruct (is_space c); [|exact H].
  apply andb_prop in H as [_ H]. now apply IH.
Qed.

Lemma all_rstrip p s : all p s = true -> all p (rstrip s) = true.
Proof.
  induction s as [|c s IH]; cbn [rstrip all]; [reflexivity|].
  intros [Hc Hs]%andb_prop. specialize (IH Hs).
  destruct (rstrip s); [destruct (is_space c); cbn [all]; now rewrite ?Hc|].
  cbn [all] in *. now rewrite Hc, IH.
Qed.

Lemma all_has_char p c s :
  p c = false -> all p s = true -> has_char c s = false.
Proof.
  intros Hc. induction s as [|d s IH]; cbn [all has_char]; [reflexivity|].
  intros [Hd Hs]%andb_prop. rewrite (IH Hs), orb_false_r.
  destruct (Ascii.eqb_spec d c) as [->|]; [congruence | reflexivity].
Qed.

Lemma lstrip_app a c t :
  is_space c = false -> lstrip (a +:+ String c t) = lstrip a +:+ String c t.
Proof.
  intros Hc. induction a as [|d a IH]; cbn [String.append lstrip].
  - now rewrite Hc.
  - destruct (is_space d); [exact IH | reflexivity].
Qed.

Lemma strip_rstrip s : strip (rstrip s) = strip s.
Proof. unfold strip. now rewrite rstrip_idem. Qed.

Lemma strip_around a c t :
  is_space c = false ->
  strip (a +:+ String c t) = lstrip a +:+ String c (rstrip t).
Proof.
  intros Hc. unfold strip.
  assert (H : rstrip (a +:+ String c t) = a +:+ String c (rstrip t)).
  { induction a as [|d a IH]; cbn [String.append].
    - now apply rstrip_cons_nonspace.
    - cbn [rstrip]. rewrite IH.
      destruct a; cbn [String.append]; reflexivity. }
  rewrite H. now apply lstrip_app.
Qed.

Lemma startswith_app_stop p a o r :
  has_char o p = false -> startswith p (a +:+ String o r) = startswith p a.
Proof.
  unfold startswith. revert a. induction p as [|x p IH]; intros a Ho.
  - cbn [String.prefix]. now destruct a.
  - cbn [has_char] in Ho. apply orb_false_elim in Ho as [Hx Hp].
    destruct a as [|y a]; cbn [String.append String.prefix].
    + destruct (ascii_dec x o) as [->|]; [|reflexivity].
      now rewrite Ascii.eqb_refl in Hx.
    + destruct (ascii_dec x y); [now apply IH | reflexivity].
Qed.

Lemma split_first_absent_fst x p s :
  has_char x s = false -> split_first (String x p) s = None.
Proof.
  induction s as [|c s IH]; intros H.
  - reflexivity.
  - cbn [has_char] in H. apply orb_false_elim in H as [Hc Hs].
    cbn [split_first]. unfold startswith. cbn [String.prefix].
    destruct (ascii_dec x c) as [->|]; [now rewrite Ascii.eqb_refl in Hc|].
    now rewrite (IH Hs).
Qed.

Lemma split_first_absent_snd x y p s :
  has_char y s = false -> split_first (String x (String y p)) s = None.
Proof.
  induction s as [|c s IH]; intros H.
  - reflexivity.
  - cbn [has_char] in H. apply orb_false_elim in H as [Hc Hs].
    cbn [split_first]. rewrite (IH Hs).
    unfold startswith. cbn [String.prefix].
    destruct (ascii_dec x c); [|reflexivity].
    destruct s as [|d s]; [reflexivity|].
    cbn [has_char] in Hs. apply orb_false_elim in Hs as [Hd _].
    cbn [String.prefix].
    destruct (ascii_dec y d) as [->|]; [now rewrite Ascii.eqb_refl in Hd | reflexivity].
Qed.

(** One equals sign after another character is no [==]. *)
Lemma split_first_single_eq a c b :
  has_char "=" a = false -> has_char "=" b = false -> c <> "="%char ->
  split_first "==" (a +:+ String c (String "=" b)) = None.
Proof.
  intros Ha Hb Hc. induction a as [|y a IH]; cbn [String.append].
  - cbn [split_first]. unfold startswith. cbn [String.prefix].
    destruct (ascii_dec "=" c) as [<-|]; [contradiction|].
    rewrite (split_first_absent_fst "=" "=" b Hb).
    destruct b as [|d b]; [reflexivity|].
    cbn [has_char] in Hb. apply orb_false_elim in Hb as [Hd _].
    cbn [String.prefix].
    destruct (ascii_dec "=" d) as [<-|]; [discriminate | reflexivity].
  - cbn [has_char] in Ha. apply orb_false_elim in Ha as [Hy Ha].
    cbn [split_first]. unfold startswith. cbn [String.prefix].
    destruct (ascii_dec "=" y) as [<-|]; [discriminate|].
    now rewrite (IH Ha).
Qed.

Lemma drop_app_length p b : drop (String.length p) (p +:+ b) = b.
Proof. induction p as [|c p IH]; cbn [String.length String.append drop]; auto. Qed.

Lemma split_first_at x p a b :
  has_char x a = false ->
  split_first (String x p) (a +:+ String x p +:+ b) = Some (a, b).
Proof.
  intros Ha. induction a as [|y a IH].
  - cbn [String.append]. change (String x (p +:+ b)) with (String x p +:+ b).
    destruct (String x p +:+ b) eqn:E; [discriminate|]. rewrite <- E.
    unfold split_first at 1. rewrite E at 1. rewrite <- E.
    rewrite startswith_app. now rewrite drop_app_length.
  - cbn [has_char] in Ha. apply orb_false_elim in Ha as [Hy Ha].
    cbn [String.append split_first]. unfold startswith. cbn [String.prefix].
    destruct (ascii_dec x y) as [->|]; [now rewrite Ascii.eqb_refl in Hy|].
    cbn [String.append] in IH. now rewrite (IH Ha).
Qed.

Lemma operator_free_chars s :
  all (fun ch => negb (is_operator_char ch)) s = true ->
  has_char "=" s = false /\ has_char "!" s = false
  /\ has_char "<" s = false /\ has_char ">" s = false.
Proof.
  intros H. repeat split;
    (eapply all_has_char; [|exact H]); reflexivity.
Qed.

Lemma call_prefix_stop p a o r :
  In p call_prefixes -> is_operator_char o = true ->
  startswith p (a +:+ String o r) = startswith p a.
Proof.
  intros Hp Ho. apply startswith_app_stop.
  unfold is_operator_char in Ho.
  cbn [In call_prefixes] in Hp.
  repeat (destruct Hp as [<- | Hp]); try contradiction;
    repeat (apply orb_prop in Ho as [Ho | Ho]);
    apply Ascii.eqb_eq in Ho; subst o; reflexivity.
Qed.

(** A text whose left operand does not open a call form is no call form. *)
Lemma not_call_form a o r :
  existsb (fun p => startswith p a) call_prefixes = false ->
  is_operator_char o = true ->
  let e := a +:+ String o r in
  startswith "BOOLEAN[" e = false /\ startswith "IF(" e = false
  /\ startswith "EQ(" e = false /\ startswith "GT(" e = false
  /\ startswith "LT(" e = false /\ startswith "GTE(" e = false
  /\ startswith "LTE(" e = false /\ startswith "NE(" e = false.
Proof.
  intros H Ho e. subst e. cbn [existsb call_prefixes] in H.
  repeat (apply orb_false_elim in H as [? H]).
  repeat split; (rewrite call_prefix_stop; [assumption | cbn; tauto | assumption]).
Qed.

Section Infix.

Variables lhs rhs : string.
Hypothesis Hl : all (fun ch => negb (is_operator_char ch)) lhs = true.
Hypothesis Hr : all (fun ch => negb (is_operator_char ch)) rhs = true.
Hypothesis Hcall : existsb (fun p => startswith p (lstrip lhs)) call_prefixes = false.

Local Abbreviation A := (lstrip lhs).
Local Abbreviation B := (rstrip rhs).

Lemma operands_free :
  (has_char "=" A = false /\ has_char "!" A = false
   /\ has_char "<" A = false /\ has_char ">" A = false)
  /\ (has_char "=" B = false /\ has_char "!" B = false
      /\ has_char "<" B = false /\ has_char ">" B = false).
Proof.
  split; apply operator_free_chars; [now apply all_lstrip | now apply all_rstrip].
Qed.

Lemma parse_operands :
  parse_value (strip A) = parse_value lhs /\ parse_value (strip B) = parse_value rhs.
Proof.
  now rewrite strip_lstrip, strip_rstrip, !parse_value_strip.
Qed.

Lemma has_char_mid ch s :
  has_char ch A = false -> has_char ch s = false -> has_char ch B = false ->
  has_char ch (A +:+ s +:+ B) = false.
Proof. intros H1 H2 H3. now rewrite !has_char_app, H1, H2, H3. Qed.

(** A text whose left operand opens no call form goes to the scan of the
    operators. *)
Lemma infix_body o r :
  is_operator_char o = true ->
  parse_boolean_expr_body parse_value parse_boolean_expr (lhs +:+ String o r)
  = infix_scan parse_value infix_ops (A +:+ String o (rstrip r)).
Proof.
  intros Ho. unfold parse_boolean_expr_body.
  assert (Hs : strip (lhs +:+ String o r) = A +:+ String o (rstrip r)).
  { apply strip_around.
    unfold is_operator_char in Ho.
    repeat (apply orb_prop in Ho as [Ho | Ho]);
      apply Ascii.eqb_eq in Ho; subst o; reflexivity. }
  rewrite Hs.
  destruct (not_call_form A o (rstrip r) Hcall Ho)
    as (-> & -> & -> & -> & -> & -> & -> & ->).
  reflexivity.
Qed.

Ltac absent :=
  first
    [ rewrite split_first_absent_fst
        by (apply (has_char_mid _ (String _ (String _ EmptyString))); [assumption | reflexivity | assumption])
    | rewrite split_first_absent_fst
        by (apply (has_char_mid _ (String _ EmptyString)); [assumption | reflexivity | assumption])
    | rewrite split_first_absent_snd
        by (apply (has_char_mid _ (String _ (String _ EmptyString))); [assumption | reflexivity | assumption])
    | rewrite split_first_absent_snd
        by (apply (has_char_mid _ (String _ EmptyString)); [assumption | reflexivity | assumption])
    | rewrite split_first_single_eq by (assumption || discriminate) ].

Lemma infix_two o (c : cmpop) :
  In (String o (String "=" EmptyString), c) infix_ops ->
  parse_boolean_expr (lhs +:+ String o (String "=" rhs))
  = (pl <- parse_value lhs ;;
     pr <- parse_value rhs ;;
     match c with
     | CEq | CNe => l <- receiver pl ;; r <- operand pr ;; Ok (Cmp c l r)
     | _ => l <- operand pl ;; r <- operand pr ;; Ok (Cmp c l r)
     end).
Proof.
  intros Hin.
  destruct operands_free as ((Ha1 & Ha2 & Ha3 & Ha4) & (Hb1 & Hb2 & Hb3 & Hb4)).
  destruct parse_operands as [Hpl Hpr].
  rewrite parse_boolean_expr_unfold.
  cbn [In infix_ops] in Hin.
  repeat (destruct Hin as [[= <- <-] | Hin]); try contradiction;
    rewrite infix_body by reflexivity;
    rewrite rstrip_cons_nonspace by reflexivity;
    cbn [infix_scan infix_ops];
    repeat absent;
    match goal with
    | |- context [split_first (String ?x ?p) _] =>
        let H := fresh in
        pose proof (split_first_at x p A B ltac:(assumption)) as H;
        cbn [String.append] in H; rewrite H
    end;
    now rewrite Hpl, Hpr.
Qed.

Lemma infix_one o (c : cmpop) :
  In (String o EmptyString, c) infix_ops ->
  parse_boolean_expr (lhs +:+ String o rhs)
  = (pl <- parse_value lhs ;;
     pr <- parse_value rhs ;;
     l <- operand pl ;; r <- operand pr ;; Ok (Cmp c l r)).
Proof.
  intros Hin.
  destruct operands_free as ((Ha1 & Ha2 & Ha3 & Ha4) & (Hb1 & Hb2 & Hb3 & Hb4)).
  destruct parse_operands as [Hpl Hpr].
  rewrite parse_boolean_expr_unfold.
  cbn [In infix_ops] in Hin.
  repeat (destruct Hin as [[= <- <-] | Hin]); try contradiction;
    rewrite infix_body by reflexivity;
    cbn [infix_scan infix_ops];
    repeat absent;
    match goal with
    | |- context [split_first (String ?x ?p) _] =>
        let H := fresh in
        pose proof (split_first_at x p A B ltac:(assumption)) as H;
        cbn [String.append] in H; rewrite H
    end;
    now rewrite Hpl, Hpr.
Qed.

End Infix.

(** X8: in the infix form the text is cut at the first occurrence of its
    operator, and a two-character operator is never taken for its
    one-character prefix.  The operands hold none of the characters of the
    operators and the left one opens no call form. *)
Theorem infix_comparison (lhs rhs op : string) (c : cmpop) :
  all (fun ch => negb (is_operator_char ch)) lhs = true ->
  all (fun ch => negb (is_operator_char ch)) rhs = true ->
  existsb (fun p => startswith p (lstrip lhs)) call_prefixes = false ->
  In (op, c) infix_ops ->
  parse_boolean_expr (lhs +:+ op +:+ rhs)
  = (pl <- parse_value lhs ;;
     pr <- parse_value rhs ;;
     match c with
     | CEq | CNe => l <- receiver pl ;; r <- operand pr ;; Ok (Cmp c l r)
     | _ => l <- operand pl ;; r <- operand pr ;; Ok (Cmp c l r)
     end).
Proof.
  intros Hl Hr Hcall Hin.
  pose proof (infix_two lhs rhs Hl Hr Hcall) as H2.
  pose proof (infix_one lhs rhs Hl Hr Hcall) as H1.
  cbn [In infix_ops] in Hin.
  repeat (destruct Hin as [[= <- <-] | Hin]); try contradiction;
    cbn [String.append];
    match goal with
    | |- context [Cmp ?k _ _] =>
        first [ apply (H2 _ k); cbn; tauto | apply (H1 _ k); cbn; tauto ]
    end.
Qed.

Lemma infix_comparison_witness :
  parse_boolean_expr "ATTR('age') >= 18"
    = Ok (Cmp CGe (Col "age") (Lit (PyInt 18))).
Proof.
  exact (infix_comparison "ATTR('age') " " 18" ">=" CGe
           eq_refl eq_refl eq_refl ltac:(cbn; tauto)).
Defined.

(* ===================================================================== *)
(** * Transform expressions *)
(* ===================================================================== *)

Section Absent.

Variable c : ascii.

Lemma absent_lstrip s : has_char c s = false -> has_char c (lstrip s) = false.
Proof.
  induction s as [|d s IH]; cbn [lstrip]; [auto|].
  intros H. destruct (is_space d); [|exact H].
  cbn [has_char] in H. apply orb_false_elim in H as [_ H]. now apply IH.
Qed.

Lemma absent_rstrip s : has_char c s = false -> has_char c (rstrip s) = false.
Proof.
  induction s as [|d s IH]; cbn [rstrip]; [auto|].
  cbn [has_char]. intros [Hd Hs]%orb_false_elim. specialize (IH Hs).
  destruct (rstrip s).
  - destruct (is_space d); cbn [has_char]; now rewrite ?Hd.
  - cbn [has_char] in *. now rewrite Hd, IH.
Qed.

Lemma absent_strip s : has_char c s = false -> has_char c (strip s) = false.
Proof. intros H. unfold strip. now apply absent_lstrip, absent_rstrip. Qed.

Lemma absent_drop n s : has_char c s = false -> has_char c (drop n s) = false.
Proof.
  revert s. induction n as [|n IH]; intros [|d s] H; cbn [drop]; auto.
  cbn [has_char] in H. apply orb_false_elim in H as [_ H]. now apply IH.
Qed.

Lemma absent_unsnoc s r l :
  unsnoc s = Some (r, l) -> has_char c s = false -> has_char c r = false.
Proof.
  revert r. induction s as [|d s IH]; intros r; [discriminate|].
  cbn [unsnoc has_char]. intros E [Hd Hs]%orb_false_elim.
  destruct (unsnoc s) as [[r' l']|].
  - injection E as <- <-. cbn [has_char]. rewrite Hd. now apply (IH r').
  - now injection E as <- <-.
Qed.

Lemma absent_span_word s :
  has_char c s = false -> has_char c (snd (Re.span_word s)) = false.
Proof.
  induction s as [|d s IH]; cbn [Re.span_word]; [auto|].
  intros H. destruct (is_word d); [|exact H].
  cbn [has_char] in H. apply orb_false_elim in H as [_ H].
  specialize (IH H). now destruct (Re.span_word s).
Qed.

End Absent.

Lemma op_bracket_needs_bracket s : has_char "[" s = false -> Re.op_bracket s = None.
Proof.
  intros H. unfold Re.op_bracket.
  pose proof (absent_lstrip "[" _ (absent_span_word "[" s H)) as H'.
  destruct (Re.span_word s) as [w r1]. cbn [snd] in H'.
  destruct w; [reflexivity|].
  destruct (lstrip r1) as [|d body]; [reflexivity|].
  cbn [has_char] in H'. apply orb_false_elim in H' as [Hd _]. now rewrite Hd.
Qed.

Lemma op_bracket_absent c s w g :
  Re.op_bracket s = Some (w, g) -> has_char c s = false -> has_char c g = false.
Proof.
  unfold Re.op_bracket. intros E H.
  pose proof (absent_lstrip c _ (absent_span_word c s H)) as H'.
  destruct (Re.span_word s) as [w' r1]. cbn [snd] in H'.
  destruct w'; [discriminate|].
  destruct (lstrip r1) as [|d body]; [discriminate|].
  destruct (Ascii.eqb d "["); [|discriminate].
  cbn [has_char] in H'. apply orb_false_elim in H' as [_ Hb].
  unfold Re.bracket_body in E.
  destruct (endswith_char "]" (rstrip body)); [|discriminate].
  injection E as _ <-. unfold drop_last.
  pose proof (absent_rstrip c body Hb) as Hr.
  destruct (unsnoc (rstrip body)) as [[r l]|] eqn:Eu; [|reflexivity].
  exact (absent_unsnoc c _ _ _ Eu Hr).
Qed.

Lemma method_call_needs_paren s : has_char "(" s = false -> Re.method_call s = None.
Proof.
  intros H. unfold Re.method_call.
  pose proof (absent_lstrip "(" _ (absent_span_word "(" s H)) as H'.
  destruct (Re.span_word s) as [w r1]. cbn [snd] in H'.
  destruct w; [reflexivity|].
  destruct (lstrip r1) as [|d body]; [reflexivity|].
  cbn [has_char] in H'. apply orb_false_elim in H' as [Hd _]. now rewrite Hd.
Qed.

Lemma match_transform_cases e :
  match_transform e = Re.op_bracket e
  \/ match_transform e = Re.op_bracket (lstrip (drop 5 e)).
Proof.
  unfold match_transform, Re.trns_op_bracket.
  destruct (startswith "trns:" (lower e)); auto.
Qed.

(** X9: a transform text needs an opening bracket and an opening
    parenthesis; without either it is rejected as malformed. *)
Theorem transform_needs_bracket_and_call (e : string) :
  has_char "[" e = false \/ has_char "(" e = false ->
  parse_transform_expression e = Raise ValueError.
Proof.
  intros H. rewrite parse_transform_expression_unfold.
  unfold parse_transform_expression_body.
  destruct H as [H|H].
  - apply (absent_strip "[") in H.
    destruct (match_transform_cases (strip e)) as [-> | ->].
    + now rewrite op_bracket_needs_bracket.
    + rewrite op_bracket_needs_bracket; [reflexivity|].
      now apply absent_lstrip, absent_drop.
  - apply (absent_strip "(") in H.
    destruct (match_transform (strip e)) as [[op inner]|] eqn:E; [|reflexivity].
    assert (Hi : has_char "(" inner = false).
    { destruct (match_transform_cases (strip e)) as [E' | E']; rewrite E' in E.
      - exact (op_bracket_absent _ _ _ _ E H).
      - apply (op_bracket_absent _ _ _ _ E). now apply absent_lstrip, absent_drop. }
    unfold parse_method_call.
    rewrite method_call_needs_paren; [reflexivity|].
    now apply absent_strip, absent_strip.
Qed.

Lemma transform_needs_bracket_and_call_witness :
  parse_transform_expression "trns: upper(name)" = Raise ValueError
  /\ parse_transform_expression "STRING[UPPER name]" = Raise ValueError.
Proof.
  split.
  - apply (transform_needs_bracket_and_call "trns: upper(name)"). left. reflexivity.
  - apply (transform_needs_bracket_and_call "STRING[UPPER name]"). right. reflexivity.
Defined.

Lemma call_bracket_assoc m x :
  m +:+ String "(" (x +:+ ")]") = (m +:+ String "(" (x +:+ ")")) +:+ "]".
Proof.
  induction m as [|c m IH]; cbn [String.append].
  - f_equal. induction x as [|d x IHx]; cbn [String.append]; [reflexivity|].
    now rewrite IHx.
  - now rewrite IH.
Qed.

Lemma match_transform_shape op inner :
  is_word_run op = true ->
  match_transform (op +:+ String "[" (inner +:+ "]")) = Some (op, inner).
Proof.
  intros Hop. destruct (word_run_inv op Hop) as (Hw & _).
  unfold match_transform.
  rewrite not_trns_prefix by (assumption || reflexivity || discriminate).
  now apply op_bracket_shape.
Qed.

(** A text [op[inner]] goes to the dispatch on its family once the method
    call is read. *)
Lemma parse_bracketed op inner :
  is_word_run op = true ->
  parse_transform_expression (op +:+ String "[" (inner +:+ "]"))
  = (ma <- parse_method_call (strip inner) ;;
     dispatch parse_value parse_boolean_expr (upper op) (fst ma) (snd ma)).
Proof.
  intros Hop. rewrite parse_transform_expression_unfold.
  unfold parse_transform_expression_body.
  rewrite strip_bracketed by assumption.
  now rewrite match_transform_shape.
Qed.

Lemma parse_method_call_strip s : parse_method_call (strip s) = parse_method_call s.
Proof. unfold parse_method_call. now rewrite strip_idem. Qed.

Lemma parse_bracketed_call op m x :
  is_word_run op = true -> is_word_run m = true ->
  parse_transform_expression (op +:+ String "[" (m +:+ String "(" (x +:+ ")]")))
  = dispatch parse_value parse_boolean_expr (upper op) (upper m) (split_args x).
Proof.
  intros Hop Hm. rewrite call_bracket_assoc, parse_bracketed by assumption.
  rewrite parse_method_call_strip, parse_method_call_shape by assumption.
  reflexivity.
Qed.

(** X10: a family name outside the ten that are dispatched is rejected,
    whatever stands between the brackets. *)
Theorem unknown_family_rejected (op inner : string) :
  is_word_run op = true ->
  existsb (String.eqb (upper op)) Spec.families = false ->
  parse_transform_expression (op +:+ "[" +:+ inner +:+ "]") = Raise ValueError.
Proof.
  intros Hop Hf. cbn [String.append]. rewrite parse_bracketed by assumption.
  unfold parse_method_call.
  destruct (Re.method_call _) as [[m a]|]; [|reflexivity].
  cbn [bind fst snd]. unfold dispatch.
  cbn [existsb Spec.families] in Hf.
  repeat (apply orb_false_elim in Hf as [? Hf]).
  repeat match goal with H : String.eqb (upper op) _ = false |- _ => rewrite H; clear H end.
  reflexivity.
Qed.

Lemma unknown_family_rejected_witness :
  parse_transform_expression "NUMBER[ADD(a, b)]" = Raise ValueError.
Proof.
  apply (unknown_family_rejected "NUMBER" "ADD(a, b)"); reflexivity.
Defined.

Lemma upper_char_idem c : upper_char (upper_char c) = upper_char c.
Proof. destruct c as [[] [] [] [] [] [] [] []]; reflexivity. Qed.

Lemma upper_idem s : upper (upper s) = upper s.
Proof.
  induction s as [|c s IH]; [reflexivity|].
  cbn [upper smap] in *. now rewrite upper_char_idem, IH.
Qed.

Lemma upper_char_word c : is_word (upper_char c) = is_word c.
Proof. destruct c as [[] [] [] [] [] [] [] []]; reflexivity. Qed.

Lemma all_word_upper s : all is_word (upper s) = all is_word s.
Proof.
  induction s as [|c s IH]; [reflexivity|].
  cbn [upper smap all] in *. now rewrite upper_char_word, IH.
Qed.

Lemma upper_word_run s : is_word_run s = true -> is_word_run (upper s) = true.
Proof.
  unfold is_word_run. intros [Hn Hw]%andb_prop.
  rewrite all_word_upper, Hw. now destruct s.
Qed.

(** X11: the names of the family and of the method are read without regard
    to the case of their letters. *)
Theorem names_are_case_insensitive (op m x : string) :
  is_word_run op = true -> is_word_run m = true ->
  parse_transform_expression (op +:+ "[" +:+ m +:+ "(" +:+ x +:+ ")]")
  = parse_transform_expression (upper op +:+ "[" +:+ upper m +:+ "(" +:+ x +:+ ")]").
Proof.
  intros Hop Hm. cbn [String.append].
  rewrite !parse_bracketed_call by (assumption || now apply upper_word_run).
  now rewrite !upper_idem.
Qed.

Lemma names_are_case_insensitive_witness :
  parse_transform_expression "math[add(a, 1)]"
    = parse_transform_expression "MATH[ADD(a, 1)]".
Proof.
  apply (names_are_case_insensitive "math" "add" "a, 1"); reflexivity.
Defined.

(** ** The vocabulary of simple transforms *)

Lemma smap_app f a b : smap f (a +:+ b) = smap f a +:+ smap f b.
Proof.
  induction a as [|c a IH]; cbn [String.append smap]; [reflexivity|]. now rewrite IH.
Qed.

Lemma smap_length f s : String.length (smap f s) = String.length s.
Proof. induction s as [|c s IH]; cbn [smap String.length]; [reflexivity|]. now rewrite IH. Qed.

Lemma prefix_length p s :
  startswith p s = true -> (String.length p <= String.length s)%nat.
Proof.
  unfold startswith. revert s. induction p as [|x p IH]; intros s; cbn [String.length]; [lia|].
  destruct s as [|c s]; cbn [String.prefix String.length]; [discriminate|].
  destruct (ascii_dec x c); [|discriminate]. intros H. apply IH in H. lia.
Qed.

Lemma drop_app_le n a b :
  (n <= String.length a)%nat -> drop n (a +:+ b) = drop n a +:+ b.
Proof.
  revert a. induction n as [|n IH]; intros a H; [reflexivity|].
  destruct a as [|c a]; cbn [String.length] in H; [lia|].
  cbn [String.append drop]. apply IH. lia.
Qed.

Lemma startswith_word_bracket P op r :
  all is_word P = true -> all is_word op = true ->
  startswith (P +:+ "[") (op +:+ String "[" r) = true -> P = op.
Proof.
  unfold startswith. revert op. induction P as [|x P IH]; intros op HP Hop.
  - destruct op as [|c op]; [reflexivity|].
    cbn [String.append String.prefix all] in *.
    destruct (ascii_dec "[" c) as [<-|]; [discriminate | discriminate].
  - cbn [all] in HP. apply andb_prop in HP as [Hx HP].
    destruct op as [|c op]; cbn [String.append String.prefix].
    + destruct (ascii_dec x "[") as [->|]; [discriminate | discriminate].
    + cbn [all] in Hop. apply andb_prop in Hop as [_ Hop].
      destruct (ascii_dec x c) as [->|]; [|discriminate].
      intros H. f_equal. now apply IH.
Qed.

Lemma bracketed_not_word w r name :
  has_char "[" name = false -> String.eqb (w +:+ String "[" r) name = false.
Proof.
  intros H. destruct (String.eqb_spec (w +:+ String "[" r) name) as [E|]; [|reflexivity].
  rewrite <- E, has_char_app in H. cbn [has_char] in H.
  rewrite orb_true_r in H. discriminate.
Qed.

Lemma keyword_quoted_bracket kw w r :
  all is_word w = true -> has_char "[" kw = false ->
  Re.keyword_quoted kw (w +:+ String "[" r) = None.
Proof.
  intros Hw Hk. unfold Re.keyword_quoted.
  destruct (startswith kw (lower (w +:+ String "[" r))) eqn:E; [|reflexivity].
  unfold lower in E. rewrite smap_app in E. cbn [smap] in E.
  change (lower_char "[") with "["%char in E.
  rewrite startswith_app_stop in E by assumption.
  apply prefix_length in E. rewrite smap_length in E.
  rewrite drop_app_le by assumption.
  pose proof (all_drop is_word (String.length kw) w Hw) as Hd.
  destruct (drop (String.length kw) w) as [|c d]; cbn [String.append].
  - reflexivity.
  - cbn [all] in Hd. apply andb_prop in Hd as [Hc _].
    rewrite lstrip_nonspace by now apply word_not_space.
    cbn [Re.quoted_call]. now destruct (word_chars c Hc) as (_ & -> & _).
Qed.

(** X12: without the prefix, only the eight openings listed in
    [coerce_simple_transform] lead to the expression parser; any other family
    name followed by a bracket, among them [AGGREGATION], [FILTERS] and the
    lower-case spellings, is rejected as an unsupported simple transform. *)
Theorem unprefixed_family_must_be_listed (op inner : string) (src : expr) :
  is_word_run op = true ->
  existsb (String.eqb (op +:+ "[")) unprefixed_families = false ->
  coerce_simple_transform (op +:+ "[" +:+ inner +:+ "]") src = Raise ValueError
  /\ apply_transform (PyStr (op +:+ "[" +:+ inner +:+ "]")) src = Raise TransformError.
Proof.
  intros Hop Hf. destruct (word_run_inv op Hop) as (Hw & _).
  cbn [String.append].
  assert (Ht : startswith "trns:" (lower (op +:+ String "[" (inner +:+ "]"))) = false)
    by (apply not_trns_prefix; (assumption || reflexivity || discriminate)).
  assert (Hc : coerce_simple_transform (op +:+ String "[" (inner +:+ "]")) src
               = Raise ValueError).
  { unfold coerce_simple_transform.
    rewrite strip_bracketed by assumption. rewrite Ht.
    assert (He : existsb (fun p => startswith p (op +:+ String "[" (inner +:+ "]")))
                   unprefixed_families = false).
    { cbn [existsb unprefixed_families] in *.
      repeat (apply orb_false_elim in Hf as [? Hf]).
      repeat match goal with
      | H : String.eqb (op +:+ "[") (String ?a ?b) = false
        |- context [startswith (String ?a ?b) ?t] =>
          let E := fresh in
          destruct (startswith (String a b) t) eqn:E;
          [ exfalso;
            let P := eval vm_compute in (drop_last (String a b)) in
            apply (startswith_word_bracket P op) in E; [|reflexivity|assumption];
            rewrite <- E in H; discriminate H
          | clear H ]
      end.
      reflexivity. }
    rewrite He.
    rewrite !bracketed_not_word by reflexivity.
    now rewrite !keyword_quoted_bracket by (assumption || reflexivity). }
  split; [exact Hc|].
  unfold apply_transform. rewrite strip_bracketed by assumption.
  now rewrite Ht, Hc.
Qed.

Lemma unprefixed_family_must_be_listed_witness :
  coerce_simple_transform "AGGREGATION[SUM(x)]" (Col "x") = Raise ValueError
  /\ parse_transform_expression "AGGREGATION[SUM(x)]"
     = Ok (PExpr (Method "arr.sum" (Col "x") [])).
Proof.
  split.
  - apply (unprefixed_family_must_be_listed "AGGREGATION" "SUM(x)" (Col "x"));
      reflexivity.
  - vm_compute. reflexivity.
Defined.

(* ===================================================================== *)
(** * The lexer inside a group *)
(* ===================================================================== *)

Lemma no_comma_one_piece s : forall k before,
  Spec.top_level_commas_from k before s = O -> Spec.pieces_from k before s = [s].
Proof.
  induction s as [|ch s IH]; intros k before;
    cbn [Spec.top_level_commas_from Spec.pieces_from]; [reflexivity|].
  destruct (Spec.top_level k && Ascii.eqb ch ","); [discriminate|].
  cbn [Nat.add]. intros H. now rewrite (IH _ _ H).
Qed.

(** A text without a comma at top level is one argument. *)
Lemma split_args_single s :
  s <> EmptyString -> Spec.top_level_commas s = O -> split_args s = [strip s].
Proof.
  intros Hne H0. rewrite split_args_pieces. unfold Spec.last_argument, Spec.pieces.
  unfold Spec.top_level_commas in H0.
  rewrite (no_comma_one_piece s _ _ H0). cbn [List.last].
  destruct (String.eqb_spec s EmptyString); [contradiction | reflexivity].
Qed.

Lemma commas_app x : forall k before y,
  Spec.top_level_commas_from k before (x +:+ y)
  = (Spec.top_level_commas_from k before x
     + Spec.top_level_commas_from (fst (Spec.after_text k before x))
         (snd (Spec.after_text k before x)) y)%nat.
Proof.
  induction x as [|ch x IH]; intros k before y;
    cbn [String.append Spec.top_level_commas_from Spec.after_text fst snd];
    [reflexivity|].
  rewrite IH. lia.
Qed.

Lemma after_text_app x : forall k before y,
  Spec.after_text k before (x +:+ y)
  = Spec.after_text (fst (Spec.after_text k before x))
      (snd (Spec.after_text k before x)) y.
Proof.
  induction x as [|ch x IH]; intros k before y;
    cbn [String.append Spec.after_text fst snd]; [reflexivity | apply IH].
Qed.

(** Outside a quote, what stands before the next character plays no role. *)
Lemma before_irrelevant s k b b' :
  Spec.quote k = None ->
  Spec.top_level_commas_from k b s = Spec.top_level_commas_from k b' s
  /\ fst (Spec.after_text k b s) = fst (Spec.after_text k b' s)
  /\ Spec.well_balanced_from k b s = Spec.well_balanced_from k b' s.
Proof.
  intros Hq. destruct s as [|ch s];
    cbn [Spec.top_level_commas_from Spec.after_text Spec.well_balanced_from fst];
    [repeat split|].
  assert (E : Spec.after k b ch = Spec.after k b' ch)
    by (unfold Spec.after; now rewrite Hq).
  rewrite E. repeat split.
Qed.

(** A text without grouping character, read outside a quote and not at top
    level: the counters stay and no comma counts. *)
Lemma scan_below s : forall k before,
  Spec.quote k = None -> Spec.top_level k = false ->
  all (fun c => negb (is_grouping c)) s = true ->
  Spec.top_level_commas_from k before s = O
  /\ fst (Spec.after_text k before s) = k.
Proof.
  induction s as [|ch s IH]; intros k before Hq Ht Hs;
    cbn [Spec.top_level_commas_from Spec.after_text fst]; [split; reflexivity|].
  cbn [all] in Hs. apply andb_prop in Hs as [Hc Hs].
  apply negb_true_iff in Hc. unfold is_grouping in Hc.
  do 4 (apply orb_false_elim in Hc as [Hc ?]).
  assert (E : Spec.after k before ch = k).
  { unfold Spec.after. rewrite Hq, Hc.
    repeat match goal with H : Ascii.eqb ch _ = false |- _ => rewrite H; clear H end.
    reflexivity. }
  rewrite E, Ht. cbn [andb Nat.add]. now apply IH.
Qed.

(** A text without grouping character and without comma, read outside a
    quote. *)
Lemma scan_plain s : forall k before,
  Spec.quote k = None ->
  all (fun c => negb (is_grouping c) && negb (Ascii.eqb c ",")) s = true ->
  Spec.top_level_commas_from k before s = O
  /\ fst (Spec.after_text k before s) = k.
Proof.
  induction s as [|ch s IH]; intros k before Hq Hs;
    cbn [Spec.top_level_commas_from Spec.after_text fst]; [split; reflexivity|].
  cbn [all] in Hs. apply andb_prop in Hs as [[Hc Hcomma]%andb_prop Hs].
  apply negb_true_iff in Hc, Hcomma. unfold is_grouping in Hc.
  do 4 (apply orb_false_elim in Hc as [Hc ?]).
  assert (E : Spec.after k before ch = k).
  { unfold Spec.after. rewrite Hq, Hc.
    repeat match goal with H : Ascii.eqb ch _ = false |- _ => rewrite H; clear H end.
    reflexivity. }
  rewrite E, Hcomma, andb_false_r. cbn [Nat.add]. now apply IH.
Qed.

(** Inside a quote, a text that does not hold the quote character. *)
Lemma scan_quoted q s : forall k before,
  Spec.quote k = Some q -> has_char q s = false ->
  Spec.top_level_commas_from k before s = O
  /\ fst (Spec.after_text k before s) = k.
Proof.
  induction s as [|ch s IH]; intros k before Hq Hs;
    cbn [Spec.top_level_commas_from Spec.after_text fst]; [split; reflexivity|].
  cbn [has_char] in Hs. apply orb_false_elim in Hs as [Hc Hs].
  assert (E : Spec.after k before ch = k)
    by (unfold Spec.after; now rewrite Hq, Hc).
  assert (Ht : Spec.top_level k = false) by (unfold Spec.top_level; now rewrite Hq).
  rewrite E, Ht. cbn [andb Nat.add]. now apply IH.
Qed.

Lemma after_deeper dp db k before ch :
  Spec.after (deeper dp db k) before ch = deeper dp db (Spec.after k before ch).
Proof.
  destruct k as [p b q]. unfold Spec.after, deeper.
  cbn [Spec.parens Spec.brackets Spec.quote].
  destruct q as [q|].
  - destruct (Ascii.eqb ch q && negb (Spec.escaped before)); reflexivity.
  - repeat match goal with
           | |- context [if ?c then _ else _] => destruct c
           end; cbn [Spec.parens Spec.brackets Spec.quote]; f_equal; lia.
Qed.

(** A well-balanced text read inside a group: no comma of it stands at top
    level, and the counters are back where they were at its end. *)
Lemma scan_inside g : forall k before dp db,
  0 <= dp -> 0 <= db -> 1 <= dp + db ->
  Spec.well_balanced_from k before g = true ->
  Spec.top_level_commas_from (deeper dp db k) before g = O
  /\ fst (Spec.after_text (deeper dp db k) before g) = Spec.Counters dp db None.
Proof.
  induction g as [|ch g IH]; intros k before dp db Hp Hb Hd;
    cbn [Spec.well_balanced_from Spec.top_level_commas_from Spec.after_text fst].
  - intros H. apply andb_prop in H as [_ H]. split; [reflexivity|].
    destruct k as [p b [q|]]; unfold Spec.top_level in H;
      cbn [Spec.parens Spec.brackets Spec.quote] in H; [discriminate|].
    apply andb_prop in H as [H1 H2]. apply Z.eqb_eq in H1, H2. subst. reflexivity.
  - intros H. apply andb_prop in H as [[H1 H2]%andb_prop H].
    apply Z.leb_le in H1, H2.
    assert (Ht : Spec.top_level (deeper dp db k) = false).
    { unfold Spec.top_level, deeper. cbn [Spec.parens Spec.brackets Spec.quote].
      destruct (Spec.quote k); [reflexivity|].
      destruct (Z.eqb_spec (Spec.parens k + dp) 0); [|reflexivity].
      destruct (Z.eqb_spec (Spec.brackets k + db) 0); [lia | reflexivity]. }
    rewrite Ht, after_deeper. cbn [andb Nat.add]. now apply IH.
Qed.

Lemma app_nonempty a c b : a +:+ String c b <> EmptyString.
Proof. destruct a; discriminate. Qed.

(** The count of top-level commas of a text made of a plain text, an
    opening character, a body, a closing character and a plain text, when
    the body holds no top-level comma and leaves the counters where it found
    them. *)
Lemma commas_around pre o body c post k1 :
  all (fun c => negb (is_grouping c) && negb (Ascii.eqb c ",")) pre = true ->
  all (fun c => negb (is_grouping c) && negb (Ascii.eqb c ",")) post = true ->
  Ascii.eqb o "," = false -> Ascii.eqb c "," = false ->
  (forall b, Spec.after Spec.outside b o = k1) ->
  (forall b, Spec.top_level_commas_from k1 b body = O
             /\ fst (Spec.after_text k1 b body) = k1) ->
  (forall b, Spec.after k1 b c = Spec.outside
             \/ (Spec.after k1 b c = k1
                 /\ forall b', Spec.top_level_commas_from k1 b' post = O)) ->
  Spec.top_level_commas (pre +:+ String o (body +:+ String c post)) = O.
Proof.
  intros Hpre Hpost Ho Hc Hopen Hbody Hclose. unfold Spec.top_level_commas.
  rewrite commas_app.
  destruct (scan_plain pre Spec.outside None eq_refl Hpre) as [-> ->].
  cbn [Nat.add Spec.top_level_commas_from]. rewrite Ho, andb_false_r, Hopen.
  cbn [Nat.add]. rewrite commas_app.
  destruct (Hbody (Some o)) as [-> ->]. cbn [Nat.add Spec.top_level_commas_from].
  rewrite Hc, andb_false_r. cbn [Nat.add].
  destruct (Hclose (snd (Spec.after_text k1 (Some o) body))) as [-> | [-> H]].
  - now destruct (scan_plain post Spec.outside (Some c) eq_refl Hpost).
  - apply H.
Qed.

(** X13: a comma splits only at top level.  A text without top-level comma is
    one argument; so a group in parentheses or in brackets whose content is
    well balanced, however deep it nests, and a quoted text are never
    split, whatever plain text stands around them; and after a closing
    parenthesis or bracket that nothing opened the depth is negative, so in
    a text without further grouping character no comma splits. *)
Theorem commas_inside_groups (pre post : string) :
  all (fun c => negb (is_grouping c) && negb (Ascii.eqb c ",")) pre = true ->
  all (fun c => negb (is_grouping c) && negb (Ascii.eqb c ",")) post = true ->
  (forall s, s <> EmptyString -> Spec.top_level_commas s = O ->
     split_args s = [strip s])
  /\ (forall g, Spec.well_balanced g = true ->
        split_args (pre +:+ "(" +:+ g +:+ ")" +:+ post)
        = [strip (pre +:+ "(" +:+ g +:+ ")" +:+ post)]
        /\ split_args (pre +:+ "[" +:+ g +:+ "]" +:+ post)
           = [strip (pre +:+ "[" +:+ g +:+ "]" +:+ post)])
  /\ (forall q g, is_quote q = true -> has_char q g = false ->
        split_args (pre +:+ String q (g +:+ String q post))
        = [strip (pre +:+ String q (g +:+ String q post))])
  /\ (forall s, all (fun c => negb (is_grouping c)) s = true ->
        split_args (")" +:+ s) = [strip (")" +:+ s)]
        /\ split_args ("]" +:+ s) = [strip ("]" +:+ s)]).
Proof.
  intros Hpre Hpost. split; [exact split_args_single|]. split; [|split].
  - intros g Hg. cbn [String.append].
    assert (Hin : forall dp db b, 0 <= dp -> 0 <= db -> 1 <= dp + db ->
              Spec.top_level_commas_from (Spec.Counters dp db None) b g = O
              /\ fst (Spec.after_text (Spec.Counters dp db None) b g)
                 = Spec.Counters dp db None).
    { intros dp db b Hp Hb Hd.
      destruct (before_irrelevant g Spec.outside None b eq_refl) as (_ & _ & E).
      unfold Spec.well_balanced in Hg. rewrite E in Hg.
      exact (scan_inside g Spec.outside b dp db Hp Hb Hd Hg). }
    split; apply split_args_single; try apply app_nonempty.
    + apply (commas_around pre "(" g ")" post (Spec.Counters 1 0 None));
        try assumption; try reflexivity.
      * intros b. apply Hin; lia.
      * intros b. left. reflexivity.
    + apply (commas_around pre "[" g "]" post (Spec.Counters 0 1 None));
        try assumption; try reflexivity.
      * intros b. apply Hin; lia.
      * intros b. left. reflexivity.
  - intros q g Hq Hg. apply split_args_single; [apply app_nonempty|].
    assert (Hqc : Ascii.eqb q "," = false)
      by (destruct (quote_cases q Hq) as [-> | ->]; reflexivity).
    apply (commas_around pre q g q post (Spec.Counters 0 0 (Some q)));
      try assumption.
    + intros b. unfold Spec.after. cbn [Spec.quote Spec.outside]. now rewrite Hq.
    + intros b. now apply (scan_quoted q).
    + intros b. unfold Spec.after. cbn [Spec.quote Spec.parens Spec.brackets].
      rewrite Ascii.eqb_refl. cbn [andb].
      destruct (negb (Spec.escaped b)); [left; reflexivity|].
      right. split; [reflexivity|]. intros b'.
      apply (scan_quoted q); [reflexivity|].
      clear -Hpost Hq. induction post as [|c post IH]; [reflexivity|].
      cbn [all has_char] in *. apply andb_prop in Hpost as [[Hc _]%andb_prop Hpost].
      rewrite (IH Hpost), orb_false_r.
      apply negb_true_iff in Hc. unfold is_grouping in Hc.
      do 4 (apply orb_false_elim in Hc as [Hc _]).
      destruct (Ascii.eqb_spec c q) as [->|]; [congruence | reflexivity].
  - intros s Hs. cbn [String.append].
    split; (apply split_args_single; [discriminate|]); unfold Spec.top_level_commas;
      cbn [Spec.top_level_commas_from Spec.top_level Spec.outside Spec.quote
           Spec.parens Spec.brackets Ascii.eqb Bool.eqb andb Nat.add].
    + now apply (scan_below s (Spec.Counters (-1) 0 None)).
    + now apply (scan_below s (Spec.Counters 0 (-1) None)).
Qed.

Lemma commas_inside_groups_witness :
  split_args "f((a, b), [c, (d, e)])" = ["f((a, b), [c, (d, e)])"]
  /\ split_args "g[x, 'y)', z] " = ["g[x, 'y)', z]"]
  /\ split_args "'a, (b'" = ["'a, (b'"]
  /\ split_args ")a, b" = [")a, b"].
Proof.
  destruct (commas_inside_groups "f" EmptyString eq_refl eq_refl) as (_ & H2 & _ & _).
  destruct (commas_inside_groups "g" " " eq_refl eq_refl) as (_ & H2' & _ & _).
  destruct (commas_inside_groups EmptyString EmptyString eq_refl eq_refl)
    as (_ & _ & H3 & H4).
  split; [|split; [|split]].
  - exact (proj1 (H2 "(a, b), [c, (d, e)]" eq_refl)).
  - exact (proj2 (H2' "x, 'y)', z" eq_refl)).
  - exact (H3 "'"%char "a, (b" eq_refl eq_refl).
  - exact (proj1 (H4 "a, b" eq_refl)).
Defined.

(* ===================================================================== *)
(** * The mapping compiler: source, default and transform *)
(* ===================================================================== *)

Lemma split_comma_head s :
  exists rest, split_comma s = before_comma s :: rest.
Proof.
  induction s as [|c s (rest & IH)]; cbn [split_comma before_comma].
  - now exists [].
  - destruct (Ascii.eqb c ","); [now eexists|].
    rewrite IH. now eexists.
Qed.

Lemma filter_none {A} (p : A -> bool) l :
  forallb p l = true -> List.filter (fun x => negb (p x)) l = [].
Proof.
  induction l as [|x l IH]; cbn [forallb List.filter]; [reflexivity|].
  intros [Hx Hl]%andb_prop. rewrite Hx. now apply IH.
Qed.

(** X14: when every column named by the source is present and there is no
    transform, the mapping is the first of them; the others are only
    checked for presence. *)
Theorem first_source_column_is_used (df : DataFrame) (m : mapping) (s : string) :
  py_or (get m "source") (get m "affected_source") = PyStr s ->
  forallb (fun c => existsb (String.eqb c) (columns df)) (map strip (split_comma s)) = true ->
  truthy (Spec.transform_of m) = false ->
  _build_expr_for_mapping df m = Ok (Some (Col (strip (before_comma s)))).
Proof.
  intros Hs Hall Ht. unfold _build_expr_for_mapping.
  unfold Spec.transform_of in Ht. rewrite Hs, Ht.
  unfold bind_source.
  rewrite (filter_none (fun c => existsb (String.eqb c) (columns df))) by exact Hall.
  destruct (split_comma_head s) as (rest & ->). reflexivity.
Qed.

Lemma first_source_column_is_used_witness :
  _build_expr_for_mapping demo5
    (<["target" := PyStr "out"]> {[ "source" := PyStr " c , a" ]})
  = Ok (Some (Col "c")).
Proof.
  apply (first_source_column_is_used demo5 _ " c , a"); reflexivity.
Defined.

(** X15: without a source, the default is the value of the mapping only when
    the transform is absent, and then as far as the backend holds it as a
    literal: a default it refuses makes the mapping fail with the error of
    the backend; a transform that is present but empty leaves a null
    literal, and without a default the mapping is rejected. *)
Theorem default_needs_absent_transform (df : DataFrame) (m : mapping) :
  py_or (get m "source") (get m "affected_source") = PyNone ->
  truthy (Spec.transform_of m) = false ->
  (get m "default" = PyNone -> _build_expr_for_mapping df m = Raise MappingError)
  /\ (get m "default" <> PyNone -> Spec.transform_of m = PyNone ->
      (lit (get m "default") = Ok (Lit (get m "default")) ->
       _build_expr_for_mapping df m = Ok (Some (Lit (get m "default"))))
      /\ (forall x, lit (get m "default") = Raise x ->
            _build_expr_for_mapping df m = Raise x))
  /\ (get m "default" <> PyNone -> Spec.transform_of m <> PyNone ->
      _build_expr_for_mapping df m = Ok (Some (Lit PyNone))).
Proof.
  intros Hs Ht. unfold _build_expr_for_mapping.
  unfold Spec.transform_of in *. rewrite Hs.
  set (t := py_or (get m "transform") (get m "trns")) in *.
  set (d := get m "default").
  split; [|split].
  - intros ->. cbn. now rewrite Ht.
  - intros Hd ->. cbn [bind_source is_none].
    replace (negb (is_none d)) with true
      by (destruct d; try reflexivity; contradiction).
    cbn [andb]. split; [intros -> | intros x ->]; reflexivity.
  - intros Hd Hn. cbn [bind_source].
    replace (is_none t) with false by (destruct t; try reflexivity; contradiction).
    rewrite andb_false_r. cbn [lit bind]. rewrite Ht. cbn [is_none andb].
    destruct d; try contradiction; reflexivity.
Qed.

Lemma default_needs_absent_transform_witness :
  _build_expr_for_mapping demo5
    (<["target" := PyStr "country"]> {[ "default" := PyStr "US" ]})
  = Ok (Some (Lit (PyStr "US")))
  /\ _build_expr_for_mapping demo5
       (<["target" := PyStr "n"]> {[ "default" := PyInt (2 ^ 127) ]})
     = Raise InvalidOperationError
  /\ _build_expr_for_mapping demo5
       (<["target" := PyStr "country"]>
          (<["trns" := PyStr EmptyString]> {[ "default" := PyStr "US" ]}))
     = Ok (Some (Lit PyNone)).
Proof.
  split; [|split].
  - destruct (default_needs_absent_transform demo5
                (<["target" := PyStr "country"]> {[ "default" := PyStr "US" ]}))
      as (_ & H & _); [reflexivity | reflexivity |].
    destruct H as [H _]; [discriminate | reflexivity |]. apply H. reflexivity.
  - destruct (default_needs_absent_transform demo5
                (<["target" := PyStr "n"]> {[ "default" := PyInt (2 ^ 127) ]}))
      as (_ & H & _); [reflexivity | reflexivity |].
    destruct H as [_ H]; [discriminate | reflexivity |]. apply H. reflexivity.
  - destruct (default_needs_absent_transform demo5
                (<["target" := PyStr "country"]>
                   (<["trns" := PyStr EmptyString]> {[ "default" := PyStr "US" ]})))
      as (_ & _ & H); [reflexivity | reflexivity |].
    apply H; discriminate.
Defined.

(* ===================================================================== *)
(** * The executor: errors, names and rows *)
(* ===================================================================== *)

Lemma bind_raise {A B} (r : result A) (k : A -> result B) e :
  bind r k = Raise e -> r = Raise e \/ exists a, r = Ok a /\ k a = Raise e.
Proof.
  destruct r as [a| | |]; cbn; intros H; try discriminate.
  - right. now exists a.
  - left. now injection H as ->.
Qed.

Lemma reraise_raise {A} e' (r : result A) e : reraise e' r = Raise e -> e = e'.
Proof. destruct r; cbn; intros H; try discriminate. now injection H. Qed.

Lemma lit_raise v e :
  lit v = Raise e ->
  e = InvalidOperationError /\ exists z, v = PyInt z /\ fits_int128 z = false.
Proof.
  destruct v as [| |z| | |]; cbn [lit]; try discriminate.
  destruct (fits_int128 z) eqn:E; [discriminate|]. intros [= <-]. eauto.
Qed.

Lemma bind_source_raise df s t d e :
  bind_source df s t d = Raise e ->
  e = MappingError \/ e = AttributeError
  \/ (e = InvalidOperationError /\ exists z, d = PyInt z /\ fits_int128 z = false).
Proof.
  unfold bind_source. destruct s; try (intros [= <-]; auto; fail).
  - destruct (_ && _); cbn [lit bind]; [|discriminate].
    intros H. apply bind_raise in H as [H | (x & _ & H)]; [|discriminate].
    apply lit_raise in H. auto.
  - destruct (List.filter _ _); [discriminate|].
    destruct (negb _); [|intros [= <-]; auto].
    intros H. apply bind_raise in H as [H | (x & _ & H)]; [|discriminate].
    apply lit_raise in H. auto.
Qed.

Lemma build_raise df m e :
  _build_expr_for_mapping df m = Raise e ->
  e = MappingError \/ e = TransformError \/ e = AttributeError
  \/ (e = InvalidOperationError
      /\ exists z, get m "default" = PyInt z /\ fits_int128 z = false).
Proof.
  unfold _build_expr_for_mapping. intros H.
  apply bind_raise in H as [H | (b & _ & H)].
  - apply bind_source_raise in H as [-> | [-> | H]]; auto.
  - destruct b; [discriminate|].
    destruct (truthy _).
    + apply reraise_raise in H. auto.
    + destruct (_ && _); [|discriminate]. injection H as <-. auto.
Qed.

Lemma build_select_raise df ms e :
  build_select df ms = Raise e ->
  e = MappingError \/ e = TransformError \/ e = AttributeError \/ e = TypeError
  \/ (e = InvalidOperationError
      /\ exists m z, In m ms /\ get m "default" = PyInt z /\ fits_int128 z = false).
Proof.
  induction ms as [|m ms IH]; cbn [build_select]; [discriminate|].
  assert (Hrest : build_select df ms = Raise e ->
            e = MappingError \/ e = TransformError \/ e = AttributeError \/ e = TypeError
            \/ (e = InvalidOperationError
                /\ exists m0 z, In m0 (m :: ms) /\ get m0 "default" = PyInt z
                                /\ fits_int128 z = false)).
  { intros H. destruct (IH H) as [?|[?|[?|[?|(? & m0 & z & ? & ? & ?)]]]]; auto.
    do 4 right. split; [assumption|]. exists m0, z. cbn [In]. auto. }
  intros H. apply bind_raise in H as [H | (oe & _ & H)].
  - apply build_raise in H as [?|[?|[?|(? & z & ? & ?)]]]; auto.
    do 4 right. split; [assumption|]. exists m, z. cbn [In]. auto.
  - destruct oe as [x|]; [|now apply Hrest].
    apply bind_raise in H as [H | (a & _ & H)].
    + unfold aliased in H. destruct (alias_name m); try discriminate;
        injection H as <-; tauto.
    + apply bind_raise in H as [H | (es & _ & H)]; [now apply Hrest | discriminate].
Qed.

(** X16: whatever goes wrong while a text is parsed or the table is filtered
    and projected reaches the caller as a TransformError; the only other
    errors are the MappingError of a mapping without usable source, the
    AttributeError and TypeError of a source or a target that is not text,
    and the error of the backend on a default that is an integer beyond 128
    bits. *)
Theorem transformation_errors (df : DataFrame) (ms : list mapping) (e : exn) :
  apply_transformations df ms = Raise e ->
  In e [MappingError; TransformError; AttributeError; TypeError; InvalidOperationError]
  /\ (e = InvalidOperationError ->
      exists m z, In m ms /\ get m "default" = PyInt z /\ fits_int128 z = false).
Proof.
  unfold apply_transformations. cbn [In]. destruct ms as [|m ms].
  - intros [= <-]. split; [tauto | discriminate].
  - intros H. apply bind_raise in H as [H | (es & _ & H)].
    + apply build_select_raise in H as [->|[->|[->|[->|(-> & H)]]]];
        (split; [tauto | try discriminate]). intros _. exact H.
    + apply reraise_raise in H. subst e. split; [tauto | discriminate].
Qed.

Lemma transformation_errors_witness :
  apply_transformations demo5
    [ <["target" := PyStr "x"]> {[ "trns" := PyStr "MATH[ADD(a)]" ]} ]
  = Raise TransformError
  /\ In TransformError
       [MappingError; TransformError; AttributeError; TypeError; InvalidOperationError].
Proof.
  split; [vm_compute; reflexivity|].
  apply (transformation_errors demo5
           [ <["target" := PyStr "x"]> {[ "trns" := PyStr "MATH[ADD(a)]" ]} ]).
  vm_compute. reflexivity.
Defined.

Lemma has_dup_nodup l : has_dup l = false -> NoDup l.
Proof.
  induction l as [|x l IH]; cbn [has_dup]; [constructor|].
  intros [Hx Hl]%orb_false_elim. constructor; [|now apply IH].
  intros Hin. apply not_true_iff_false in Hx. apply Hx.
  apply existsb_exists. exists x. split; [|apply String.eqb_refl].
  now apply list_elem_of_In.
Qed.

Lemma select_distinct df es out : select df es = Ok out -> NoDup (columns out).
Proof.
  unfold select. intros H.
  apply bind_ok in H as (names & Hn & H).
  apply bind_ok in H as (cols & Hc & H).
  destruct (has_dup names) eqn:Hd; [discriminate|].
  apply bind_ok in H as (h & Hh & [= <-]).
  rewrite columns_combine; [now apply has_dup_nodup|].
  rewrite length_map.
  now rewrite (mapM_length _ _ _ Hn), (mapM_length _ _ _ Hc).
Qed.

(** X17: the table returned by the executor never has two columns of the
    same name: mappings that share a target make the run fail. *)
Theorem output_names_are_distinct (df : DataFrame) (ms : list mapping) (out : DataFrame) :
  apply_transformations df ms = Ok out -> NoDup (columns out).
Proof.
  unfold apply_transformations. destruct ms as [|m ms]; [discriminate|].
  intros H. apply bind_ok in H as (es & _ & H).
  apply reraise_ok in H. apply bind_ok in H as (df2 & _ & H).
  now apply select_distinct in H.
Qed.

Lemma output_names_are_distinct_witness :
  NoDup ["C"; "A"]
  /\ apply_transformations demo5
       [ <["target" := PyStr "A"]> {[ "source" := PyStr "a" ]};
         <["target" := PyStr "A"]> {[ "source" := PyStr "c" ]} ]
     = Raise TransformError.
Proof.
  split.
  - apply (output_names_are_distinct demo5 four_mappings
             [("C", [CStr "z"; CStr "w"]); ("A", [CInt 2; CInt 3])]).
    vm_compute. reflexivity.
  - vm_compute. reflexivity.
Defined.

Lemma keep_sublist {A} (m : list bool) (l : list A) : sublist (keep m l) l.
Proof.
  revert l. induction m as [|b m IH]; intros [|x l]; cbn [keep];
    try apply sublist_nil_l.
  destruct b; [now apply sublist_skip | now apply sublist_cons].
Qed.

Lemma rows_of_refl df : rows_of df df.
Proof. induction df; constructor; auto. Qed.

Lemma rows_of_trans a b c : rows_of a b -> rows_of b c -> rows_of a c.
Proof.
  unfold rows_of. intros H. revert c. induction H as [|x y a b [Hn Hs] H IH]; intros c Hc.
  - inversion Hc. constructor.
  - inversion Hc as [|y' z b' c' [Hn' Hs'] H']; subst. constructor.
    + split; [congruence | now transitivity (snd y)].
    + now apply IH.
Qed.

Lemma rows_of_map_rows f df :
  (forall l, sublist (f l) l) -> rows_of df (map_rows f df).
Proof.
  intros Hf. unfold rows_of, map_rows.
  induction df as [|c df IH]; cbn [map]; constructor.
  - split; [reflexivity | apply Hf].
  - exact IH.
Qed.

Lemma filter_rows df pred out : Frame.filter df pred = Ok out -> rows_of df out.
Proof.
  unfold Frame.filter. intros H. apply bind_ok in H as (m & _ & [= <-]).
  apply rows_of_map_rows. intros l. apply keep_sublist.
Qed.

Lemma head_rows df n out : Frame.head df n = Ok out -> rows_of df out.
Proof.
  unfold Frame.head. destruct (2 ^ 64 <=? n); [discriminate|].
  intros [= <-]. apply rows_of_map_rows. intros l. apply sublist_take.
Qed.

Lemma slice_rows_of df n out : Frame.slice df n = Ok out -> rows_of df out.
Proof.
  unfold Frame.slice. destruct (_ || _); [discriminate|].
  intros [= <-]. apply rows_of_map_rows. intros l. apply sublist_drop.
Qed.

Lemma filter_action_rows df method args out :
  filter_action df method args = Ok out -> rows_of df out.
Proof.
  unfold filter_action.
  repeat match goal with |- context [if ?b then _ else _] => destruct b end;
    intros H; try discriminate;
    apply bind_ok in H as (a & _ & H); apply bind_ok in H as (x & _ & H);
    first [ now apply filter_rows in H
          | now apply head_rows in H
          | now apply slice_rows_of in H ].
Qed.

Lemma apply_filter_rows df m out : _apply_filter df m = Ok out -> rows_of df out.
Proof.
  unfold _apply_filter. intros H. apply bind_ok in H as (text & _ & H).
  apply reraise_ok in H. apply bind_ok in H as (p & _ & H).
  destruct p; [injection H as <-; apply rows_of_refl|].
  now apply filter_action_rows in H.
Qed.

Lemma rows_of_columns df out : rows_of df out -> columns out = columns df.
Proof.
  unfold columns. induction 1 as [|c c' df out [Hn _] _ IH]; cbn [map]; [reflexivity|].
  now rewrite Hn, IH.
Qed.

Lemma rows_of_height df out : rows_of df out -> (height out <= height df)%nat.
Proof.
  destruct 1 as [|[n c] [n' c'] df out [_ Hs] _]; cbn [height]; [lia|].
  now apply sublist_length.
Qed.

(** X18: the filter phase only removes rows: the table it returns has the
    columns of the input, in the same order, and each column is a
    subsequence of the original one; no filter adds, reorders or changes a
    row. *)
Theorem filters_only_remove_rows (df : DataFrame) (ms : list mapping) (out : DataFrame) :
  filter_phase df ms = Ok out ->
  columns out = columns df
  /\ (height out <= height df)%nat
  /\ rows_of df out.
Proof.
  intros H.
  assert (Hr : rows_of df out).
  { revert df H. induction ms as [|m ms IH]; intros df; cbn [filter_phase].
    - intros [= <-]. apply rows_of_refl.
    - intros H. apply bind_ok in H as (g & _ & H).
      apply bind_ok in H as (df3 & H3 & H).
      apply (rows_of_trans df df3 out); [|now apply IH].
      destruct g; [now apply apply_filter_rows in H3|].
      injection H3 as <-. apply rows_of_refl. }
  repeat split; [now apply rows_of_columns | now apply rows_of_height | exact Hr].
Qed.

Lemma filters_only_remove_rows_witness :
  columns [("a", [CInt 1; CInt 2]); ("c", [CNull; CStr "z"])] = columns demo5
  /\ (2 <= 5)%nat.
Proof.
  destruct (filters_only_remove_rows demo5 [offset_one; limit_two]
              [("a", [CInt 1; CInt 2]); ("c", [CNull; CStr "z"])])
    as (H1 & H2 & _); [vm_compute; reflexivity|].
  split; [exact H1 | exact H2].
Defined.

(* ===================================================================== *)
(** * Row windows *)
(* ===================================================================== *)

Lemma split_args_plain s :
  s <> EmptyString ->
  all (fun c => negb (is_grouping c) && negb (Ascii.eqb c ",")) s = true ->
  split_args s = [strip s].
Proof.
  intros Hn Hs. apply split_args_single; [exact Hn|].
  now destruct (scan_plain s Spec.outside None eq_refl Hs).
Qed.

Lemma digits_plain s :
  all is_digit s = true ->
  all (fun c => negb (is_grouping c) && negb (Ascii.eqb c ",")) s = true.
Proof.
  apply all_impl. intros c Hc.
  destruct c as [[] [] [] [] [] [] [] []]; try discriminate Hc; reflexivity.
Qed.

Lemma split_args_decimal a n : decimal_value a = Some n -> split_args a = [a].
Proof.
  intros H.
  assert (Hd : all is_digit a = true).
  { destruct a; [discriminate|]. exact (decimal_digits _ _ _ H). }
  rewrite split_args_plain.
  - now rewrite (strip_word a (digits_word a Hd)).
  - now destruct a.
  - now apply digits_plain.
Qed.

(** A filter mapping that keeps a window of rows: [FILTER[method(a)]]. *)
Lemma window_filter df method a n :
  In method ["LIMIT"; "OFFSET"] ->
  decimal_value a = Some n -> (n < 2 ^ 53)%N ->
  filter_gate (window method a) = Ok true
  /\ _apply_filter df (window method a)
     = Ok (map_rows (if String.eqb method "LIMIT"
                     then firstn (N.to_nat n) else skipn (N.to_nat n)) df).
Proof.
  intros Hm Ha Hn. set (m := window method a).
  assert (Hl : m !! "trns" = Some (PyStr ("FILTER[" +:+ method +:+ "(" +:+ a +:+ ")]")))
    by apply lookup_singleton_eq.
  split.
  - unfold filter_gate, get_or. rewrite Hl. cbn [default from_option id].
    replace (startswith "FILTER[" _) with true
      by (symmetry; apply (startswith_app "FILTER[")).
    reflexivity.
  - cbn [In] in Hm.
    assert (Hp : parse_transform_expression
                   (strip ("FILTER[" +:+ method +:+ "(" +:+ a +:+ ")]"))
                 = Ok (PFilter "FILTER" method [a])).
    { rewrite parse_transform_expression_strip.
      pose proof (parse_bracketed_call "FILTER" "LIMIT" a eq_refl eq_refl) as H1.
      pose proof (parse_bracketed_call "FILTER" "OFFSET" a eq_refl eq_refl) as H2.
      cbn [String.append] in H1, H2.
      destruct Hm as [<- | [<- | []]]; cbn [String.append];
        [rewrite H1 | rewrite H2];
        now rewrite (split_args_decimal a n Ha). }
    rewrite (apply_filter_action df m _ _ _ _ Hl Hp).
    unfold filter_action.
    destruct Hm as [<- | [<- | []]]; cbn [upper smap String.eqb Ascii.eqb Bool.eqb];
      cbn [index nth_error bind];
      rewrite (int_of_float_str_decimal a n Ha Hn); cbn [bind];
      assert (Hz : 0 <= Z.of_N n < 2 ^ 63)
        by (change (2 ^ 53)%N with 9007199254740992%N in Hn;
            change (2 ^ 63) with 9223372036854775808; lia);
      [rewrite head_nonneg
         by (change (2 ^ 64) with 18446744073709551616;
             change (2 ^ 63) with 9223372036854775808 in Hz; lia)
      | rewrite slice_nonneg by exact Hz];
      cbn [reraise]; now rewrite <- Z_N_nat, N2Z.id.
Qed.

(** X19: a row window is read exactly when its bound is a run of digits worth
    less than [2^53], and windows compose in the order of the list:
    [OFFSET(n)] then [LIMIT(k)] keeps the [k] rows that follow the first
    [n], while [LIMIT(k)] then [OFFSET(n)] keeps what is left of the first
    [k] rows once [n] are dropped. *)
Theorem row_windows_compose (df : DataFrame) (a b : string) (n k : N) :
  decimal_value a = Some n -> decimal_value b = Some k ->
  (n < 2 ^ 53)%N -> (k < 2 ^ 53)%N ->
  filter_phase df [window "OFFSET" a; window "LIMIT" b]
    = Ok (map_rows (fun c => firstn (N.to_nat k) (skipn (N.to_nat n) c)) df)
  /\ filter_phase df [window "LIMIT" b; window "OFFSET" a]
    = Ok (map_rows (fun c => skipn (N.to_nat n) (firstn (N.to_nat k) c)) df).
Proof.
  intros Ha Hb Hn Hk.
  assert (Ho : forall d, filter_gate (window "OFFSET" a) = Ok true
                 /\ _apply_filter d (window "OFFSET" a)
                    = Ok (map_rows (skipn (N.to_nat n)) d))
    by (intros d; apply (window_filter d "OFFSET" a n); [cbn; tauto | assumption..]).
  assert (Hl : forall d, filter_gate (window "LIMIT" b) = Ok true
                 /\ _apply_filter d (window "LIMIT" b)
                    = Ok (map_rows (firstn (N.to_nat k)) d))
    by (intros d; apply (window_filter d "LIMIT" b k); [cbn; tauto | assumption..]).
  split; cbn [filter_phase].
  - destruct (Ho df) as [-> ->]. cbn [bind].
    destruct (Hl (map_rows (skipn (N.to_nat n)) df)) as [-> ->]. cbn [bind].
    now rewrite map_rows_map_rows.
  - destruct (Hl df) as [-> ->]. cbn [bind].
    destruct (Ho (map_rows (firstn (N.to_nat k)) df)) as [-> ->]. cbn [bind].
    now rewrite map_rows_map_rows.
Qed.

Lemma row_windows_compose_witness :
  filter_phase demo5 [window "OFFSET" "1"; window "LIMIT" "3"]
    = Ok [("a", [CInt 1; CInt 2; CInt 3]); ("c", [CNull; CStr "z"; CStr "w"])]
  /\ filter_phase demo5 [window "LIMIT" "3"; window "OFFSET" "1"]
    = Ok [("a", [CInt 1; CInt 2]); ("c", [CNull; CStr "z"])].
Proof.
  apply (row_windows_compose demo5 "1" "3" 1 3); reflexivity.
Defined.

(* ===================================================================== *)
(** * The batch filter function *)
(* ===================================================================== *)

Lemma contains_prefix p s : startswith p s = true -> contains p s = true.
Proof.
  intros H. unfold contains. destruct s; cbn [split_first]; now rewrite H.
Qed.

Lemma upper_app a b : upper (a +:+ b) = upper a +:+ upper b.
Proof. apply smap_app. Qed.

Lemma is_filter_text t :
  startswith "FILTER[" t || startswith "FILTERS[" t = true ->
  contains "FILTERS[" (upper (strip t)) || contains "FILTER[" (upper (strip t)) = true.
Proof.
  intros [H|H]%orb_prop; apply prefix_app in H; rewrite H;
    cbn [String.length drop String.append];
    rewrite strip_cons_nonspace by reflexivity;
    rewrite !rstrip_cons_nonspace by reflexivity;
    cbn [upper smap].
  - rewrite (contains_prefix "FILTER["); [apply orb_true_r|].
    apply (startswith_app "FILTER[").
  - rewrite (contains_prefix "FILTERS["); [reflexivity|].
    apply (startswith_app "FILTERS[").
Qed.

Lemma gated_step df m :
  gated m -> filter_gate m = Ok true /\ apply_filters_step df m = _apply_filter df m.
Proof.
  intros (Hn & t & Ht & Hs). split.
  - unfold filter_gate, get_or. rewrite Ht. cbn [default from_option id]. now rewrite Hs.
  - unfold apply_filters_step, _apply_filter, get_or.
    rewrite Hn, Ht. cbn [default from_option id py_str bind].
    rewrite (is_filter_text t Hs).
    now destruct (startswith "trns:" (lower (strip t))).
Qed.

(** X20: on filter mappings written as the executor's loop looks for them,
    the batch function [_apply_filters], which nothing calls, computes what
    the loop computes. *)
Theorem batch_filters_agree (df : DataFrame) (ms : list mapping) :
  Forall gated ms -> _apply_filters df ms = filter_phase df ms.
Proof.
  intros H. revert df. induction H as [|m ms Hm _ IH]; intros df; [reflexivity|].
  cbn [_apply_filters filter_phase].
  destruct (gated_step df m Hm) as [-> ->]. cbn [bind].
  destruct (_apply_filter df m); cbn [bind]; auto.
Qed.

Lemma batch_filters_agree_witness :
  _apply_filters demo5 [offset_one; limit_two]
    = Ok [("a", [CInt 1; CInt 2]); ("c", [CNull; CStr "z"])]
  /\ _apply_filters demo5 [ {[ "trns" := PyStr "trns: FILTER[LIMIT(2)]" ]} ]
     = Ok [("a", [CInt 0; CInt 1]); ("c", [CStr "x"; CNull])]
  /\ filter_phase demo5 [ {[ "trns" := PyStr "trns: FILTER[LIMIT(2)]" ]} ] = Ok demo5.
Proof.
  split; [|split; vm_compute; reflexivity].
  rewrite (batch_filters_agree demo5 [offset_one; limit_two]).
  - vm_compute. reflexivity.
  - repeat constructor; eexists; (split; [reflexivity | reflexivity]).
Defined.

(* ===================================================================== *)
(** * The writers *)
(* ===================================================================== *)

Lemma through_last_slash_none p :
  has_char "/" p = false -> through_last_slash p = EmptyString.
Proof.
  induction p as [|c p IH]; cbn [has_char through_last_slash]; [reflexivity|].
  intros [Hc Hp]%orb_false_elim. now rewrite (IH Hp), Hc.
Qed.

Lemma dirname_none p : has_char "/" p = false -> dirname p = EmptyString.
Proof. intros H. unfold dirname. now rewrite through_last_slash_none. Qed.

Lemma ensure_parent_none base ext :
  has_char "/" base = false -> has_char "/" ext = false ->
  ensure_parent (base +:+ ext) = Failed FileNotFoundError.
Proof.
  intros Hb He. unfold ensure_parent.
  rewrite dirname_none; [reflexivity|]. now rewrite has_char_app, Hb, He.
Qed.

Lemma append_not_empty a c r : String.eqb (a +:+ String c r) EmptyString = false.
Proof. destruct a; reflexivity. Qed.

(** X21: every writer first creates the directory of the output path, and
    the directory of a path without slash has the empty name: with such a
    base path nothing is written, and every format but [xml], whose options
    are read first, fails with the FileNotFoundError of [os.makedirs]. *)
Theorem write_output_needs_directory
    (df : DataFrame) (base fmt : string) (mappings : json) (xml_cfg : option json) :
  has_char "/" base = false ->
  (forall r, write_output df base fmt mappings xml_cfg <> Done r)
  /\ (In (lower fmt) ["csv"; "json"; "json_array"; "xlsx"; "positional"] ->
      write_output df base fmt mappings xml_cfg = Failed FileNotFoundError).
Proof.
  intros Hb.
  assert (He : forall ext, has_char "/" ext = false ->
                 ensure_parent (base +:+ ext) = Failed FileNotFoundError)
    by (intros ext; now apply ensure_parent_none).
  unfold write_output, write_csv, write_ndjson, write_json, write_xlsx, write_xml,
    write_positional.
  rewrite !append_not_empty, !He by reflexivity.
  split.
  - intros r.
    repeat match goal with |- context [if ?b then _ else _] => destruct b end;
      cbn [and_then]; try discriminate.
    destruct (xml_option xml_cfg "root_tag" "records"); cbn [and_then]; try discriminate.
    destruct (xml_option xml_cfg "row_tag" "record"); cbn [and_then]; discriminate.
  - cbn [In]. intros H.
    repeat (destruct H as [<- | H]); try contradiction; reflexivity.
Qed.

Lemma write_output_needs_directory_witness :
  write_output demo5 "result_20240101_120000" "CSV" (JArr []) None
  = Failed FileNotFoundError.
Proof.
  apply (write_output_needs_directory demo5 "result_20240101_120000" "CSV");
    [reflexivity | cbn; tauto].
Defined.

(** ** Fixed-width lines *)

Lemma and_then_done {A B} (r : outcome A) (k : A -> outcome B) b :
  and_then r k = Done b -> exists a, r = Done a /\ k a = Done b.
Proof. destruct r as [a| |]; cbn; intros H; try discriminate. now exists a. Qed.

Lemma rescue_done {A} e (r : outcome A) a : rescue e r = Done a -> r = Done a.
Proof. destruct r; cbn; intros H; try discriminate; exact H. Qed.

Lemma for_each_done {A B} (f : A -> outcome B) l l' :
  for_each f l = Done l' -> Forall2 (fun x y => f x = Done y) l l'.
Proof.
  revert l'. induction l as [|x l IH]; intros l'; cbn [for_each].
  - intros [= <-]. constructor.
  - intros H. apply and_then_done in H as (y & Hy & H).
    apply and_then_done in H as (ys & Hys & [= <-]).
    constructor; [exact Hy | now apply IH].
Qed.

Lemma length_app_string a b :
  String.length (a +:+ b) = (String.length a + String.length b)%nat.
Proof. induction a as [|c a IH]; cbn [String.append String.length]; [reflexivity | now rewrite IH]. Qed.

Lemma length_spaces n : String.length (spaces n) = n.
Proof. induction n as [|n IH]; cbn [spaces String.length]; [reflexivity | now rewrite IH]. Qed.

Lemma length_take n s : String.length (take n s) = Nat.min n (String.length s).
Proof.
  revert s. induction n as [|n IH]; intros [|c s]; cbn [take String.length]; try reflexivity.
  now rewrite IH.
Qed.

(** A field is as wide as its mapping declares. *)
Lemma piece_width row t L p :
  0 <= L -> piece row (t, JInt L) = Done p -> Z.of_nat (String.length p) = L.
Proof.
  intros HL H. unfold piece in H. cbn [fst snd] in H.
  apply and_then_done in H as (val & _ & H).
  apply and_then_done in H as (s & _ & H).
  cbn [int_of_json and_then] in H. injection H as <-.
  set (s' := if L <? Z.of_nat (String.length s) then slice_to s L else s).
  assert (Hs : (String.length s' <= Z.to_nat L)%nat).
  { subst s'. destruct (Z.ltb_spec L (Z.of_nat (String.length s))).
    - unfold slice_to. destruct (Z.leb_spec 0 L); [|lia]. rewrite length_take. lia.
    - lia. }
  destruct (is_number s'); unfold rjust, ljust;
    rewrite length_app_string, length_spaces; lia.
Qed.

Lemma concat_width tls row pieces :
  Forall (fun tL => exists L, snd tL = JInt L /\ 0 <= L) tls ->
  Forall2 (fun tL p => piece row tL = Done p) tls pieces ->
  Z.of_nat (String.length (String.concat EmptyString pieces)) = line_width tls.
Proof.
  intros Hw H. induction H as [|[t L] p tls pieces Hp H IH]; [reflexivity|].
  inversion Hw as [|? ? (z & Hz & Hz0) Hw']; subst. cbn [snd] in Hz. subst L.
  cbn [line_width fold_right declared_width snd].
  fold (line_width tls). rewrite <- (IH Hw'), <- (piece_width row t z p Hz0 Hp).
  destruct pieces as [|q pieces]; cbn [String.concat].
  - cbn [String.length]. lia.
  - cbn [String.append]. rewrite length_app_string. lia.
Qed.

(** X22: when every mapping that has a target declares a width that is a
    non-negative integer, the positional writer writes one line per row and
    every line has the same length, the sum of the widths: a value too long
    is cut and a value too short is padded. *)
Theorem positional_lines_have_fixed_width
    (df : DataFrame) (path : string) (mappings : json)
    (tls : list (json * json)) (content : string) :
  targets_and_lengths mappings = Done tls ->
  Forall (fun tL => exists L, snd tL = JInt L /\ 0 <= L) tls ->
  write_positional df path mappings = Done (Text content) ->
  exists lines,
    content = String.concat EmptyString lines
    /\ List.length lines = height df
    /\ Forall (fun line => exists fields,
                 line = fields +:+ newline
                 /\ Z.of_nat (String.length fields) = line_width tls) lines.
Proof.
  intros Ht Hw H. unfold write_positional in H.
  apply and_then_done in H as (_ & _ & H). rewrite Ht in H. cbn [and_then] in H.
  apply rescue_done in H. apply and_then_done in H as (lines & Hl & [= <-]).
  exists lines. split; [reflexivity|].
  apply for_each_done in Hl. split.
  - rewrite <- (Forall2_length _ _ _ Hl). unfold iter_rows.
    now rewrite length_map, length_seq.
  - clear -Hl Hw. induction Hl as [|row line rows lines Hrow _ IH]; constructor; [|exact IH].
    unfold positional_line in Hrow.
    apply and_then_done in Hrow as (pieces & Hp & [= <-]).
    eexists. split; [reflexivity|].
    apply for_each_done in Hp. now apply (concat_width tls row).
Qed.

Lemma positional_lines_have_fixed_width_witness :
  exists lines,
    fields_text = String.concat EmptyString lines
    /\ List.length lines = height demo5
    /\ Forall (fun line => exists fields,
                 line = fields +:+ newline
                 /\ Z.of_nat (String.length fields) = 4) lines.
Proof.
  apply (positional_lines_have_fixed_width demo5 "out/p.txt" fields_doc
           [(JStr "a", JInt 3); (JStr "c", JInt 1)] fields_text).
  - vm_compute. reflexivity.
  - repeat constructor; eexists; (split; [reflexivity | lia]).
  - vm_compute. reflexivity.
Defined.

(** ** The sheets of a workbook *)

Lemma take_app_drop {A} (a b : nat) (l : list A) :
  firstn a l ++ firstn b (skipn a l) = firstn (a + b) l.
Proof.
  revert l. induction a as [|a IH]; intros l; [reflexivity|].
  destruct l as [|x l]; cbn [firstn skipn Nat.add app].
  - now destruct b.
  - now rewrite IH.
Qed.

Lemma skipn_skipn' {A} (a b : nat) (l : list A) :
  skipn b (skipn a l) = skipn (a + b) l.
Proof.
  revert l. induction a as [|a IH]; intros l; [reflexivity|].
  destruct l as [|x l]; cbn [skipn Nat.add]; [now destruct b | apply IH].
Qed.

Lemma vstack_map_rows f g df :
  vstack (map_rows f df) (map_rows g df) = map_rows (fun c => f c ++ g c) df.
Proof.
  unfold map_rows. induction df as [|[n c] df IH]; cbn [map vstack fst snd]; [reflexivity|].
  now rewrite IH.
Qed.

Lemma map_rows_ext f g df : (forall c, f c = g c) -> map_rows f df = map_rows g df.
Proof. intros H. unfold map_rows. apply map_ext. intros nc. now rewrite H. Qed.

Lemma vstack_slices df s a b :
  vstack (slice_rows df s a) (slice_rows df (s + a) b) = slice_rows df s (a + b).
Proof.
  unfold slice_rows. rewrite vstack_map_rows. apply map_rows_ext. intros c.
  rewrite N2Nat.inj_add, <- skipn_skipn', take_app_drop. now rewrite N2Nat.inj_add.
Qed.

Lemma columns_map_rows f df : columns (map_rows f df) = columns df.
Proof. unfold columns, map_rows. rewrite map_map. now apply map_ext. Qed.

Lemma columns_slice_rows df s a : columns (slice_rows df s a) = columns df.
Proof. apply columns_map_rows. Qed.

Lemma height_slice_rows df s a :
  df <> [] -> rectangular df -> (s + a <= N.of_nat (height df))%N ->
  height (slice_rows df s a) = N.to_nat a.
Proof.
  intros Hn Hr Hb. destruct df as [|[n c] df]; [contradiction|].
  inversion Hr as [|? ? Hc _]; subst. cbn [snd height] in *.
  cbn [slice_rows map_rows map fst snd height].
  rewrite length_firstn, length_skipn. lia.
Qed.

(** The loop from row [start] on: its sheets hold the rows from [start] to
    the end, each at most [EXCEL_MAX_ROWS] of them and at least one, under
    the header of the frame, and they are numbered from [sheet_idx]. *)
Lemma sheets_from_spec df : df <> [] -> rectangular df ->
  forall fuel start idx,
    (start <= N.of_nat (height df))%N ->
    (N.to_nat (N.of_nat (height df) - start) <= fuel)%nat ->
    let sheets := sheets_from fuel df (N.of_nat (height df)) start idx in
    stacked df sheets = slice_rows df start (N.of_nat (height df) - start)
    /\ Forall (fun sh => header sh = columns df
                         /\ (1 <= height (body sh))%nat
                         /\ (N.of_nat (height (body sh)) <= EXCEL_MAX_ROWS)%N) sheets
    /\ map title sheets
       = map (fun i => "Sheet" +:+ pretty (idx + N.of_nat i)%N)
             (seq 0 (List.length sheets)).
Proof.
  intros Hn Hr. set (total := N.of_nat (height df)).
  induction fuel as [|fuel IH]; intros start idx Hs Hf; cbn [sheets_from].
  - replace (total - start)%N with 0%N by lia. cbn zeta.
    split; [reflexivity | split; constructor].
  - destruct (N.ltb_spec start total) as [Hlt|Hge].
    + set (e := N.min (start + EXCEL_MAX_ROWS) total).
      assert (He : (start < e <= total)%N) by (unfold e, EXCEL_MAX_ROWS; lia).
      destruct (IH e (idx + 1)%N) as (H1 & H2 & H3); [lia | lia |].
      cbn zeta in *. split; [|split].
      * unfold stacked in *. cbn [map fold_right body]. rewrite H1.
        replace e with (start + (e - start))%N at 2 by lia.
        rewrite vstack_slices. f_equal. lia.
      * constructor; [|exact H2]. cbn [header body].
        rewrite columns_slice_rows.
        rewrite height_slice_rows by (assumption || (fold total; lia)).
        split; [reflexivity|]. unfold e, EXCEL_MAX_ROWS in *. lia.
      * cbn [map title List.length seq]. rewrite N.add_0_r. f_equal.
        rewrite H3, <- seq_shift, map_map. apply map_ext. intros i.
        do 2 f_equal. lia.
    + replace (total - start)%N with 0%N by lia. cbn zeta.
      split; [reflexivity | split; constructor].
Qed.

(** Every sheet that is followed by another one is full. *)
Lemma sheets_from_full df : df <> [] -> rectangular df ->
  forall fuel start idx,
    (start <= N.of_nat (height df))%N ->
    Forall (fun sh => N.of_nat (height (body sh)) = EXCEL_MAX_ROWS)
           (removelast (sheets_from fuel df (N.of_nat (height df)) start idx)).
Proof.
  intros Hn Hr. set (total := N.of_nat (height df)).
  induction fuel as [|fuel IH]; intros start idx Hs; cbn [sheets_from]; [constructor|].
  destruct (N.ltb_spec start total) as [Hlt|Hge]; [|constructor].
  set (e := N.min (start + EXCEL_MAX_ROWS) total).
  assert (He : (start < e <= total)%N) by (unfold e, EXCEL_MAX_ROWS; lia).
  specialize (IH e (idx + 1)%N ltac:(lia)).
  destruct (sheets_from fuel df total e (idx + 1)) as [|sh rest] eqn:E.
  - constructor.
  - cbn [removelast]. constructor; [|exact IH]. cbn [body].
    rewrite height_slice_rows by (assumption || (fold total; lia)).
    assert (e < total)%N.
    { destruct fuel; [discriminate|]. cbn [sheets_from] in E.
      destruct (N.ltb_spec e total); [assumption | discriminate]. }
    unfold e in *. lia.
Qed.

Lemma map_fixed {A} (f : A -> A) l : Forall (fun x => f x = x) l -> map f l = l.
Proof. induction 1 as [|x l Hx _ IH]; cbn [map]; [reflexivity | now rewrite Hx, IH]. Qed.

Lemma slice_all df : rectangular df -> slice_rows df 0 (N.of_nat (height df)) = df.
Proof.
  intros Hr. unfold slice_rows, map_rows. rewrite Nat2N.id.
  apply map_fixed. eapply Forall_impl; [exact Hr|].
  intros [n c] Hc. cbn [fst snd skipn N.to_nat] in *.
  now rewrite <- Hc, firstn_all.
Qed.

(** X23: the workbook holds every row of the table once, in order: the rows
    of its sheets, one sheet after the other, are the rows of the table;
    every sheet has the header of the table, at least one row and at most
    [EXCEL_MAX_ROWS] rows, every sheet but the last is full, and the sheets
    are named [Sheet1], [Sheet2], ... *)
Theorem workbook_partitions_rows (df : DataFrame) :
  rectangular df ->
  stacked df (sheets_of df) = df
  /\ Forall (fun sh => header sh = columns df
                       /\ (1 <= height (body sh))%nat
                       /\ (N.of_nat (height (body sh)) <= EXCEL_MAX_ROWS)%N)
            (sheets_of df)
  /\ Forall (fun sh => N.of_nat (height (body sh)) = EXCEL_MAX_ROWS)
            (removelast (sheets_of df))
  /\ map title (sheets_of df)
     = map (fun i => "Sheet" +:+ pretty (N.of_nat (S i)))
           (seq 0 (List.length (sheets_of df))).
Proof.
  intros Hr. destruct df as [|nc df].
  - cbn. split; [reflexivity | split; [constructor | split; [constructor | reflexivity]]].
  - destruct (sheets_from_spec (nc :: df) ltac:(discriminate) Hr
                (height (nc :: df)) 0 1) as (H1 & H2 & H3); [lia | lia |].
    cbn zeta in *. unfold sheets_of. split; [|split; [|split]].
    + rewrite H1, N.sub_0_r. now apply slice_all.
    + exact H2.
    + apply sheets_from_full; [discriminate | assumption | lia].
    + rewrite H3. apply map_ext. intros i. do 2 f_equal. lia.
Qed.

Lemma workbook_partitions_rows_witness :
  stacked demo5 (sheets_of demo5) = demo5
  /\ map title (sheets_of demo5) = ["Sheet1"].
Proof.
  destruct (workbook_partitions_rows demo5) as (H1 & _ & _ & H3).
  - repeat constructor.
  - split; [exact H1 | exact H3].
Defined.

(* ===================================================================== *)
(** * The endpoint *)
(* ===================================================================== *)

Lemma pipeline_rows env up i o w :
  pipeline env up = Done (i, o, w) ->
  exists df, parquet up = Some df /\ i = height df.
Proof.
  unfold pipeline. intros H.
  destruct (mapping_cfg up) as [[| | | | | |cfg]|]; try discriminate.
  apply and_then_done in H as (fmt & _ & H).
  destruct (negb _); [discriminate|].
  apply and_then_done in H as (base & _ & H).
  apply and_then_done in H as (df & Hdf & H).
  destruct (parquet up) as [df'|]; [|discriminate]. injection Hdf as ->.
  destruct (default (JArr []) (cfg !! "mappings")) as [| | | | |[|m ms]|]; try discriminate.
  apply and_then_done in H as (t & _ & H).
  apply and_then_done in H as (wr & _ & [= <- _ _]).
  now exists df.
Qed.

(** X24: a parquet file without rows never gets a success answer: when the
    run reaches the end, the output is written and the answer is the status
    500 of a division by the number of input rows. *)
Theorem empty_input_is_an_error
    (env : environment) (up : upload) (df : DataFrame)
    (resp : response) (w : option (string * artifact)) :
  parquet up = Some df -> height df = 0%nat ->
  transform_endpoint env up = Some (resp, w) ->
  exists code, resp = HTTPException code /\ (w <> None -> code = 500).
Proof.
  intros Hdf Hh. unfold transform_endpoint.
  destruct (bad_filename (parquet_filename up) ".parquet");
    [intros [= <- <-]; exists 400; split; [reflexivity | contradiction]|].
  destruct (bad_filename (mapping_filename up) ".json");
    [intros [= <- <-]; exists 400; split; [reflexivity | contradiction]|].
  destruct (pipeline env up) as [[[i o] wr]|e|] eqn:E; [| |discriminate].
  - destruct (pipeline_rows env up i o wr E) as (df' & Hdf' & ->).
    rewrite Hdf in Hdf'. injection Hdf' as <-. rewrite Hh. cbn [Nat.eqb].
    intros [= <- <-]. exists 500. split; reflexivity.
  - intros [= <- <-]. eexists. split; [reflexivity | contradiction].
Qed.

Lemma empty_input_is_an_error_witness :
  transform_endpoint sample_env (sample_upload (project_a "csv" None) no_rows)
  = Some (HTTPException 500,
          Some ("output/output_20240101_120000.csv", Backend "write_csv" [("a", [])]))
  /\ exists code, HTTPException 500 = HTTPException code
                  /\ (Some ("output/output_20240101_120000.csv",
                            Backend "write_csv" [("a", [])]) <> None -> code = 500).
Proof.
  split; [vm_compute; reflexivity|].
  apply (empty_input_is_an_error sample_env
           (sample_upload (project_a "csv" None) no_rows) no_rows);
    [reflexivity | reflexivity | vm_compute; reflexivity].
Defined.

(** X25: for the XML format the options under [xml_config] play no role: the
    endpoint hands them to the writer in the place of the mappings, so the
    answer and the file written are those of a document without them, with
    the tags [records] and [record]. *)
Theorem xml_config_is_ignored
    (env : environment) (up : upload) (cfg : gmap string json)
    (fmt : string) (v : json) :
  cfg !! "output_format" = Some (JStr fmt) ->
  lower fmt = "xml" ->
  transform_endpoint env (with_document up (JObj (<["xml_config" := v]> cfg)))
  = transform_endpoint env (with_document up (JObj (delete "xml_config" cfg))).
Proof.
  intros Hf Hl. unfold transform_endpoint, with_document. cbn [parquet_filename mapping_filename].
  destruct (bad_filename (parquet_filename up) ".parquet"); [reflexivity|].
  destruct (bad_filename (mapping_filename up) ".json"); [reflexivity|].
  assert (Hp : pipeline env (Upload (parquet_filename up) (mapping_filename up)
                               (Some (JObj (<["xml_config" := v]> cfg))) (parquet up))
               = pipeline env (Upload (parquet_filename up) (mapping_filename up)
                                 (Some (JObj (delete "xml_config" cfg))) (parquet up))).
  { unfold pipeline. cbn [mapping_cfg parquet].
    rewrite !lookup_insert_ne, !lookup_delete_ne by discriminate.
    rewrite Hf, Hl. cbn [and_then existsb output_formats negb].
    change (existsb (String.eqb "xml") output_formats) with true. cbn [negb].
    reflexivity. }
  now rewrite Hp.
Qed.

Lemma xml_config_is_ignored_witness :
  transform_endpoint sample_env
    (sample_upload (project_a "xml" (Some (JObj {[ "root_tag" := JStr "rows" ]}))) demo5)
  = transform_endpoint sample_env (sample_upload (project_a "xml" None) demo5)
  /\ transform_endpoint sample_env (sample_upload (project_a "xml" None) demo5)
     = Some (Success 5 5 "output/output_20240101_120000.xml",
             Some ("output/output_20240101_120000.xml",
                   Text ("<records>" +:+ newline
                         +:+ "  <record><a>0</a></record>" +:+ newline
                         +:+ "  <record><a>1</a></record>" +:+ newline
                         +:+ "  <record><a>2</a></record>" +:+ newline
                         +:+ "  <record><a>3</a></record>" +:+ newline
                         +:+ "  <record><a>4</a></record>" +:+ newline
                         +:+ "</records>" +:+ newline))).
Proof.
  split; [|vm_compute; reflexivity].
  pose proof (xml_config_is_ignored sample_env
                (sample_upload (project_a "xml" None) demo5)
                (match project_a "xml" None with JObj c => c | _ => ∅ end)
                "xml" (JObj {[ "root_tag" := JStr "rows" ]}) eq_refl eq_refl) as H.
  vm_compute in H. vm_compute. exact H.
Defined.

Lemma length_iter_rows df : List.length (iter_rows df) = height df.
Proof. unfold iter_rows. now rewrite length_map, length_seq. Qed.

Lemma blank_lines rows :
  for_each (positional_line []) rows = Done (repeat newline (List.length rows)).
Proof.
  induction rows as [|r rows IH]; [reflexivity|].
  cbn [for_each List.length repeat]. rewrite IH. reflexivity.
Qed.

Lemma no_fields : targets_and_lengths (JObj ∅) = Done [].
Proof. unfold targets_and_lengths, elements. now rewrite map_to_list_empty. Qed.

Lemma pipeline_positional env up cfg fmt i o path a :
  cfg !! "output_format" = Some (JStr fmt) ->
  lower fmt = "positional" ->
  cfg !! "xml_config" = None ->
  pipeline env (with_document up (JObj cfg)) = Done (i, o, (path, a)) ->
  a = Text (String.concat EmptyString (repeat newline o)).
Proof.
  intros Hf Hl Hx. unfold pipeline, with_document. cbn [mapping_cfg parquet].
  rewrite Hf, Hl, Hx. cbn [and_then default].
  change (existsb (String.eqb "positional") output_formats) with true. cbn [negb].
  intros H.
  apply and_then_done in H as (base & _ & H).
  apply and_then_done in H as (df & _ & H).
  destruct (default (JArr []) (cfg !! "mappings")) as [| | | | |[|m ms]|]; try discriminate.
  apply and_then_done in H as (t & _ & H).
  apply and_then_done in H as (wr & Hw & [= _ <- ->]).
  apply rescue_done in Hw. unfold write_output in Hw.
  change (lower "positional") with "positional" in Hw.
  cbn [String.eqb Ascii.eqb Bool.eqb] in Hw.
  apply and_then_done in Hw as (a' & Hw & [= _ <-]).
  unfold write_positional in Hw.
  apply and_then_done in Hw as (u & _ & Hw).
  rewrite no_fields in Hw. cbn [and_then] in Hw.
  apply rescue_done in Hw. rewrite blank_lines, length_iter_rows in Hw.
  cbn [and_then] in Hw. now injection Hw as <-.
Qed.

(** X26: in the positional format the endpoint hands the XML options to the
    writer as the list of fields.  A document without [xml_config] so has
    no field at all: whatever its mappings say, the file written holds one
    empty line for each output row. *)
Theorem positional_without_xml_config_is_blank
    (env : environment) (up : upload) (cfg : gmap string json) (fmt : string)
    (resp : response) (path : string) (a : artifact) :
  cfg !! "output_format" = Some (JStr fmt) ->
  lower fmt = "positional" ->
  cfg !! "xml_config" = None ->
  transform_endpoint env (with_document up (JObj cfg)) = Some (resp, Some (path, a)) ->
  exists n, a = Text (String.concat EmptyString (repeat newline n))
            /\ forall i o p, resp = Success i o p -> o = n.
Proof.
  intros Hf Hl Hx. unfold transform_endpoint.
  destruct (bad_filename _ ".parquet"); [discriminate|].
  destruct (bad_filename _ ".json"); [discriminate|].
  destruct (pipeline env _) as [[[i o] [p' a']]|e|] eqn:E; [|discriminate|discriminate].
  apply (pipeline_positional env up cfg fmt) in E; [|assumption..].
  destruct (i =? 0)%nat; intros [= <- <- <-]; exists o;
    (split; [assumption | intros ? ? ? [=]; congruence]).
Qed.

Lemma positional_without_xml_config_is_blank_witness :
  exists n,
    Text (newline +:+ newline +:+ newline +:+ newline +:+ newline)
    = Text (String.concat EmptyString (repeat newline n))
    /\ forall i o p,
         Success 5 5 "output/output_20240101_120000.txt" = Success i o p -> o = n.
Proof.
  apply (positional_without_xml_config_is_blank sample_env
           (sample_upload (project_a "Positional" None) demo5)
           (match project_a "Positional" None with JObj c => c | _ => ∅ end)
           "Positional" _ "output/output_20240101_120000.txt");
    [reflexivity | reflexivity | reflexivity | vm_compute; reflexivity].
Defined.

(* ===================================================================== *)
(** * Nested expressions in the value parser *)
(* ===================================================================== *)

Lemma quoted_inner_first c r : is_quote c = false -> quoted_inner (String c r) = None.
Proof.
  intros Hq. unfold quoted_inner. cbn [unsnoc].
  destruct (unsnoc r) as [[r' l]|]; [|reflexivity]. now rewrite Hq, andb_false_r.
Qed.

(** The last rule of the value parser: a trimmed token that no earlier rule
    takes is the name of a column. *)
Lemma parse_value_column t :
  strip t = t -> startswith "trns:" t = false -> parse_attr t = None ->
  String.eqb (lower t) "true" = false -> String.eqb (lower t) "false" = false ->
  quoted_inner t = None -> parse_float t = None ->
  parse_value t = Ok (PExpr (Col t)).
Proof.
  intros Hs Ht Ha H1 H2 Hq Hf.
  rewrite parse_value_unfold. unfold parse_value_body.
  rewrite Hs, Ht, Ha, H1, H2. unfold try_parse_literal. rewrite Hs, Hq.
  unfold is_number. now rewrite Hf, H1, H2.
Qed.

Lemma upper_char_inv c d :
  upper_char c = d -> c = d \/ c = ascii_of_N (code d + 32).
Proof.
  intros <-. destruct c as [[] [] [] [] [] [] [] []];
    first [left; reflexivity | right; reflexivity].
Qed.

Lemma upper_cons_inv s d r :
  upper s = String d r ->
  exists c s', s = String c s' /\ upper s' = r
               /\ (c = d \/ c = ascii_of_N (code d + 32)).
Proof.
  destruct s as [|c s']; [discriminate|]. cbn. intros [= Hc Hr].
  exists c, s'. repeat split; [exact Hr | now apply upper_char_inv].
Qed.

Lemma span_word_split s : s = fst (Re.span_word s) +:+ snd (Re.span_word s).
Proof.
  induction s as [|c s IH]; [reflexivity|]. cbn [Re.span_word].
  destruct (is_word c); [|reflexivity].
  destruct (Re.span_word s) as [w t]. cbn [fst snd String.append] in *.
  now rewrite <- IH.
Qed.

Lemma span_word_all s : all is_word (fst (Re.span_word s)) = true.
Proof.
  induction s as [|c s IH]; [reflexivity|]. cbn [Re.span_word].
  destruct (is_word c) eqn:E; [|reflexivity].
  destruct (Re.span_word s) as [w t]. cbn [fst all] in *. now rewrite E, IH.
Qed.

Lemma span_word_rest s c r :
  snd (Re.span_word s) = String c r -> is_word c = false.
Proof.
  induction s as [|d s IH]; [discriminate|]. cbn [Re.span_word].
  destruct (is_word d) eqn:E.
  - destruct (Re.span_word s) as [w t]. cbn [snd] in *. exact IH.
  - cbn [snd]. now intros [= -> _].
Qed.

(** The text the unprefixed pattern matches: a word, then white space and
    an opening bracket. *)
Lemma op_bracket_inv s op g :
  Re.op_bracket s = Some (op, g) ->
  exists c r body,
    s = op +:+ String c r /\ all is_word op = true /\ is_word c = false
    /\ lstrip (String c r) = String "[" body.
Proof.
  unfold Re.op_bracket.
  pose proof (span_word_split s) as Hs. pose proof (span_word_all s) as Hw.
  pose proof (span_word_rest s) as Hr.
  destruct (Re.span_word s) as [w r1]. cbn [fst snd] in *.
  destruct w as [|a w]; [discriminate|].
  destruct (lstrip r1) as [|c body] eqn:El; [discriminate|].
  destruct (Ascii.eqb_spec c "[") as [->|]; [|discriminate].
  destruct (Re.bracket_body body); [|discriminate]. intros [= <- <-].
  destruct r1 as [|c1 r']; [discriminate El|].
  exists c1, r', body. repeat split; try assumption. now apply (Hr c1 r').
Qed.

(** C5 (amended).  A token that, once trimmed, begins with the lower-case
    prefix [trns:] is handed to the expression parser, whose result the
    value parser returns.  A token of the form [OP[...]] for a recognised
    family, in any case of letters, is not: it is read as a reference to the
    column named by the whole trimmed token; so is a token that begins with
    the prefix in another case of letters.  No token without the prefix is
    handed to the expression parser: its value does not depend on it. *)
Theorem parse_value_nested (token : string) :
  (startswith "trns:" (strip token) = true ->
   parse_value token = parse_transform_expression (strip token))
  /\ (forall op g,
        Re.op_bracket (strip token) = Some (op, g) ->
        existsb (String.eqb (upper op)) Spec.families = true ->
        parse_value token = Ok (PExpr (Col (strip token))))
  /\ (startswith "trns:" (lower (strip token)) = true ->
      startswith "trns:" (strip token) = false ->
      parse_value token = Ok (PExpr (Col (strip token))))
  /\ (startswith "trns:" (lower (strip token)) = false ->
      forall f, parse_value token = parse_value_body f token).
Proof.
  split; [|split; [|split]].
  - rewrite parse_value_unfold. unfold parse_value_body. now intros ->.
  - intros op g Hop Hfam. rewrite <- parse_value_strip.
    assert (Hs : strip (strip token) = strip token) by apply strip_idem.
    remember (strip token) as t eqn:Et. clear Et token.
    destruct (op_bracket_inv t op g Hop) as (c & r & _ & -> & _).
    cbn [existsb Spec.families] in Hfam.
    repeat (apply orb_prop in Hfam as [Hfam|Hfam]); try discriminate Hfam;
      apply String.eqb_eq in Hfam;
      apply upper_cons_inv in Hfam as (c1 & s1 & -> & Hfam & Hc1);
      apply upper_cons_inv in Hfam as (c2 & s2 & -> & _ & Hc2);
      cbn [String.append] in *;
      destruct Hc1 as [-> | ->]; destruct Hc2 as [-> | ->];
      (apply parse_value_column;
       [ exact Hs | reflexivity
       | unfold parse_attr; rewrite Hs; reflexivity
       | reflexivity | reflexivity
       | apply quoted_inner_first; reflexivity
       | apply parse_float_first; reflexivity ]).
  - intros Hl Hn. rewrite <- parse_value_strip.
    assert (Hs : strip (strip token) = strip token) by apply strip_idem.
    remember (strip token) as t eqn:Et. clear Et token.
    pose proof (prefix_app _ _ Hl) as E. cbn [String.length] in E.
    remember (drop 5 (lower t)) as x eqn:Ex. clear Ex.
    cbn [String.append] in E.
    assert (H1 : String.eqb (lower t) "true" = false) by now rewrite E.
    assert (H2 : String.eqb (lower t) "false" = false) by now rewrite E.
    destruct (lower_cons_inv _ _ _ E) as (c1 & s1 & -> & _ & Hc1).
    destruct Hc1 as [-> | ->];
      (apply parse_value_column;
       [ exact Hs | exact Hn
       | unfold parse_attr; rewrite Hs; reflexivity
       | exact H1 | exact H2
       | apply quoted_inner_first; reflexivity
       | apply parse_float_first; reflexivity ]).
  - rewrite parse_value_unfold. unfold parse_value_body.
    intros H f. destruct (startswith "trns:" (strip token)) eqn:E; [|reflexivity].
    apply startswith_trns_lower in E. congruence.
Qed.

Lemma parse_value_nested_witness :
  parse_value "trns: MATH[ADD(a,b)]"
    = parse_transform_expression "trns: MATH[ADD(a,b)]"
  /\ parse_value " Filter [LIMIT(2)] " = Ok (PExpr (Col "Filter [LIMIT(2)]"))
  /\ parse_value "TRNS: MATH[ADD(a,b)]" = Ok (PExpr (Col "TRNS: MATH[ADD(a,b)]"))
  /\ parse_value "MATH[ADD(a,b)]"
    = parse_value_body (fun _ => Raise ValueError) "MATH[ADD(a,b)]".
Proof.
  split; [|split; [|split]].
  - exact (proj1 (parse_value_nested "trns: MATH[ADD(a,b)]") eq_refl).
  - exact (proj1 (proj2 (parse_value_nested " Filter [LIMIT(2)] "))
             "Filter" "LIMIT(2)" eq_refl eq_refl).
  - exact (proj1 (proj2 (proj2 (parse_value_nested "TRNS: MATH[ADD(a,b)]")))
             eq_refl eq_refl).
  - exact (proj2 (proj2 (proj2 (parse_value_nested "MATH[ADD(a,b)]"))) eq_refl _).
Defined.

(** An unprefixed [MATH[...]] token is read as a bare column reference. *)
Lemma unprefixed_family_is_column :
  Spec.is_nested_dsl "MATH[ADD(a,b)]" = true
  /\ parse_value "MATH[ADD(a,b)]" = Ok (PExpr (Col "MATH[ADD(a,b)]"))
  /\ parse_value "MATH[ADD(a,b)]" <> parse_transform_expression "MATH[ADD(a,b)]".
Proof. vm_compute. repeat split; discriminate. Qed.

(* ===================================================================== *)
(** * The columns of the output *)
(* ===================================================================== *)

Lemma lower_char_nonword c : is_word c = false -> lower_char c = c.
Proof. destruct c as [[] [] [] [] [] [] [] []]; intros H; try discriminate H; reflexivity. Qed.

(** A text the unprefixed pattern matches is no keyword call. *)
Lemma keyword_quoted_op_bracket kw s op g :
  all is_word kw = true -> Re.op_bracket s = Some (op, g) ->
  Re.keyword_quoted kw s = None.
Proof.
  intros Hk Hop.
  destruct (op_bracket_inv s op g Hop) as (c & r & body & -> & Hw & Hc & Hl).
  unfold Re.keyword_quoted.
  destruct (startswith kw (lower (op +:+ String c r))) eqn:E; [|reflexivity].
  unfold lower in E. rewrite smap_app in E. cbn [smap] in E.
  rewrite (lower_char_nonword c Hc) in E.
  rewrite startswith_app_stop in E by (now apply (all_has_char is_word)).
  apply prefix_length in E. rewrite smap_length in E.
  rewrite drop_app_le by assumption.
  pose proof (all_drop is_word (String.length kw) op Hw) as Hd.
  destruct (drop (String.length kw) op) as [|c' d]; cbn [String.append].
  - rewrite Hl. reflexivity.
  - cbn [all] in Hd. apply andb_prop in Hd as [Hc' _].
    rewrite lstrip_nonspace by now apply word_not_space.
    cbn [Re.quoted_call]. now destruct (word_chars c' Hc') as (_ & -> & _).
Qed.

Lemma parse_ok_op_bracket t p :
  parse_transform_expression t = Ok p ->
  startswith "trns:" (lower (strip t)) = false ->
  exists op g, Re.op_bracket (strip t) = Some (op, g).
Proof.
  rewrite parse_transform_expression_unfold.
  unfold parse_transform_expression_body, match_transform. intros H Hn.
  rewrite Hn in H.
  destruct (Re.op_bracket (strip t)) as [[op g]|]; [eauto | discriminate].
Qed.

(** A text that parses to a filter action is no simple transform: what
    [coerce_simple_transform] returns for it is the action. *)
Lemma coerce_filter_none t src p op method args :
  parse_transform_expression t = Ok (PFilter op method args) ->
  coerce_simple_transform t src = Ok p -> drop_filter p = None.
Proof.
  intros Hp. unfold coerce_simple_transform.
  rewrite <- parse_transform_expression_strip in Hp.
  assert (Hs : strip (strip t) = strip t) by apply strip_idem.
  remember (strip t) as t' eqn:Et. clear Et t.
  destruct (startswith "trns:" (lower t')) eqn:El;
    [rewrite Hp; now intros [= <-]|].
  destruct (existsb _ unprefixed_families); [rewrite Hp; now intros [= <-]|].
  destruct (parse_ok_op_bracket t' _ Hp) as (o & g & Hop); [now rewrite Hs|].
  rewrite Hs in Hop.
  repeat match goal with
         | |- context [String.eqb t' ?k] =>
             destruct (String.eqb_spec t' k) as [E|_];
             [exfalso; rewrite E in Hp; vm_compute in Hp; discriminate Hp|]
         end.
  rewrite (keyword_quoted_op_bracket "date_format" t' o g eq_refl Hop).
  rewrite (keyword_quoted_op_bracket "to_date" t' o g eq_refl Hop).
  discriminate.
Qed.

(** A filter mapping that compiles contributes no expression. *)
Lemma filter_builds_none df (m : mapping) oe :
  Spec.is_filter_mapping m = true ->
  _build_expr_for_mapping df m = Ok oe -> oe = None.
Proof.
  unfold Spec.is_filter_mapping, Spec.transform_of, _build_expr_for_mapping.
  destruct (py_or (get m "transform") (get m "trns")) as [| | | |t|] eqn:Et;
    try discriminate.
  destruct (parse_transform_expression t) as [[e|op method args]| | |] eqn:Hp;
    try discriminate.
  intros _ H. apply bind_ok in H as (b & Hb & H).
  assert (Ht : String.eqb t EmptyString = false).
  { destruct t; [vm_compute in Hp; discriminate Hp | reflexivity]. }
  destruct b as [e|src].
  - exfalso. unfold bind_source in Hb.
    destruct (py_or (get m "source") (get m "affected_source")) as [| | | |s|];
      try discriminate Hb.
    + cbn [is_none] in Hb. rewrite andb_false_r in Hb. discriminate Hb.
    + destruct (List.filter _ _); [discriminate Hb|].
      destruct (negb _); [|discriminate Hb].
      destruct (lit (get m "default")); discriminate Hb.
  - cbn [truthy] in H. rewrite Ht in H. cbn [negb] in H.
    unfold apply_transform in H. apply reraise_ok in H.
    destruct (startswith "trns:" (lower (strip t))).
    + apply bind_ok in H as (p & Hp' & H). rewrite Hp in Hp'.
      injection Hp' as <-. cbn [drop_filter] in H. congruence.
    + apply bind_ok in H as (p & Hc & H).
      rewrite (coerce_filter_none _ _ _ _ _ _ Hp Hc) in H. congruence.
Qed.

Lemma build_select_each df ms es (m : mapping) :
  build_select df ms = Ok es -> In m ms ->
  exists oe, _build_expr_for_mapping df m = Ok oe.
Proof.
  revert es. induction ms as [|m0 ms IH]; intros es; cbn [build_select]; [intros _ []|].
  intros H Hin. apply bind_ok in H as (oe & Hb & H).
  destruct Hin as [->|Hin]; [eauto|].
  destruct oe as [e|]; [|now apply (IH es)].
  apply bind_ok in H as (a & _ & H). apply bind_ok in H as (es' & Hes & _).
  now apply (IH es').
Qed.

(** With one of the two keys of the target, the name the executor reads is
    that target. *)
Lemma one_target_name (m : mapping) n :
  alias_name m = PyStr n -> Spec.has_one_target m -> Spec.target_of m = PyStr n.
Proof.
  unfold alias_name, Spec.has_one_target, Spec.target_of, get_or, get.
  destruct (m !! "target"), (m !! "affected_target"); cbn [default from_option id];
    intros H [[H1 H2] | [H1 H2]]; congruence.
Qed.

(** The expression a mapping contributes to the selection, under the name
    the executor gives it. *)
Lemma build_select_projections df ms : forall es,
  build_select df ms = Ok es ->
  Forall2 (fun e (m : mapping) =>
             exists e0 n, e = Alias e0 n
                          /\ _build_expr_for_mapping df m = Ok (Some e0)
                          /\ alias_name m = PyStr n)
          es (Spec.projections ms).
Proof.
  induction ms as [|m ms IH]; intros es; cbn [build_select Spec.projections List.filter].
  - intros [= <-]. constructor.
  - intros H. apply bind_ok in H as (oe & Hb & H).
    destruct (Spec.is_filter_mapping m) eqn:E; cbn [negb].
    + rewrite (filter_builds_none df m oe E Hb) in H. now apply IH.
    + destruct oe as [e0|].
      * apply bind_ok in H as (a & Ha & H).
        apply bind_ok in H as (es' & Hes & [= <-]).
        unfold aliased in Ha.
        destruct (alias_name m) as [| | | |n|] eqn:En; try discriminate Ha.
        injection Ha as <-. constructor; [|now apply IH].
        exists e0, n. auto.
      * apply build_none_is_filter in Hb as (t & op & me & ar & Ht & Hp).
        unfold Spec.is_filter_mapping in E. rewrite Ht, Hp in E. discriminate E.
Qed.

Lemma projection_names (P : mapping -> string -> Prop) es ps :
  Forall2 (fun e m => exists e0 n, e = Alias e0 n /\ P m n) es ps ->
  exists names, mapM output_name es = Ok names
                /\ Forall2 (fun col m => P m col) names ps.
Proof.
  induction 1 as [|e m es ps (e0 & n & -> & Hn) _ (names & Hm & IH)].
  - exists []. split; [reflexivity | constructor].
  - exists (n :: names). split; [|now constructor].
    cbn [mapM output_name bind]. now rewrite Hm.
Qed.

(** C6 (amended).  When the selection compiles, it holds one expression for
    each non-filter mapping, in the order of their declaration, under the
    name the executor reads for the mapping, which is the mapping's target
    when the mapping has one of the keys [target] and [affected_target] and
    not both; every mapping whose transform parses to a FILTER or FILTERS
    action compiles to nothing; and the columns of the table the executor
    returns are those names in that order. *)
Theorem output_columns_follow_mappings
    (df : DataFrame) (ms : list mapping) (es : list expr) :
  build_select df ms = Ok es ->
  Forall2 (fun e (m : mapping) =>
             exists e0 n, e = Alias e0 n
                          /\ _build_expr_for_mapping df m = Ok (Some e0)
                          /\ alias_name m = PyStr n
                          /\ (Spec.has_one_target m -> Spec.target_of m = PyStr n))
          es (Spec.projections ms)
  /\ (forall m, In m ms -> Spec.is_filter_mapping m = true ->
        _build_expr_for_mapping df m = Ok None)
  /\ (forall out, apply_transformations df ms = Ok out ->
        Forall2 (fun col (m : mapping) =>
                   alias_name m = PyStr col
                   /\ (Spec.has_one_target m -> Spec.target_of m = PyStr col))
                (columns out) (Spec.projections ms)).
Proof.
  intros Hes. pose proof (build_select_projections df ms es Hes) as HF.
  assert (HF' : Forall2 (fun e (m : mapping) =>
             exists e0 n, e = Alias e0 n
                          /\ alias_name m = PyStr n
                             /\ (Spec.has_one_target m -> Spec.target_of m = PyStr n))
          es (Spec.projections ms)).
  { eapply Forall2_impl; [exact HF|]. intros e m (e0 & n & -> & _ & Hn).
    exists e0, n. repeat split; [assumption | now apply one_target_name]. }
  split; [|split].
  - eapply Forall2_impl; [exact HF|]. intros e m (e0 & n & -> & Hb & Hn).
    exists e0, n. repeat split; try assumption. now apply one_target_name.
  - intros m Hin Hf. destruct (build_select_each df ms es m Hes Hin) as (oe & Hb).
    now rewrite Hb, (filter_builds_none df m oe Hf Hb).
  - intros out H. unfold apply_transformations in H.
    destruct ms as [|m0 ms]; [discriminate|].
    rewrite Hes in H. cbn [bind] in H. apply reraise_ok in H.
    apply bind_ok in H as (df2 & _ & H).
    destruct (projection_names
                (fun m n => alias_name m = PyStr n
                            /\ (Spec.has_one_target m -> Spec.target_of m = PyStr n))
                es _ HF') as (names & Hm & Hn).
    now rewrite (select_columns df2 es out names H Hm).
Qed.

Lemma output_columns_follow_mappings_witness :
  Forall2 (fun col (m : mapping) =>
             alias_name m = PyStr col
             /\ (Spec.has_one_target m -> Spec.target_of m = PyStr col))
          ["C"; "A"] (Spec.projections four_mappings).
Proof.
  destruct (output_columns_follow_mappings demo5 four_mappings
              [Alias (Col "c") "C"; Alias (Col "a") "A"]) as (_ & _ & H);
    [reflexivity|].
  exact (H [("C", [CStr "z"; CStr "w"]); ("A", [CInt 2; CInt 3])] eq_refl).
Defined.

(** The column of a mapping that has both keys is named by
    [affected_target], not by its target; the column of a mapping that has
    neither is named [no_target]. *)
Lemma column_name_is_not_always_the_target :
  Spec.target_of
    (<["target" := PyStr "canonical"]>
       (<["affected_target" := PyStr "alias"]> {[ "source" := PyStr "a" ]}))
  = PyStr "canonical"
  /\ Spec.is_filter_mapping
       (<["target" := PyStr "canonical"]>
          (<["affected_target" := PyStr "alias"]> {[ "source" := PyStr "a" ]}))
     = false
  /\ apply_transformations demo5
       [ <["target" := PyStr "canonical"]>
           (<["affected_target" := PyStr "alias"]> {[ "source" := PyStr "a" ]}) ]
     = Ok [("alias", [CInt 0; CInt 1; CInt 2; CInt 3; CInt 4])]
  /\ Spec.target_of {[ "source" := PyStr "a" ]} = PyNone
  /\ apply_transformations demo5 [ {[ "source" := PyStr "a" ]} ]
     = Ok [("no_target", [CInt 0; CInt 1; CInt 2; CInt 3; CInt 4])].
Proof. vm_compute. repeat split. Qed.
